(** * Dispatch core of the ride-hailing socket server (src/socket.js)

    A shallow embedding of the Socket.IO handlers of [src/socket.js]:
    the sequential ride-identifier generator, the driver presence
    registry, and the ride lifecycle handlers ([bookRide], [acceptRide],
    [rejectRide], [completeRide]), together with the properties their
    specification states about them.

    Conventions of the embedding:
    - module-level mutable state ([rides], [activeDriverSockets],
      [processingRides]) and the MongoDB collections are fields of an
      explicit [World] that every handler threads through;
    - everything a handler sends ([io.emit], [socket.emit],
      [io.to(room).emit], [socket.broadcast.emit], the acknowledgement
      callback) is appended to a list of [Effect]s;
    - what the environment decides (clock, [Math.random], whether a
      MongoDB call resolves or rejects, the [_id] MongoDB assigns) is an
      explicit argument of the handler;
    - an [async] handler is a sequence of segments separated by [await];
      the event loop runs a segment without interruption and may run
      segments of other handlers between two of them. *)

From Stdlib Require Import ZArith NArith QArith String Ascii List Lia Bool.
From stdpp Require Import gmap strings list fin_maps.

(** ** JavaScript values and string primitives *)

Module Js.

(** [!x] for a value that is a string or absent: [undefined], [null]
    and the empty string are falsy. *)
Definition truthy_str (v : option string) : bool :=
  match v with
  | Some s => negb (String.eqb s "")
  | None => false
  end.

(** [!x] for a value that is a number or absent: [undefined], [NaN]
    (both [None]) and [0] are falsy. *)
Definition truthy_num (v : option Q) : bool :=
  match v with
  | Some q => negb (Z.eqb (Qnum q) 0)
  | None => false
  end.

(** [!x] for a value that is an object or absent. *)
Definition truthy_obj {A : Type} (v : option A) : bool :=
  match v with
  | Some _ => true
  | None => false
  end.

(** [x || d] on strings. *)
Definition or_str (v : option string) (d : string) : string :=
  if truthy_str v then default d v else d.

Definition digit_char (d : N) : ascii := ascii_of_N (48 + d).

Definition is_digit (c : ascii) : bool :=
  let n := N_of_ascii c in (48 <=? n)%N && (n <=? 57)%N.

(** Decimal digits of a natural number, most significant first. *)
Fixpoint decimal (fuel : nat) (n : N) : string :=
  match fuel with
  | O => ""
  | S f =>
      if (n <? 10)%N then String (digit_char n) ""
      else decimal f (n / 10)%N +:+ String (digit_char (n mod 10)%N) ""
  end.

Definition N_toString (n : N) : string :=
  decimal (S (N.to_nat (N.log2 n))) n.

(** [Number.prototype.toString()] on an integer. *)
Definition toString (z : Z) : string :=
  if (z <? 0)%Z then "-" +:+ N_toString (Z.to_N (- z))
  else N_toString (Z.to_N z).

Fixpoint repeat_char (n : nat) (c : ascii) : string :=
  match n with
  | O => ""
  | S k => String c (repeat_char k c)
  end.

(** [s.padStart(n, c)] for a one-character pad string. *)
Definition padStart (n : nat) (c : ascii) (s : string) : string :=
  repeat_char (n - String.length s) c +:+ s.

(** [s.slice(-k)]: the last [k] characters (all of [s] when shorter). *)
Definition slice_last (k : nat) (s : string) : string :=
  substring (String.length s - k) k s.

Fixpoint all_chars (p : ascii -> bool) (s : string) : bool :=
  match s with
  | EmptyString => true
  | String c r => p c && all_chars p r
  end.

(** [s.includes(t)] *)
Fixpoint includes (s t : string) : bool :=
  String.prefix t s ||
  match s with
  | EmptyString => false
  | String _ r => includes r t
  end.

(** Value of a digit string read in base ten. *)
Fixpoint value_acc (acc : N) (s : string) : N :=
  match s with
  | EmptyString => acc
  | String c r => value_acc (10 * acc + (N_of_ascii c - 48))%N r
  end.

Definition value (s : string) : N := value_acc 0 s.

End Js.

(** ** Ride identifiers *)

(** Shape of an identifier: the tag [RID] followed by exactly [k]
    decimal digits. *)
Definition rid_digits (k : nat) (s : string) : bool :=
  match s with
  | String "R" (String "I" (String "D" d)) =>
      Nat.eqb (String.length d) k && Js.all_chars Js.is_digit d
  | _ => false
  end.

(** What the environment decides during one call of the generator:
    whether the [$inc] update and the reset update resolve, the clock
    and the value of [Math.floor(Math.random() * 1000)]. *)
Record GenEnv := {
  inc_ok : bool;
  reset_ok : bool;
  gen_now : N;
  gen_rand : N
}.

(** The [catch] branch of [generateSequentialRaidId]. *)
Definition fallbackId (e : GenEnv) : string :=
  let timestamp := Js.slice_last 6 (Js.N_toString (gen_now e)) in
  let random := Js.padStart 3 "0" (Js.N_toString (gen_rand e)) in
  "RID" +:+ timestamp +:+ random.

Definition formatRaidId (sequenceNumber : Z) : string :=
  "RID" +:+ Js.padStart 6 "0" (Js.toString sequenceNumber).

(** [generateSequentialRaidId] (socket.js 73-112) over the [sequence]
    field of the [raidId] counter document ([None]: the document does
    not exist and the upsert creates it with [sequence = 1]).  Returns
    the identifier and the counter left in the database. *)
Definition generateSequentialRaidId (e : GenEnv) (seq : option Z)
  : string * option Z :=
  if inc_ok e then
    let sequenceNumber := (default 0 seq + 1)%Z in
    if (sequenceNumber >? 999999)%Z then
      if reset_ok e then (formatRaidId 100000, Some 100000%Z)
      else (fallbackId e, Some sequenceNumber)
    else (formatRaidId sequenceNumber, Some sequenceNumber)
  else (fallbackId e, seq).

(** The call wraps: the incremented counter exceeds the ceiling. *)
Definition wraps (seq : option Z) : bool := (default 0 seq + 1 >? 999999)%Z.

(** The call returns from the [try] block (the durable path): the
    [$inc] update resolves and so does the reset when the call wraps.
    Otherwise the identifier comes from the [catch] block. *)
Definition durable (e : GenEnv) (seq : option Z) : bool :=
  inc_ok e && (negb (wraps seq) || reset_ok e).

(** What the clock and [Math.floor(Math.random() * 1000)] can return:
    a time of at least six digits and an integer below 1000. *)
Definition gen_env_wf (e : GenEnv) : Prop :=
  (100000 <= gen_now e)%N /\ (gen_rand e < 1000)%N.

(** Successive calls of the generator, threading the counter: for each
    call whether it took the durable path and the identifier it
    returned, and the counter left in the database. *)
Fixpoint gen_run (es : list GenEnv) (seq : option Z)
  : list (bool * string) * option Z :=
  match es with
  | [] => ([], seq)
  | e :: es' =>
      let '(id, seq') := generateSequentialRaidId e seq in
      let '(ids, seq'') := gen_run es' seq' in
      ((durable e seq, id) :: ids, seq'')
  end.

(** The identifiers a run returned on the durable path. *)
Definition durable_ids (run : list (bool * string)) : list string :=
  map snd (List.filter fst run).

(** No call of the run wraps. *)
Fixpoint no_wrap (es : list GenEnv) (seq : option Z) : bool :=
  match es with
  | [] => true
  | e :: es' =>
      negb (wraps seq) && no_wrap es' (snd (generateSequentialRaidId e seq))
  end.

(** The run stays within one wraparound epoch: only its first call may
    wrap (the call that resets the counter opens the epoch). *)
Definition single_epoch (es : list GenEnv) (seq : option Z) : bool :=
  match es with
  | [] => true
  | e :: es' => no_wrap es' (snd (generateSequentialRaidId e seq))
  end.

(** ** Data model *)

(** [status] of a ride: the strings ["pending"], ["accepted"],
    ["rejected"], ["completed"]. *)
Inductive RideStatus := pending | accepted | rejected | completed.

(** What a rejected promise carries.  [bookRide] tells a mongoose
    [ValidationError] and a MongoDB duplicate-key error (code 11000, with
    or without [keyPattern.RAID_ID]) from the rest. *)
Inductive JsError :=
| ValidationError (message : string) (errors : list string)
| DuplicateKey (message : string) (onRAID_ID : bool)
| OtherError (message : string).

Definition error_message (err : JsError) : string :=
  match err with
  | ValidationError m _ => m
  | DuplicateKey m _ => m
  | OtherError m => m
  end.

(** Outcome of an awaited MongoDB call. *)
Inductive DbResult := Resolves | Rejects (err : JsError).

(** [{latitude, longitude}] as stored in the presence registry. *)
Record Location := { latitude : option Q; longitude : option Q }.

(** [pickup] / [drop] of a booking payload: [{address, lat, lng}]. *)
Record Place := { address : option string; lat : option Q; lng : option Q }.

(** [pickup] / [drop] of a ride document: [{addr, lat, lng}]. *)
Record PlaceDoc := { addr : string; doc_lat : option Q; doc_lng : option Q }.

Definition placeDoc (p : Place) : PlaceDoc :=
  {| addr := Js.or_str (address p) "Selected Location";
     doc_lat := lat p; doc_lng := lng p |}.

(** Payload of the [bookRide] event. *)
Module Booking.
Record t := {
  userId : option string;
  customerId : option string;
  userName : option string;
  userMobile : option string;
  pickup : option Place;
  drop : option Place;
  vehicleType : option string;
  estimatedPrice : option Q;
  distance : option string;
  travelTime : option string;
  wantReturn : bool
}.
End Booking.

(** Documents of the [Ride] collection.  The schema ([models/ride]) is
    not among the sources: the fields are those the handlers read or
    assign (the display copies [pickupLocation], [Raid_date], [price],
    [distanceKm], ... are left out), and what the schema decides, the
    outcome of [validate()] and of [save()], is left to the
    environment of each handler. *)
Module Ride.
Record t := {
  _id : string;
  RAID_ID : string;
  user : string;
  customerId : string;
  name : string;
  userMobile : option string;
  fare : Q;
  rideType : option string;
  otp : option string;
  distance : string;
  travelTime : string;
  isReturnTrip : bool;
  status : RideStatus;
  pickup : PlaceDoc;
  drop : PlaceDoc;
  driverId : option string;
  driverName : option string;
  driverMobile : option string
}.

(** The assignments [acceptRide] makes on the loaded document. *)
Definition accept (d n : option string) (r : t) : t :=
  {| _id := _id r; RAID_ID := RAID_ID r; user := user r;
     customerId := customerId r; name := name r;
     userMobile := userMobile r; fare := fare r; rideType := rideType r;
     otp := otp r; distance := distance r; travelTime := travelTime r;
     isReturnTrip := isReturnTrip r; status := accepted;
     pickup := pickup r; drop := drop r;
     driverId := d; driverName := n; driverMobile := driverMobile r |}.

Definition set_driverMobile (m : option string) (r : t) : t :=
  {| _id := _id r; RAID_ID := RAID_ID r; user := user r;
     customerId := customerId r; name := name r;
     userMobile := userMobile r; fare := fare r; rideType := rideType r;
     otp := otp r; distance := distance r; travelTime := travelTime r;
     isReturnTrip := isReturnTrip r; status := status r;
     pickup := pickup r; drop := drop r;
     driverId := driverId r; driverName := driverName r;
     driverMobile := m |}.

Definition set_otp (o : option string) (r : t) : t :=
  {| _id := _id r; RAID_ID := RAID_ID r; user := user r;
     customerId := customerId r; name := name r;
     userMobile := userMobile r; fare := fare r; rideType := rideType r;
     otp := o; distance := distance r; travelTime := travelTime r;
     isReturnTrip := isReturnTrip r; status := status r;
     pickup := pickup r; drop := drop r;
     driverId := driverId r; driverName := driverName r;
     driverMobile := driverMobile r |}.

(** [Ride.findOne({ RAID_ID: rideId })]: the first matching document. *)
Fixpoint findOne (rideId : string) (coll : list t) : option t :=
  match coll with
  | [] => None
  | r :: rest =>
      if String.eqb (RAID_ID r) rideId then Some r else findOne rideId rest
  end.

(** [new Ride(rideData).save()]: a new document is appended. *)
Definition insert (r : t) (coll : list t) : list t := coll ++ [r].

(** [ride.save()] on a loaded document: the paths [acceptRide]
    assigns ([status], [driverId], [driverName], [driverMobile],
    [otp]) are written to the stored document with the same [_id]. *)
Definition write (local stored : t) : t :=
  {| _id := _id stored; RAID_ID := RAID_ID stored; user := user stored;
     customerId := customerId stored; name := name stored;
     userMobile := userMobile stored; fare := fare stored;
     rideType := rideType stored; otp := otp local;
     distance := distance stored; travelTime := travelTime stored;
     isReturnTrip := isReturnTrip stored; status := status local;
     pickup := pickup stored; drop := drop stored;
     driverId := driverId local; driverName := driverName local;
     driverMobile := driverMobile local |}.

Definition save (local : t) (coll : list t) : list t :=
  map (fun stored =>
         if String.eqb (_id stored) (_id local) then write local stored
         else stored) coll.
End Ride.

(** Documents of the [Driver] collection, as far as [acceptRide] reads
    them; [coordinates] is the GeoJSON pair [[lng, lat]]. *)
Module Driver.
Record t := {
  driverId : string;
  phone : option string;
  coordinates : option (Q * Q);
  vehicleType : option string
}.

(** [Driver.findOne({ driverId })] *)
Fixpoint findOne (id : string) (coll : list t) : option t :=
  match coll with
  | [] => None
  | d :: rest =>
      if String.eqb (driverId d) id then Some d else findOne id rest
  end.
End Driver.

(** Documents of the [DriverLocation] collection. *)
Module DriverLocation.
Record t := {
  driverId : option string;
  driverName : option string;
  latitude : option Q;
  longitude : option Q;
  vehicleType : string;
  status : string;
  timestamp : N
}.
End DriverLocation.

(** Values of the [activeDriverSockets] map. *)
Module Presence.
Record t := {
  socketId : string;
  driverId : string;
  driverName : option string;
  location : Location;
  vehicleType : string;
  lastUpdate : N;
  status : string;
  isOnline : bool
}.

(** [driverData.location = ...; driverData.lastUpdate = Date.now();
    driverData.status = ...; driverData.isOnline = true] *)
Definition relocate (l : Location) (now : N) (st : string) (d : t) : t :=
  {| socketId := socketId d; driverId := driverId d;
     driverName := driverName d; location := l;
     vehicleType := vehicleType d; lastUpdate := now; status := st;
     isOnline := true |}.

(** [driverData.status = ...; driverData.isOnline = true] *)
Definition set_status (st : string) (d : t) : t :=
  {| socketId := socketId d; driverId := driverId d;
     driverName := driverName d; location := location d;
     vehicleType := vehicleType d; lastUpdate := lastUpdate d;
     status := st; isOnline := true |}.
End Presence.

(** A JavaScript [Map] with string keys: entries in insertion order,
    [set] on a present key keeps its position. *)
Module JsMap.
Section Ops.
Context {V : Type}.

Fixpoint get (k : string) (m : list (string * V)) : option V :=
  match m with
  | [] => None
  | (k', v) :: rest => if String.eqb k' k then Some v else get k rest
  end.

Definition has (k : string) (m : list (string * V)) : bool :=
  match get k m with Some _ => true | None => false end.

Fixpoint set (k : string) (v : V) (m : list (string * V))
  : list (string * V) :=
  match m with
  | [] => [(k, v)]
  | (k', v') :: rest =>
      if String.eqb k' k then (k', v) :: rest
      else (k', v') :: set k v rest
  end.

Definition values (m : list (string * V)) : list V := map snd m.
End Ops.
End JsMap.

(** The in-memory working copy [rides[rideId]]: the booking payload
    spread into an object with [rideId], [status], [timestamp], [_id];
    [rejectRide] and [completeRide] add [rejectedAt], [completedAt] and
    overwrite [distance]. *)
Module Working.
Record t := {
  data : Booking.t;
  rideId : string;
  status : RideStatus;
  timestamp : N;
  _id : string;
  rejectedAt : option N;
  completedAt : option N;
  distance : option Q
}.

Definition userId (r : t) : option string := Booking.userId (data r).

Definition reject (now : N) (r : t) : t :=
  {| data := data r; rideId := rideId r; status := rejected;
     timestamp := timestamp r; _id := _id r; rejectedAt := Some now;
     completedAt := completedAt r; distance := distance r |}.

Definition complete (now : N) (dist : Q) (r : t) : t :=
  {| data := data r; rideId := rideId r; status := completed;
     timestamp := timestamp r; _id := _id r; rejectedAt := rejectedAt r;
     completedAt := Some now; distance := Some dist |}.
End Working.

(** A connection: [socket.id], the properties the handlers set on it
    and the rooms it joined. *)
Module Socket.
Record t := {
  id : string;
  driverId : option string;
  driverName : option string;
  rooms : list string
}.

Definition inRoom (room : string) (s : t) : bool :=
  existsb (String.eqb room) (rooms s).

(** [socket.driverId = d; socket.driverName = n; socket.join(...)] *)
Definition bindDriver (d : string) (n : option string) (rs : list string)
    (s : t) : t :=
  {| id := id s; driverId := Some d; driverName := n;
     rooms := rooms s ++ rs |}.
End Socket.

(** ** Events *)

(** An element of the [drivers] array of [driverLocationsUpdate]. *)
Module Snapshot.
Record t := {
  driverId : string;
  name : option string;
  coordinates : option Q * option Q;
  vehicleType : string;
  status : string;
  lastUpdate : N
}.
End Snapshot.

(** Payload of [driverLiveLocationUpdate]. *)
Module LiveLocation.
Record t := {
  driverId : option string;
  lat : option Q;
  lng : option Q;
  status : string;
  vehicleType : string;
  timestamp : N
}.
End LiveLocation.

(** [driverData], the acceptance payload of [acceptRide]. *)
Module DriverData.
Record t := {
  rideId : string;
  driverId : string;
  driverName : option string;
  driverMobile : option string;
  driverLat : Q;
  driverLng : Q;
  otp : option string;
  pickup : PlaceDoc;
  drop : PlaceDoc;
  status : RideStatus;
  vehicleType : string;
  timestamp : N
}.
End DriverData.

(** [userDataForDriver], sent to the accepting driver. *)
Module UserData.
Record t := {
  rideId : string;
  userId : string;
  customerId : string;
  userName : string;
  userMobile : string;
  pickup : PlaceDoc;
  drop : PlaceDoc;
  otp : option string;
  status : RideStatus;
  timestamp : N
}.
End UserData.

(** Named messages sent to clients. *)
Inductive Event :=
| driverLiveLocationUpdate (p : LiveLocation.t)
| driverLocationsUpdate (drivers : list Snapshot.t)
| driverRegistrationConfirmed (success : bool) (message : string)
| newRideRequest (data : Booking.t) (rideId : string) (_id : string)
| rideAccepted (p : DriverData.t)
| rideAcceptedGlobal (p : DriverData.t) (targetUserId : string) (timestamp : N)
| userDataForDriver (p : UserData.t)
| rideAlreadyAccepted (rideId : string) (message : string)
| driverStatusUpdate (driverId : string) (status : string)
| rideCompleted (rideId : string) (distance : Q).

(** Addressees: [io.emit], [io.to(room).emit], [s.emit] on one
    connection, and [socket.broadcast.emit] (every connection but the
    sender). *)
Inductive Target :=
| ToAll
| ToRoom (room : string)
| ToSocket (id : string)
| ToOthers (sender : string).

(** The object passed to the acknowledgement callback. *)
Inductive AckPayload :=
| BookOk (rideId : string) (_id : string) (otp : option string) (message : string)
| AcceptOk (p : DriverData.t)
| AckFail (message : string).

Inductive Effect :=
| Emit (t : Target) (e : Event)
| Ack (a : AckPayload).

(** [if (callback) callback(a)] *)
Definition ack (callback : bool) (a : AckPayload) : list Effect :=
  if callback then [Ack a] else [].

Definition alreadyAcceptedMessage : string :=
  "This ride has already been accepted by another driver.".

(** ** State *)

(** The MongoDB collections the handlers use. *)
Record Db := {
  rideColl : list Ride.t;
  driverColl : list Driver.t;
  raidSeq : option Z;
  locationColl : list DriverLocation.t
}.

(** Callbacks registered with [setTimeout]. *)
Inductive TimerTask :=
| DeleteRide (rideId : string)
| ReEmitAccepted (room : string) (p : DriverData.t).

Record Timer := { delay : N; task : TimerTask }.

(** Module-level state of [socket.js], the connections of the
    Socket.IO server, the database and the pending timers. *)
Record World := {
  rides : gmap string Working.t;
  activeDriverSockets : list (string * Presence.t);
  processingRides : gset string;
  sockets : list Socket.t;
  db : Db;
  timers : list Timer
}.

Definition with_rides (f : gmap string Working.t -> gmap string Working.t)
    (w : World) : World :=
  {| rides := f (rides w); activeDriverSockets := activeDriverSockets w;
     processingRides := processingRides w; sockets := sockets w;
     db := db w; timers := timers w |}.

Definition with_presence
    (f : list (string * Presence.t) -> list (string * Presence.t))
    (w : World) : World :=
  {| rides := rides w; activeDriverSockets := f (activeDriverSockets w);
     processingRides := processingRides w; sockets := sockets w;
     db := db w; timers := timers w |}.

Definition with_processing (f : gset string -> gset string) (w : World)
  : World :=
  {| rides := rides w; activeDriverSockets := activeDriverSockets w;
     processingRides := f (processingRides w); sockets := sockets w;
     db := db w; timers := timers w |}.

Definition with_sockets (f : list Socket.t -> list Socket.t) (w : World)
  : World :=
  {| rides := rides w; activeDriverSockets := activeDriverSockets w;
     processingRides := processingRides w; sockets := f (sockets w);
     db := db w; timers := timers w |}.

Definition with_db (f : Db -> Db) (w : World) : World :=
  {| rides := rides w; activeDriverSockets := activeDriverSockets w;
     processingRides := processingRides w; sockets := sockets w;
     db := f (db w); timers := timers w |}.

Definition add_timer (t : Timer) (w : World) : World :=
  {| rides := rides w; activeDriverSockets := activeDriverSockets w;
     processingRides := processingRides w; sockets := sockets w;
     db := db w; timers := timers w ++ [t] |}.

Definition with_rideColl (f : list Ride.t -> list Ride.t) (d : Db) : Db :=
  {| rideColl := f (rideColl d); driverColl := driverColl d;
     raidSeq := raidSeq d; locationColl := locationColl d |}.

Definition with_raidSeq (seq : option Z) (d : Db) : Db :=
  {| rideColl := rideColl d; driverColl := driverColl d;
     raidSeq := seq; locationColl := locationColl d |}.

Definition add_location (l : DriverLocation.t) (d : Db) : Db :=
  {| rideColl := rideColl d; driverColl := driverColl d;
     raidSeq := raidSeq d; locationColl := locationColl d ++ [l] |}.

(** What a timer does when it fires. *)
Definition fireTimer (t : TimerTask) (w : World) : World * list Effect :=
  match t with
  | DeleteRide rideId => (with_rides (delete rideId) w, [])
  | ReEmitAccepted room p => (w, [Emit (ToRoom room) (rideAccepted p)])
  end.

(** ** Presence registry *)

(** What the environment decides during a presence handler: the clock
    and whether [locationDoc.save()] resolves. *)
Record PresenceEnv := { presence_now : N; location_saved : bool }.

(** [saveDriverLocationToDB] (socket.js 115-134): the error of a
    failed save is caught inside the helper, which then writes
    nothing. *)
Definition saveDriverLocationToDB (e : PresenceEnv)
    (driverId driverName : option string) (latitude longitude : option Q)
    (vehicleType status : string) (d : Db) : Db :=
  if location_saved e then
    add_location
      {| DriverLocation.driverId := driverId;
         DriverLocation.driverName := driverName;
         DriverLocation.latitude := latitude;
         DriverLocation.longitude := longitude;
         DriverLocation.vehicleType := vehicleType;
         DriverLocation.status := status;
         DriverLocation.timestamp := presence_now e |} d
  else d.

Definition snapshot (d : Presence.t) : Snapshot.t :=
  {| Snapshot.driverId := Presence.driverId d;
     Snapshot.name := Presence.driverName d;
     Snapshot.coordinates :=
       (longitude (Presence.location d), latitude (Presence.location d));
     Snapshot.vehicleType := Presence.vehicleType d;
     Snapshot.status := Presence.status d;
     Snapshot.lastUpdate := Presence.lastUpdate d |}.

(** [broadcastDriverLocationsToAllUsers] (socket.js 137-152) *)
Definition broadcastDriverLocationsToAllUsers (w : World) : list Effect :=
  [Emit ToAll
     (driverLocationsUpdate
        (map snapshot
           (List.filter Presence.isOnline
              (JsMap.values (activeDriverSockets w)))))].

(** [logDriverStatus] (socket.js 14-32) only writes to the console,
    but it calls [toFixed] on the coordinates of every entry: [true]
    when it returns, [false] when it throws a [TypeError] on an absent
    coordinate. *)
Definition logDriverStatus (w : World) : bool :=
  forallb
    (fun d => Js.truthy_obj (latitude (Presence.location d)) &&
              Js.truthy_obj (longitude (Presence.location d)))
    (JsMap.values (activeDriverSockets w)).

Definition toFixedTypeError : string :=
  "Cannot read properties of undefined (reading 'toFixed')".

(** Payload of [driverLocationUpdate]. *)
Module LocationUpdate.
Record t := {
  driverId : option string;
  latitude : option Q;
  longitude : option Q;
  status : option string
}.
End LocationUpdate.

(** [activeDriverSockets.has(driverId)] followed by [get], for a key
    that may be [undefined]. *)
Definition knownDriver (driverId : option string) (w : World)
  : option Presence.t :=
  match driverId with
  | Some k => JsMap.get k (activeDriverSockets w)
  | None => None
  end.

(** Handler of [driverLocationUpdate] (socket.js 179-224). *)
Definition driverLocationUpdate (data : LocationUpdate.t) (e : PresenceEnv)
    (w : World) : World * list Effect :=
  let driverId := LocationUpdate.driverId data in
  let latitude := LocationUpdate.latitude data in
  let longitude := LocationUpdate.longitude data in
  let status := Js.or_str (LocationUpdate.status data) "Live" in
  let w1 :=
    match driverId, knownDriver driverId w with
    | Some k, Some driverData =>
        with_presence
          (JsMap.set k
             (Presence.relocate
                {| latitude := latitude; longitude := longitude |}
                (presence_now e) status driverData)) w
    | _, _ => w
    end in
  let live :=
    Emit ToAll
      (driverLiveLocationUpdate
         {| LiveLocation.driverId := driverId;
            LiveLocation.lat := latitude;
            LiveLocation.lng := longitude;
            LiveLocation.status := status;
            LiveLocation.vehicleType := "taxi";
            LiveLocation.timestamp := presence_now e |}) in
  let driverName :=
    Js.or_str (knownDriver driverId w1 ≫= Presence.driverName) "Unknown" in
  (with_db
     (saveDriverLocationToDB e driverId (Some driverName) latitude longitude
        "taxi" status) w1,
   [live]).

(** Payload of [registerDriver]. *)
Module Registration.
Record t := {
  driverId : option string;
  driverName : option string;
  latitude : option Q;
  longitude : option Q;
  vehicleType : option string
}.
End Registration.

Definition updateSocket (sid : string) (f : Socket.t -> Socket.t)
    (l : list Socket.t) : list Socket.t :=
  map (fun s => if String.eqb (Socket.id s) sid then f s else s) l.

(** Handler of [registerDriver] (socket.js 279-346) on the connection
    [sid]. *)
Definition registerDriver (sid : string) (data : Registration.t)
    (e : PresenceEnv) (w : World) : World * list Effect :=
  match Registration.driverId data with
  | Some driverId =>
      if negb (Js.truthy_str (Some driverId)) then (w, [])
      else if negb (Js.truthy_num (Registration.latitude data)) ||
              negb (Js.truthy_num (Registration.longitude data))
      then (w, [])
      else
        let driverName := Registration.driverName data in
        let latitude := Registration.latitude data in
        let longitude := Registration.longitude data in
        let vehicleType := default "taxi" (Registration.vehicleType data) in
        let w1 :=
          with_presence
            (JsMap.set driverId
               {| Presence.socketId := sid;
                  Presence.driverId := driverId;
                  Presence.driverName := driverName;
                  Presence.location :=
                    {| latitude := latitude; longitude := longitude |};
                  Presence.vehicleType := vehicleType;
                  Presence.lastUpdate := presence_now e;
                  Presence.status := "Live";
                  Presence.isOnline := true |})
            (with_sockets
               (updateSocket sid
                  (Socket.bindDriver driverId driverName
                     ["allDrivers"; "driver_" +:+ driverId])) w) in
        let w2 :=
          with_db
            (saveDriverLocationToDB e (Some driverId) driverName latitude
               longitude vehicleType "Live") w1 in
        let sent :=
          broadcastDriverLocationsToAllUsers w2 ++
          [Emit (ToSocket sid)
             (driverRegistrationConfirmed true
                "Driver registered successfully")] in
        if logDriverStatus w2 then (w2, sent)
        else
          (w2,
           sent ++
           [Emit (ToSocket sid)
              (driverRegistrationConfirmed false
                 ("Registration failed: " +:+ toFixedTypeError))])
  | None => (w, [])
  end.

(** ** Ride lifecycle: booking *)

(** What the environment decides during one [bookRide]: the generator's
    environment, [Math.floor(1000 + Math.random() * 9000)], the outcome
    of [Ride.findOne], [newRide.validate()], [newRide.save()] and of the
    [Ride.findOne] of the duplicate-key branch, the [_id] of the new
    document and the clock. *)
Record BookEnv := {
  book_gen : GenEnv;
  book_random : N;
  ride_lookup : DbResult;
  validation : DbResult;
  ride_insert : DbResult;
  new_id : string;
  ride_relookup : DbResult;
  book_now : N
}.

(** The OTP of a booking: the last four characters of the customer id
    when it has at least four, a random four-digit code otherwise. *)
Definition bookingOtp (customerId : option string) (random : N) : string :=
  match customerId with
  | Some c =>
      if Js.truthy_str customerId && (4 <=? String.length c)
      then Js.slice_last 4 c
      else Js.N_toString random
  | None => Js.N_toString random
  end.

(** [!userId || !customerId || !userName || !pickup || !drop] *)
Definition missingRequired (data : Booking.t) : bool :=
  negb (Js.truthy_str (Booking.userId data)) ||
  negb (Js.truthy_str (Booking.customerId data)) ||
  negb (Js.truthy_str (Booking.userName data)) ||
  negb (Js.truthy_obj (Booking.pickup data)) ||
  negb (Js.truthy_obj (Booking.drop data)).

(** [rideData] of a booking that passed the required-field check. *)
Definition rideData (data : Booking.t) (rideId otp _id : string) : Ride.t :=
  {| Ride._id := _id;
     Ride.RAID_ID := rideId;
     Ride.user := default "" (Booking.userId data);
     Ride.customerId := default "" (Booking.customerId data);
     Ride.name := default "" (Booking.userName data);
     Ride.userMobile := None;
     Ride.fare := default 0%Q (Booking.estimatedPrice data);
     Ride.rideType := Booking.vehicleType data;
     Ride.otp := Some otp;
     Ride.distance := Js.or_str (Booking.distance data) "0 km";
     Ride.travelTime := Js.or_str (Booking.travelTime data) "0 mins";
     Ride.isReturnTrip := Booking.wantReturn data;
     Ride.status := pending;
     Ride.pickup :=
       placeDoc (default {| address := None; lat := None; lng := None |}
                   (Booking.pickup data));
     Ride.drop :=
       placeDoc (default {| address := None; lat := None; lng := None |}
                   (Booking.drop data));
     Ride.driverId := None;
     Ride.driverName := None;
     Ride.driverMobile := None |}.

Definition workingCopy (data : Booking.t) (rideId _id : string) (now : N)
  : Working.t :=
  {| Working.data := data; Working.rideId := rideId;
     Working.status := pending; Working.timestamp := now;
     Working._id := _id; Working.rejectedAt := None;
     Working.completedAt := None; Working.distance := None |}.

(** [errors.join(', ')] *)
Fixpoint join (sep : string) (l : list string) : string :=
  match l with
  | [] => ""
  | [x] => x
  | x :: rest => x +:+ sep +:+ join sep rest
  end.

(** The [try] block of [bookRide] (socket.js 393-558) after the
    identifier was generated:
    the world it leaves, what it sent, and the error it threw if any. *)
Definition bookRide_try (data : Booking.t) (callback : bool) (e : BookEnv)
    (rideId : string) (w : World) : World * list Effect * option JsError :=
  let otp := bookingOtp (Booking.customerId data) (book_random e) in
  if decide (rideId ∈ processingRides w) then
    (w, ack callback (AckFail "Ride is already being processed"), None)
  else
    let w := with_processing (fun s => {[rideId]} ∪ s) w in
    if missingRequired data then
      (with_processing (fun s => s ∖ {[rideId]}) w,
       ack callback (AckFail "Missing required fields"), None)
    else
      match ride_lookup e with
      | Rejects err => (w, [], Some err)
      | Resolves =>
          match Ride.findOne rideId (rideColl (db w)) with
          | Some existingRide =>
              (with_processing (fun s => s ∖ {[rideId]}) w,
               ack callback
                 (BookOk rideId (Ride._id existingRide)
                    (Ride.otp existingRide) "Ride already exists"),
               None)
          | None =>
              let newRide := rideData data rideId otp (new_id e) in
              match validation e with
              | Rejects err => (w, [], Some err)
              | Resolves =>
                  match ride_insert e with
                  | Rejects err => (w, [], Some err)
                  | Resolves =>
                      let w := with_db (with_rideColl (Ride.insert newRide)) w in
                      let w :=
                        with_rides
                          (insert rideId
                             (workingCopy data rideId (new_id e) (book_now e)))
                          w in
                      (w,
                       Emit ToAll (newRideRequest data rideId (new_id e)) ::
                       ack callback
                         (BookOk rideId (new_id e) (Some otp)
                            "Ride booked successfully!"),
                       None)
                  end
              end
          end
      end.

(** The [catch] block of [bookRide] (socket.js 559-606). *)
Definition bookRide_catch (callback : bool) (e : BookEnv) (rideId : string)
    (err : JsError) (w : World) : list Effect :=
  match err with
  | ValidationError _ errors =>
      ack callback (AckFail ("Validation failed: " +:+ join ", " errors))
  | DuplicateKey _ true =>
      match ride_relookup e with
      | Rejects _ =>
          ack callback
            (AckFail "Failed to process ride booking (duplicate error)")
      | Resolves =>
          match Ride.findOne rideId (rideColl (db w)) with
          | Some existingRide =>
              ack callback
                (BookOk rideId (Ride._id existingRide)
                   (Ride.otp existingRide)
                   "Ride already exists (duplicate handled)")
          | None => []
          end
      end
  | _ => ack callback (AckFail "Failed to process ride booking")
  end.

(** Handler of [bookRide] (socket.js 391-613): generate the
    identifier, run the [try] block, the [catch] block on an error, and
    the [finally] block that removes the identifier from
    [processingRides]. *)
Definition bookRide (data : Booking.t) (callback : bool) (e : BookEnv)
    (w : World) : World * list Effect :=
  let '(rideId, seq) := generateSequentialRaidId (book_gen e) (raidSeq (db w)) in
  let w := with_db (with_raidSeq seq) w in
  let '(w, sent, thrown) := bookRide_try data callback e rideId w in
  let handled :=
    match thrown with
    | Some err => bookRide_catch callback e rideId err w
    | None => []
    end in
  (with_processing (fun s => s ∖ {[rideId]}) w, sent ++ handled).

(** The identifier a [bookRide] call works with. *)
Definition bookedId (e : BookEnv) (w : World) : string :=
  fst (generateSequentialRaidId (book_gen e) (raidSeq (db w))).

(** *** [bookRide] between its awaits

    Where a [bookRide] handler is suspended: the pending [await]
    ([generateSequentialRaidId()] at socket.js 399, [Ride.findOne] at
    449, [newRide.validate()] at 514, [newRide.save()] at 522, the
    [Ride.findOne] of the duplicate-key branch at 580) and the local
    variables that are live across it. *)
Inductive BookTask :=
| AwaitIdentifier
| AwaitExisting (rideId otp : string)
| AwaitValidation (rideId otp : string)
| AwaitInsert (rideId otp : string)
| AwaitDuplicate (rideId : string) (err : JsError)
| Booked.

(** The [finally] block (socket.js 607-612). *)
Definition bookRide_finally (rideId : string) (w : World) : World :=
  with_processing (fun s => s ∖ {[rideId]}) w.

(** An error thrown in the [try] block enters the [catch] block
    (socket.js 559-606).  On a duplicate-key error on [RAID_ID] the
    block awaits [Ride.findOne] (580) before it answers; on any other
    error it answers at once and the [finally] block runs. *)
Definition bookRide_thrown (callback : bool) (e : BookEnv) (rideId : string)
    (err : JsError) (w : World) : BookTask * World * list Effect :=
  match err with
  | DuplicateKey _ true => (AwaitDuplicate rideId err, w, [])
  | _ =>
      (Booked, bookRide_finally rideId w,
       bookRide_catch callback e rideId err w)
  end.

(** One segment of [bookRide] (socket.js 391-613): the awaited call
    completes against the current world and the handler runs up to its
    next [await] (or to its end, through the [finally] block). *)
Definition bookStep (data : Booking.t) (callback : bool) (e : BookEnv)
    (t : BookTask) (w : World) : BookTask * World * list Effect :=
  match t with
  | AwaitIdentifier =>
      let '(rideId, seq) :=
        generateSequentialRaidId (book_gen e) (raidSeq (db w)) in
      let w := with_db (with_raidSeq seq) w in
      let otp := bookingOtp (Booking.customerId data) (book_random e) in
      if decide (rideId ∈ processingRides w) then
        (Booked, bookRide_finally rideId w,
         ack callback (AckFail "Ride is already being processed"))
      else
        let w := with_processing (fun s => {[rideId]} ∪ s) w in
        if missingRequired data then
          (Booked,
           bookRide_finally rideId
             (with_processing (fun s => s ∖ {[rideId]}) w),
           ack callback (AckFail "Missing required fields"))
        else (AwaitExisting rideId otp, w, [])
  | AwaitExisting rideId otp =>
      match ride_lookup e with
      | Rejects err => bookRide_thrown callback e rideId err w
      | Resolves =>
          match Ride.findOne rideId (rideColl (db w)) with
          | Some existingRide =>
              (Booked,
               bookRide_finally rideId
                 (with_processing (fun s => s ∖ {[rideId]}) w),
               ack callback
                 (BookOk rideId (Ride._id existingRide)
                    (Ride.otp existingRide) "Ride already exists"))
          | None => (AwaitValidation rideId otp, w, [])
          end
      end
  | AwaitValidation rideId otp =>
      match validation e with
      | Rejects err => bookRide_thrown callback e rideId err w
      | Resolves => (AwaitInsert rideId otp, w, [])
      end
  | AwaitInsert rideId otp =>
      match ride_insert e with
      | Rejects err => bookRide_thrown callback e rideId err w
      | Resolves =>
          let newRide := rideData data rideId otp (new_id e) in
          let w := with_db (with_rideColl (Ride.insert newRide)) w in
          let w :=
            with_rides
              (insert rideId
                 (workingCopy data rideId (new_id e) (book_now e))) w in
          (Booked, bookRide_finally rideId w,
           Emit ToAll (newRideRequest data rideId (new_id e)) ::
           ack callback
             (BookOk rideId (new_id e) (Some otp)
                "Ride booked successfully!"))
      end
  | AwaitDuplicate rideId err =>
      (Booked, bookRide_finally rideId w,
       bookRide_catch callback e rideId err w)
  | Booked => (Booked, w, [])
  end.

(** Segments of one [bookRide] handler, run on the world it finds when
    it is resumed; between two calls of [bookRun] other handlers may
    have run. *)
Fixpoint bookRun (n : nat) (data : Booking.t) (callback : bool)
    (e : BookEnv) (t : BookTask) (w : World)
  : BookTask * World * list Effect :=
  match n with
  | O => (t, w, [])
  | S k =>
      let '(t', w', sent) := bookStep data callback e t w in
      let '(t'', w'', sent') := bookRun k data callback e t' w' in
      (t'', w'', sent ++ sent')
  end.

(** ** Ride lifecycle: acceptance *)

(** Payload of [acceptRide]. *)
Module Acceptance.
Record t := {
  rideId : string;
  driverId : string;
  driverName : option string
}.
End Acceptance.

(** What the environment decides during one [acceptRide]: the outcome
    of [Ride.findOne], [Driver.findOne] and [ride.save()],
    [Math.floor(1000 + Math.random() * 9000)] and the clock. *)
Record AcceptEnv := {
  ride_read : DbResult;
  driver_read : DbResult;
  ride_save : DbResult;
  accept_random : N;
  accept_now : N
}.

(** Where an [acceptRide] handler is suspended: the pending [await] and
    the local variables that are live across it. *)
Inductive AcceptTask :=
| AwaitRide
| AwaitDriver (ride : Ride.t)
| AwaitSave (ride : Ride.t) (driver : option Driver.t)
| AwaitSockets (ride : Ride.t) (driverData : DriverData.t)
| Settled.

(** The [catch] block of [acceptRide] (socket.js 800-810). *)
Definition acceptRide_catch (callback : bool) (err : JsError) : list Effect :=
  ack callback (AckFail ("Server error: " +:+ error_message err)).

Definition makeDriverData (data : Acceptance.t) (ride : Ride.t)
    (driver : option Driver.t) (now : N) : DriverData.t :=
  {| DriverData.rideId := Ride.RAID_ID ride;
     DriverData.driverId := Acceptance.driverId data;
     DriverData.driverName := Acceptance.driverName data;
     DriverData.driverMobile := Ride.driverMobile ride;
     DriverData.driverLat :=
       default 0%Q (snd <$> (driver ≫= Driver.coordinates));
     DriverData.driverLng :=
       default 0%Q (fst <$> (driver ≫= Driver.coordinates));
     DriverData.otp := Ride.otp ride;
     DriverData.pickup := Ride.pickup ride;
     DriverData.drop := Ride.drop ride;
     DriverData.status := Ride.status ride;
     DriverData.vehicleType :=
       Js.or_str (driver ≫= Driver.vehicleType) "taxi";
     DriverData.timestamp := now |}.

Definition makeUserData (ride : Ride.t) (now : N) : UserData.t :=
  {| UserData.rideId := Ride.RAID_ID ride;
     UserData.userId := Ride.user ride;
     UserData.customerId := Ride.customerId ride;
     UserData.userName := Ride.name ride;
     UserData.userMobile := Js.or_str (Ride.userMobile ride) "N/A";
     UserData.pickup := Ride.pickup ride;
     UserData.drop := Ride.drop ride;
     UserData.otp := Ride.otp ride;
     UserData.status := Ride.status ride;
     UserData.timestamp := now |}.

(** Steps 4 and 5 of [acceptRide] on the local document: the driver's
    phone (["N/A"] when the driver is unknown) and an OTP when the
    booking left none. *)
Definition withContact (e : AcceptEnv) (driver : option Driver.t)
    (ride : Ride.t) : Ride.t :=
  let ride :=
    Ride.set_driverMobile
      (match driver with
       | Some d => Driver.phone d
       | None => Some "N/A"
       end) ride in
  if Js.truthy_str (Ride.otp ride) then ride
  else Ride.set_otp (Some (Js.N_toString (accept_random e))) ride.

(** The local document of an [acceptRide] when it is saved. *)
Definition acceptedDocument (data : Acceptance.t) (e : AcceptEnv) (w : World)
    (ride : Ride.t) : Ride.t :=
  withContact e
    (Driver.findOne (Acceptance.driverId data) (driverColl (db w)))
    (Ride.accept (Some (Acceptance.driverId data))
       (Acceptance.driverName data) ride).

(** [Array.from(io.sockets.sockets.values()).find(s => s.driverId === driverId)] *)
Definition driverSocket (driverId : string) (l : list Socket.t)
  : option Socket.t :=
  List.find
    (fun s => match Socket.driverId s with
              | Some d => String.eqb d driverId
              | None => false
              end) l.

(** One segment of [acceptRide] (socket.js 629-811) on the connection
    [sid]: the awaited
    call completes against the current world and the handler runs up to
    its next [await] (or to its end). *)
Definition acceptStep (sid : string) (data : Acceptance.t) (callback : bool)
    (e : AcceptEnv) (t : AcceptTask) (w : World)
  : AcceptTask * World * list Effect :=
  let rideId := Acceptance.rideId data in
  let driverId := Acceptance.driverId data in
  match t with
  | AwaitRide =>
      match ride_read e with
      | Rejects err => (Settled, w, acceptRide_catch callback err)
      | Resolves =>
          match Ride.findOne rideId (rideColl (db w)) with
          | None => (Settled, w, ack callback (AckFail "Ride not found"))
          | Some ride =>
              match Ride.status ride with
              | accepted =>
                  (Settled, w,
                   Emit (ToOthers sid)
                     (rideAlreadyAccepted rideId alreadyAcceptedMessage) ::
                   ack callback (AckFail alreadyAcceptedMessage))
              | _ =>
                  (AwaitDriver
                     (Ride.accept (Some driverId)
                        (Acceptance.driverName data) ride),
                   w, [])
              end
          end
      end
  | AwaitDriver ride =>
      match driver_read e with
      | Rejects err => (Settled, w, acceptRide_catch callback err)
      | Resolves =>
          let driver := Driver.findOne driverId (driverColl (db w)) in
          (AwaitSave (withContact e driver ride) driver, w, [])
      end
  | AwaitSave ride driver =>
      match ride_save e with
      | Rejects err => (Settled, w, acceptRide_catch callback err)
      | Resolves =>
          let w := with_db (with_rideColl (Ride.save ride)) w in
          let driverData := makeDriverData data ride driver (accept_now e) in
          (AwaitSockets ride driverData, w,
           ack callback (AcceptOk driverData) ++
           [Emit (ToRoom (Ride.user ride)) (rideAccepted driverData)])
      end
  | AwaitSockets ride driverData =>
      let userRoom := Ride.user ride in
      let userSockets := List.filter (Socket.inRoom userRoom) (sockets w) in
      let direct :=
        map (fun s => Emit (ToSocket (Socket.id s)) (rideAccepted driverData))
          userSockets in
      let global :=
        Emit ToAll (rideAcceptedGlobal driverData userRoom (accept_now e)) in
      let w := add_timer {| delay := 1000; task := ReEmitAccepted userRoom driverData |} w in
      let userData := makeUserData ride (accept_now e) in
      let toDriver :=
        match driverSocket driverId (sockets w) with
        | Some s => Emit (ToSocket (Socket.id s)) (userDataForDriver userData)
        | None =>
            Emit (ToRoom ("driver_" +:+ driverId)) (userDataForDriver userData)
        end in
      let others :=
        Emit (ToOthers sid) (rideAlreadyAccepted rideId alreadyAcceptedMessage) in
      let w :=
        match JsMap.get driverId (activeDriverSockets w) with
        | Some driverInfo =>
            with_presence
              (JsMap.set driverId (Presence.set_status "onRide" driverInfo)) w
        | None => w
        end in
      (Settled, w, direct ++ [global; toDriver; others])
  | Settled => (Settled, w, [])
  end.

(** Segments of one handler run back to back. *)
Fixpoint acceptRun (n : nat) (sid : string) (data : Acceptance.t)
    (callback : bool) (e : AcceptEnv) (t : AcceptTask) (w : World)
  : World * list Effect :=
  match n with
  | O => (w, [])
  | S k =>
      let '(t', w', sent) := acceptStep sid data callback e t w in
      let '(w'', sent') := acceptRun k sid data callback e t' w' in
      (w'', sent ++ sent')
  end.

(** Handler of [acceptRide] when no other handler runs between its
    segments. *)
Definition acceptRide (sid : string) (data : Acceptance.t) (callback : bool)
    (e : AcceptEnv) (w : World) : World * list Effect :=
  acceptRun 4 sid data callback e AwaitRide w.

(** An [acceptRide] event as it arrives at the server. *)
Record AcceptCall := {
  call_socket : string;
  call_data : Acceptance.t;
  call_callback : bool;
  call_env : AcceptEnv
}.

(** Which of two handlers the event loop resumes next. *)
Inductive Turn := First | Second.

(** Two [acceptRide] handlers under a schedule of the event loop: the
    world they leave and what each of them sent. *)
Fixpoint acceptTwo (schedule : list Turn) (c1 c2 : AcceptCall)
    (t1 t2 : AcceptTask) (w : World)
  : World * list Effect * list Effect :=
  match schedule with
  | [] => (w, [], [])
  | First :: rest =>
      let '(t1', w', sent) :=
        acceptStep (call_socket c1) (call_data c1) (call_callback c1)
          (call_env c1) t1 w in
      let '(w'', s1, s2) := acceptTwo rest c1 c2 t1' t2 w' in
      (w'', sent ++ s1, s2)
  | Second :: rest =>
      let '(t2', w', sent) :=
        acceptStep (call_socket c2) (call_data c2) (call_callback c2)
          (call_env c2) t2 w in
      let '(w'', s1, s2) := acceptTwo rest c1 c2 t1 t2' w' in
      (w'', s1, sent ++ s2)
  end.

(** The acknowledgement says the ride was accepted. *)
Definition acceptedAck (sent : list Effect) : bool :=
  existsb
    (fun x => match x with
              | Ack (AcceptOk p) =>
                  match DriverData.status p with accepted => true | _ => false end
              | _ => false
              end) sent.

(** The acknowledgement is the already-accepted failure. *)
Definition alreadyAcceptedAck (sent : list Effect) : bool :=
  existsb
    (fun x => match x with
              | Ack (AckFail m) => String.eqb m alreadyAcceptedMessage
              | _ => false
              end) sent.

(** ** Ride lifecycle: rejection and completion *)

Module Rejection.
Record t := { rideId : string; driverId : string }.
End Rejection.

(** Handler of [rejectRide] (socket.js 853-882) on the connection [sid]. *)
Definition rejectRide (sid : string) (data : Rejection.t) (now : N)
    (w : World) : World * list Effect :=
  let rideId := Rejection.rideId data in
  let driverId := Rejection.driverId data in
  match rides w !! rideId with
  | Some ride =>
      let w := with_rides (insert rideId (Working.reject now ride)) w in
      match JsMap.get driverId (activeDriverSockets w) with
      | Some driverData =>
          (with_presence
             (JsMap.set driverId (Presence.set_status "Live" driverData)) w,
           [Emit (ToSocket sid) (driverStatusUpdate driverId "Live")])
      | None => (w, [])
      end
  | None => (w, [])
  end.

(** Payload of [completeRide]; [distance] is [None] when the payload
    carries no number there. *)
Module Completion.
Record t := { rideId : string; driverId : string; distance : option Q }.
End Completion.

(** The room [io.to(userId)] addresses. *)
Definition roomOf (userId : option string) : string := default "" userId.

(** Handler of [completeRide] (socket.js 885-929) on the connection
    [sid].  The log line
    [distance.toFixed(2)] precedes the lookup of the working copy: on a
    payload without a numeric distance it throws and the [catch] block
    only logs. *)
Definition completeRide (sid : string) (data : Completion.t) (now : N)
    (w : World) : World * list Effect :=
  let rideId := Completion.rideId data in
  let driverId := Completion.driverId data in
  match Completion.distance data with
  | None => (w, [])
  | Some distance =>
      match rides w !! rideId with
      | Some ride =>
          let w := with_rides (insert rideId (Working.complete now distance ride)) w in
          let notice :=
            Emit (ToRoom (roomOf (Working.userId ride)))
              (rideCompleted rideId distance) in
          let '(w, status) :=
            match JsMap.get driverId (activeDriverSockets w) with
            | Some driverData =>
                (with_presence
                   (JsMap.set driverId (Presence.set_status "Live" driverData))
                   w,
                 [Emit (ToSocket sid) (driverStatusUpdate driverId "Live")])
            | None => (w, [])
            end in
          (add_timer {| delay := 5000; task := DeleteRide rideId |} w,
           notice :: status)
      | None => (w, [])
      end
  end.

(** ** Views of the state used in the statements *)

(** [status] of a driver in the presence registry. *)
Definition presenceStatus (driverId : string) (w : World) : option string :=
  Presence.status <$> JsMap.get driverId (activeDriverSockets w).

(** [status] of the in-memory working copy of a ride. *)
Definition workingStatus (rideId : string) (w : World) : option RideStatus :=
  Working.status <$> rides w !! rideId.

(** ** A concrete dispatch scenario

    One rider, two driver connections and one pending ride; driver [D1]
    is in the presence registry, driver [D2] is connected but not
    registered (its registration was refused). *)
Module Scenario.

Definition pickupP : Place :=
  {| address := Some "MG Road"; lat := Some (129 # 10)%Q;
     lng := Some (776 # 10)%Q |}.

Definition dropQ : Place :=
  {| address := Some "Airport"; lat := Some (132 # 10)%Q;
     lng := Some (777 # 10)%Q |}.

Definition booking : Booking.t :=
  {| Booking.userId := Some "U1";
     Booking.customerId := Some "CUST4321";
     Booking.userName := Some "Rider One";
     Booking.userMobile := Some "9000000001";
     Booking.pickup := Some pickupP;
     Booking.drop := Some dropQ;
     Booking.vehicleType := Some "taxi";
     Booking.estimatedPrice := Some (120 # 1)%Q;
     Booking.distance := Some "5 km";
     Booking.travelTime := Some "15 mins";
     Booking.wantReturn := false |}.

(** The same booking without [pickup]. *)
Definition bookingNoPickup : Booking.t :=
  {| Booking.userId := Some "U1";
     Booking.customerId := Some "CUST4321";
     Booking.userName := Some "Rider One";
     Booking.userMobile := Some "9000000001";
     Booking.pickup := None;
     Booking.drop := Some dropQ;
     Booking.vehicleType := Some "taxi";
     Booking.estimatedPrice := Some (120 # 1)%Q;
     Booking.distance := Some "5 km";
     Booking.travelTime := Some "15 mins";
     Booking.wantReturn := false |}.

Definition pendingRide : Ride.t := rideData booking "RID100001" "4321" "ride-1".

Definition driver1 : Driver.t :=
  {| Driver.driverId := "D1"; Driver.phone := Some "9111111111";
     Driver.coordinates := Some ((776 # 10)%Q, (129 # 10)%Q);
     Driver.vehicleType := Some "taxi" |}.

Definition driver2 : Driver.t :=
  {| Driver.driverId := "D2"; Driver.phone := Some "9222222222";
     Driver.coordinates := Some ((775 # 10)%Q, (128 # 10)%Q);
     Driver.vehicleType := Some "taxi" |}.

Definition presence1 : Presence.t :=
  {| Presence.socketId := "sock-d1"; Presence.driverId := "D1";
     Presence.driverName := Some "Driver One";
     Presence.location :=
       {| latitude := Some (129 # 10)%Q; longitude := Some (776 # 10)%Q |};
     Presence.vehicleType := "taxi"; Presence.lastUpdate := 900;
     Presence.status := "Live"; Presence.isOnline := true |}.

Definition connections : list Socket.t :=
  [ {| Socket.id := "sock-d1"; Socket.driverId := Some "D1";
       Socket.driverName := Some "Driver One";
       Socket.rooms := ["allDrivers"; "driver_D1"] |};
    {| Socket.id := "sock-d2"; Socket.driverId := None;
       Socket.driverName := None; Socket.rooms := [] |};
    {| Socket.id := "sock-u1"; Socket.driverId := None;
       Socket.driverName := None; Socket.rooms := ["U1"] |} ].

Definition world : World :=
  {| rides := {[ "RID100001" := workingCopy booking "RID100001" "ride-1" 1000 ]};
     activeDriverSockets := [("D1", presence1)];
     processingRides := ∅;
     sockets := connections;
     db := {| rideColl := [pendingRide];
              driverColl := [driver1; driver2];
              raidSeq := Some 100001%Z;
              locationColl := [] |};
     timers := [] |}.

(** A server that has just started: nothing in memory, an empty
    [Ride] collection, the counter document as [testRaidIdModel]
    creates it. *)
Definition fresh : World :=
  {| rides := ∅; activeDriverSockets := []; processingRides := ∅;
     sockets := connections;
     db := {| rideColl := []; driverColl := [driver1; driver2];
              raidSeq := Some 100000%Z; locationColl := [] |};
     timers := [] |}.

(** MongoDB answers every call. *)
Definition genOk : GenEnv :=
  {| inc_ok := true; reset_ok := true; gen_now := 1793598000123;
     gen_rand := 7 |}.

(** MongoDB rejects the counter update: the generator falls back. *)
Definition genDown : GenEnv :=
  {| inc_ok := false; reset_ok := true; gen_now := 1793598000123;
     gen_rand := 7 |}.

Definition bookEnv (g : GenEnv) (_id : string) : BookEnv :=
  {| book_gen := g; book_random := 5555; ride_lookup := Resolves;
     validation := Resolves; ride_insert := Resolves; new_id := _id;
     ride_relookup := Resolves; book_now := 2000 |}.

Definition acceptEnv : AcceptEnv :=
  {| ride_read := Resolves; driver_read := Resolves; ride_save := Resolves;
     accept_random := 6789; accept_now := 3000 |}.

Definition presenceEnv : PresenceEnv :=
  {| presence_now := 4000; location_saved := true |}.

Definition accept1 : AcceptCall :=
  {| call_socket := "sock-d1";
     call_data := {| Acceptance.rideId := "RID100001";
                     Acceptance.driverId := "D1";
                     Acceptance.driverName := Some "Driver One" |};
     call_callback := true; call_env := acceptEnv |}.

Definition accept2 : AcceptCall :=
  {| call_socket := "sock-d2";
     call_data := {| Acceptance.rideId := "RID100001";
                     Acceptance.driverId := "D2";
                     Acceptance.driverName := Some "Driver Two" |};
     call_callback := true; call_env := acceptEnv |}.

(** The event loop resumes the two handlers alternately. *)
Definition alternating : list Turn :=
  [First; Second; First; Second; First; Second; First; Second].

(** The first handler runs to its end before the second starts. *)
Definition oneAfterTheOther : list Turn :=
  [First; First; First; First; Second; Second; Second; Second].

(** MongoDB answers every call of a booking but [newRide.save()],
    which it rejects with a duplicate-key error on [RAID_ID]. *)
Definition bookEnvDuplicate (g : GenEnv) (_id : string) : BookEnv :=
  {| book_gen := g; book_random := 5555; ride_lookup := Resolves;
     validation := Resolves;
     ride_insert := Rejects (DuplicateKey "E11000 duplicate key error" true);
     new_id := _id; ride_relookup := Resolves; book_now := 2000 |}.

(** A booking on the fresh server that has looked for its identifier,
    found no ride and validated its document: it is suspended at
    [newRide.save()]. *)
Definition lateBooking : BookTask * World * list Effect :=
  bookRun 3 booking true (bookEnvDuplicate genDown "ride-3") AwaitIdentifier
    fresh.

(** Meanwhile a booking under the same identifier is refused as
    already being processed; its [finally] block releases the guard of
    the suspended one. *)
Definition refusedBooking : World * list Effect :=
  bookRide booking true (bookEnv genDown "ride-4") lateBooking.1.2.
End Scenario.

(** ** The remaining handlers and timers *)

(** [testRaidIdModel] (socket.js 55-70), run once at start-up: creates
    the counter document with [sequence = 100000] when there is none.
    What the environment decides is whether [RaidId.findOne] and
    [newDoc.save()] resolve; an error is only logged. *)
Record StartEnv := { counter_read : DbResult; counter_save : DbResult }.

Definition testRaidIdModel (e : StartEnv) (d : Db) : Db :=
  match counter_read e with
  | Rejects _ => d
  | Resolves =>
      match raidSeq d with
      | Some _ => d
      | None =>
          match counter_save e with
          | Resolves => with_raidSeq (Some 100000%Z) d
          | Rejects _ => d
          end
      end
  end.

(** [driverData.location = ...; driverData.lastUpdate = Date.now();
    driverData.isOnline = true], the status being kept. *)
Definition movePresence (l : Location) (now : N) (d : Presence.t)
  : Presence.t :=
  {| Presence.socketId := Presence.socketId d;
     Presence.driverId := Presence.driverId d;
     Presence.driverName := Presence.driverName d;
     Presence.location := l;
     Presence.vehicleType := Presence.vehicleType d;
     Presence.lastUpdate := now;
     Presence.status := Presence.status d;
     Presence.isOnline := true |}.

(** [driverData.lastUpdate = Date.now(); driverData.isOnline = true] *)
Definition touchPresence (now : N) (d : Presence.t) : Presence.t :=
  {| Presence.socketId := Presence.socketId d;
     Presence.driverId := Presence.driverId d;
     Presence.driverName := Presence.driverName d;
     Presence.location := Presence.location d;
     Presence.vehicleType := Presence.vehicleType d;
     Presence.lastUpdate := now;
     Presence.status := Presence.status d;
     Presence.isOnline := true |}.

(** [driverData.isOnline = false; driverData.status = "Offline"] *)
Definition offlinePresence (d : Presence.t) : Presence.t :=
  {| Presence.socketId := Presence.socketId d;
     Presence.driverId := Presence.driverId d;
     Presence.driverName := Presence.driverName d;
     Presence.location := Presence.location d;
     Presence.vehicleType := Presence.vehicleType d;
     Presence.lastUpdate := Presence.lastUpdate d;
     Presence.status := "Offline";
     Presence.isOnline := false |}.

(** Payload of the inbound [driverLiveLocationUpdate] event. *)
Module LiveUpdate.
Record t := {
  driverId : option string;
  driverName : option string;
  lat : option Q;
  lng : option Q
}.
End LiveUpdate.

(** Handler of the inbound [driverLiveLocationUpdate] event
    (socket.js 227-257): everything happens under
    [activeDriverSockets.has(driverId)]. *)
Definition onDriverLiveLocationUpdate (data : LiveUpdate.t) (e : PresenceEnv)
    (w : World) : World * list Effect :=
  let lat := LiveUpdate.lat data in
  let lng := LiveUpdate.lng data in
  match LiveUpdate.driverId data, knownDriver (LiveUpdate.driverId data) w with
  | Some k, Some driverData =>
      let w1 :=
        with_presence
          (JsMap.set k
             (movePresence {| latitude := lat; longitude := lng |}
                (presence_now e) driverData)) w in
      let w2 :=
        with_db
          (saveDriverLocationToDB e (Some k) (LiveUpdate.driverName data)
             lat lng (Presence.vehicleType driverData) "Live") w1 in
      (w2,
       [Emit ToAll
          (driverLiveLocationUpdate
             {| LiveLocation.driverId := Some k;
                LiveLocation.lat := lat;
                LiveLocation.lng := lng;
                LiveLocation.status := Presence.status driverData;
                LiveLocation.vehicleType := Presence.vehicleType driverData;
                LiveLocation.timestamp := presence_now e |})])
  | _, _ => (w, [])
  end.

(** Handler of [driverHeartbeat] (socket.js 932-941). *)
Definition driverHeartbeat (driverId : option string) (now : N) (w : World)
  : World :=
  match driverId, knownDriver driverId w with
  | Some k, Some driverData =>
      with_presence (JsMap.set k (touchPresence now driverData)) w
  | _, _ => w
  end.

(** [socket.join(room)] *)
Definition joinSocket (room : string) (s : Socket.t) : Socket.t :=
  {| Socket.id := Socket.id s; Socket.driverId := Socket.driverId s;
     Socket.driverName := Socket.driverName s;
     Socket.rooms := Socket.rooms s ++ [room] |}.

(** Handler of [registerUser] (socket.js 262-276) on the connection
    [sid]: the connection joins the room named by the user id.  (It
    also sets [socket.userId], which nothing reads.) *)
Definition registerUser (sid : string) (userId : option string) (w : World)
  : World :=
  if Js.truthy_str userId
  then with_sockets (updateSocket sid (joinSocket (default "" userId))) w
  else w.

(** Handler of [joinRoom] (socket.js 616-626) on the connection [sid]. *)
Definition joinRoom (sid : string) (userId : option string) (w : World)
  : World :=
  if Js.truthy_str userId
  then with_sockets (updateSocket sid (joinSocket (default "" userId))) w
  else w.

(** Payload of [userLiveLocationUpdate]. *)
Module RiderPosition.
Record t := {
  userId : option string;
  rideId : string;
  lat : option Q;
  lng : option Q;
  timestamp : N
}.
End RiderPosition.

(** Messages of the two handlers that only answer or relay. *)
Inductive Notice :=
| nearbyDriversResponse (drivers : list Snapshot.t)
| userLiveLocationUpdate (p : RiderPosition.t).

(** Payload of [requestNearbyDrivers]; [radius] defaults to 5000. *)
Module Nearby.
Record t := {
  latitude : option Q;
  longitude : option Q;
  radius : option Q
}.
End Nearby.

(** Handler of [requestNearbyDrivers] (socket.js 349-388) on the
    connection [sid]. *)
Definition requestNearbyDrivers (sid : string) (data : Nearby.t) (w : World)
  : list (Target * Notice) :=
  let drivers :=
    map snapshot
      (List.filter Presence.isOnline (JsMap.values (activeDriverSockets w))) in
  [(ToSocket sid, nearbyDriversResponse drivers)].

(** Payload of [userLocationUpdate]. *)
Module UserLocation.
Record t := {
  userId : option string;
  latitude : option Q;
  longitude : option Q;
  rideId : string
}.
End UserLocation.

(** Handler of [userLocationUpdate] (socket.js 814-850); [read] is the
    outcome of [Ride.findOne]. *)
Definition userLocationUpdate (data : UserLocation.t) (read : DbResult)
    (now : N) (w : World) : list (Target * Notice) :=
  match read with
  | Rejects _ => []
  | Resolves =>
      match Ride.findOne (UserLocation.rideId data) (rideColl (db w)) with
      | None => []
      | Some ride =>
          if negb (Js.truthy_str (Ride.driverId ride)) then []
          else
            let driverId := default "" (Ride.driverId ride) in
            let position :=
              userLiveLocationUpdate
                {| RiderPosition.userId := UserLocation.userId data;
                   RiderPosition.rideId := UserLocation.rideId data;
                   RiderPosition.lat := UserLocation.latitude data;
                   RiderPosition.lng := UserLocation.longitude data;
                   RiderPosition.timestamp := now |} in
            match driverSocket driverId (sockets w) with
            | Some s => [(ToSocket (Socket.id s), position)]
            | None => [(ToRoom ("driver_" +:+ driverId), position)]
            end
      end
  end.

(** Handler of [disconnect] (socket.js 944-971) on the connection
    [sid], which Socket.IO has removed from its connections when the
    handler runs.  The third component tells whether the handler
    returns: its last statement is [logDriverStatus()], outside any
    [try]. *)
Definition disconnect (sid : string) (e : PresenceEnv) (w : World)
  : World * list Effect * bool :=
  match List.find (fun s => String.eqb (Socket.id s) sid) (sockets w) with
  | None => (w, [], true)
  | Some socket =>
      let w :=
        with_sockets
          (List.filter (fun s => negb (String.eqb (Socket.id s) sid))) w in
      if Js.truthy_str (Socket.driverId socket) then
        let driverId := default "" (Socket.driverId socket) in
        let w1 :=
          match JsMap.get driverId (activeDriverSockets w) with
          | Some driverData =>
              with_db
                (saveDriverLocationToDB e (Some driverId)
                   (Socket.driverName socket)
                   (latitude (Presence.location driverData))
                   (longitude (Presence.location driverData))
                   (Presence.vehicleType driverData) "Offline")
                (with_presence
                   (JsMap.set driverId (offlinePresence driverData)) w)
          | None => w
          end in
        (w1, broadcastDriverLocationsToAllUsers w1, logDriverStatus w1)
      else (w, [], true)
  end.

(** [activeDriverSockets.delete(k)] *)
Definition mapDelete {V : Type} (k : string) (m : list (string * V))
  : list (string * V) :=
  List.filter (fun kv => negb (String.eqb kv.1 k)) m.

(** [!driver.isOnline && driver.lastUpdate < now - 300000] *)
Definition staleOffline (now : N) (d : Presence.t) : bool :=
  negb (Presence.isOnline d) &&
  (Z.of_N (Presence.lastUpdate d) <? Z.of_N now - 300000)%Z.

(** The clean-up timer (socket.js 975-993), every 60 seconds: the
    entries are copied with [Array.from] and the stale ones deleted
    from the map one by one.  The third component tells whether the
    callback returns: it calls [logDriverStatus()] outside any [try]
    when it has removed something. *)
Definition cleanupOfflineDrivers (now : N) (w : World)
  : World * list Effect * bool :=
  let entries := activeDriverSockets w in
  let kept :=
    fold_left
      (fun m kv => if staleOffline now kv.2 then mapDelete kv.1 m else m)
      entries entries in
  let cleanedCount :=
    length (List.filter (fun kv => staleOffline now kv.2) entries) in
  let w' := with_presence (fun _ => kept) w in
  if Nat.ltb 0 cleanedCount
  then (w', broadcastDriverLocationsToAllUsers w', logDriverStatus w')
  else (w', [], true).

(** The status timer (socket.js 166-170), every 30 seconds: it only
    logs, through [logDriverStatus] and [logRideStatus], outside any
    [try]; [true] when the callback returns. *)
Definition statusCheck (w : World) : bool := logDriverStatus w.

(** ** Runs of the server *)

(** What can happen to the state: an inbound event handled to its end,
    or a timer firing.  ([requestNearbyDrivers] and
    [userLocationUpdate] change nothing and are left out.) *)
Inductive Input :=
| InRegisterDriver (sid : string) (data : Registration.t) (e : PresenceEnv)
| InLocationUpdate (data : LocationUpdate.t) (e : PresenceEnv)
| InLiveLocationUpdate (data : LiveUpdate.t) (e : PresenceEnv)
| InHeartbeat (driverId : option string) (now : N)
| InRegisterUser (sid : string) (userId : option string)
| InJoinRoom (sid : string) (userId : option string)
| InBookRide (data : Booking.t) (callback : bool) (e : BookEnv)
| InAcceptRide (sid : string) (data : Acceptance.t) (callback : bool)
    (e : AcceptEnv)
| InRejectRide (sid : string) (data : Rejection.t) (now : N)
| InCompleteRide (sid : string) (data : Completion.t) (now : N)
| InDisconnect (sid : string) (e : PresenceEnv)
| InCleanup (now : N)
| InTimer (t : TimerTask).

(** The state after an input, and what was sent. *)
Definition handle (i : Input) (w : World) : World * list Effect :=
  match i with
  | InRegisterDriver sid data e => registerDriver sid data e w
  | InLocationUpdate data e => driverLocationUpdate data e w
  | InLiveLocationUpdate data e => onDriverLiveLocationUpdate data e w
  | InHeartbeat driverId now => (driverHeartbeat driverId now w, [])
  | InRegisterUser sid userId => (registerUser sid userId w, [])
  | InJoinRoom sid userId => (joinRoom sid userId w, [])
  | InBookRide data callback e => bookRide data callback e w
  | InAcceptRide sid data callback e => acceptRide sid data callback e w
  | InRejectRide sid data now => rejectRide sid data now w
  | InCompleteRide sid data now => completeRide sid data now w
  | InDisconnect sid e => (disconnect sid e w).1
  | InCleanup now => (cleanupOfflineDrivers now w).1
  | InTimer t => fireTimer t w
  end.

(** A sequence of inputs, each handled before the next arrives. *)
Fixpoint run (inputs : list Input) (w : World) : World * list Effect :=
  match inputs with
  | [] => (w, [])
  | i :: rest =>
      let '(w1, sent) := handle i w in
      let '(w2, sent') := run rest w1 in
      (w2, sent ++ sent')
  end.

(** The state of a server that has just been started: the module-level
    containers are empty and no timer is pending. *)
Definition started (connections : list Socket.t) (d : Db) : World :=
  {| rides := ∅; activeDriverSockets := []; processingRides := ∅;
     sockets := connections; db := d; timers := [] |}.

(** Every key of the presence map is the [driverId] of its entry, and
    no key occurs twice. *)
Definition registry_wf (m : list (string * Presence.t)) : Prop :=
  NoDup (map fst m) /\ Forall (fun kv => Presence.driverId kv.2 = kv.1) m.

(** The [Ride] collection holds each [RAID_ID] once, and only rides
    that are [pending] or [accepted]. *)
Definition rideColl_wf (coll : list Ride.t) : Prop :=
  NoDup (map Ride.RAID_ID coll) /\
  Forall (fun r => Ride.status r = pending \/ Ride.status r = accepted) coll.

(** ** Views and invariants used by the further properties *)

(** The payload of a location update has both coordinates; the other
    inputs bring no position of their own, or one that the handler
    checks ([registerDriver]). *)
Definition carriesCoordinates (i : Input) : bool :=
  match i with
  | InLocationUpdate data _ =>
      Js.truthy_obj (LocationUpdate.latitude data) &&
      Js.truthy_obj (LocationUpdate.longitude data)
  | InLiveLocationUpdate data _ =>
      Js.truthy_obj (LiveUpdate.lat data) && Js.truthy_obj (LiveUpdate.lng data)
  | _ => true
  end.

(** The entry [registerDriver] stores for a request (socket.js
    303-312). *)
Definition registered (sid : string) (data : Registration.t) (now : N)
  : Presence.t :=
  {| Presence.socketId := sid;
     Presence.driverId := default "" (Registration.driverId data);
     Presence.driverName := Registration.driverName data;
     Presence.location :=
       {| latitude := Registration.latitude data;
          longitude := Registration.longitude data |};
     Presence.vehicleType := default "taxi" (Registration.vehicleType data);
     Presence.lastUpdate := now;
     Presence.status := "Live";
     Presence.isOnline := true |}.

(** Every ride of the working set is filed under its own identifier,
    was booked with a user id, and has a document in the [Ride]
    collection. *)
Definition working_wf (w : World) : Prop :=
  ∀ id r, rides w !! id = Some r →
    Working.rideId r = id ∧
    Js.truthy_str (Working.userId r) = true ∧
    is_Some (Ride.findOne id (rideColl (db w))).

(** Something in [sent] tells a client that a ride was accepted: the
    acknowledgement of success, [rideAccepted] or [rideAcceptedGlobal]. *)
Definition announcesAcceptance (sent : list Effect) : bool :=
  existsb
    (fun x => match x with
              | Ack (AcceptOk _) => true
              | Emit _ (rideAccepted _) => true
              | Emit _ (rideAcceptedGlobal _ _ _) => true
              | _ => false
              end) sent.

(** How many turns a schedule gives to one of the two handlers. *)
Definition turns (who : Turn) (schedule : list Turn) : nat :=
  length
    (List.filter
       (fun t => match who, t with
                 | First, First | Second, Second => true
                 | _, _ => false
                 end) schedule).

(** [acceptRide] has read the ride and found it open, and has not yet
    saved it: the local document is marked accepted. *)
Definition committed (t : AcceptTask) : Prop :=
  match t with
  | AwaitDriver ride | AwaitSave ride _ => Ride.status ride = accepted
  | _ => False
  end.

(** Segments a committed handler still needs to reach its
    acknowledgement. *)
Definition stepsToAck (t : AcceptTask) : nat :=
  match t with
  | AwaitRide => 3
  | AwaitDriver _ => 2
  | AwaitSave _ _ => 1
  | _ => 0
  end.

(** The acknowledgements among what a handler sent. *)
Definition acks (sent : list Effect) : list AckPayload :=
  flat_map (fun x => match x with Ack p => [p] | Emit _ _ => [] end) sent.

(** Both coordinates of a presence entry are there, so that
    [driver.location.latitude.toFixed(6)] and its twin do not throw. *)
Definition hasCoordinates (d : Presence.t) : bool :=
  Js.truthy_obj (latitude (Presence.location d)) &&
  Js.truthy_obj (longitude (Presence.location d)).

(** Two worlds with the same database and the same connections. *)
Definition sameStore (w1 w2 : World) : Prop :=
  db w1 = db w2 /\ sockets w1 = sockets w2.

(** ** Further data of the dispatch scenario *)

Module Shift.
Import Scenario.

(** The registration of driver [D2]. *)
Definition registration2 : Registration.t :=
  {| Registration.driverId := Some "D2";
     Registration.driverName := Some "Driver Two";
     Registration.latitude := Some (128 # 10)%Q;
     Registration.longitude := Some (775 # 10)%Q;
     Registration.vehicleType := None |}.

(** The fresh server while a booking under ["RID100001"] is being
    processed. *)
Definition held : World := with_processing (fun _ => {["RID100001"]}) fresh.
End Shift.

(** * Properties *)

(** ** Strings of digits *)

Module JsFacts.
Import Js.

Lemma all_chars_app p s t :
  all_chars p (s +:+ t) = all_chars p s && all_chars p t.
Proof.
  induction s as [|c s IH]; simpl; [done|].
  by rewrite IH, andb_assoc.
Qed.

Lemma length_app s t :
  String.length (s +:+ t) = (String.length s + String.length t)%nat.
Proof. induction s as [|c s IH]; simpl; [done|]. by rewrite IH. Qed.

Lemma N_of_digit_char d : (d < 10)%N → N_of_ascii (digit_char d) = (48 + d)%N.
Proof.
  intros Hd. unfold digit_char. apply N_ascii_embedding. lia.
Qed.

Lemma is_digit_digit_char d : (d < 10)%N → is_digit (digit_char d) = true.
Proof.
  intros Hd. unfold is_digit. rewrite N_of_digit_char by done.
  apply andb_true_iff. split; apply N.leb_le; lia.
Qed.

Lemma decimal_all_digits fuel n : all_chars is_digit (decimal fuel n) = true.
Proof.
  revert n. induction fuel as [|f IH]; intros n; simpl; [done|].
  destruct (n <? 10)%N eqn:Hn.
  - simpl. apply N.ltb_lt in Hn. by rewrite is_digit_digit_char.
  - rewrite all_chars_app, IH. simpl.
    rewrite is_digit_digit_char; [done|]. apply N.mod_lt. lia.
Qed.

Lemma decimal_length_le fuel n k :
  (n < 10 ^ N.of_nat k)%N → (1 ≤ k)%nat → (String.length (decimal fuel n) ≤ k)%nat.
Proof.
  revert n k. induction fuel as [|f IH]; intros n k Hn Hk; simpl; [lia|].
  destruct (n <? 10)%N eqn:H10; simpl; [lia|].
  apply N.ltb_ge in H10.
  rewrite length_app. simpl.
  destruct k as [|k]; [lia|].
  destruct k as [|k].
  { simpl in Hn. lia. }
  assert (String.length (decimal f (n / 10)) ≤ S k)%nat; [|lia].
  apply IH; [|lia].
  apply N.Div0.div_lt_upper_bound.
  replace (N.of_nat (S (S k))) with (N.succ (N.of_nat (S k))) in Hn by lia.
  rewrite N.pow_succ_r' in Hn. lia.
Qed.

Lemma value_acc_app a s t :
  value_acc a (s +:+ t) = value_acc (value_acc a s) t.
Proof. revert a. induction s as [|c s IH]; intros a; simpl; [done|]. apply IH. Qed.

Lemma value_decimal fuel n :
  (n < 10 ^ N.of_nat fuel)%N → value (decimal fuel n) = n.
Proof.
  unfold value. revert n.
  induction fuel as [|f IH]; intros n Hn.
  - simpl in *. lia.
  - cbn [decimal]. destruct (n <? 10)%N eqn:H10.
    + apply N.ltb_lt in H10. cbn [value_acc].
      rewrite N_of_digit_char by done. lia.
    + apply N.ltb_ge in H10.
      rewrite value_acc_app, IH.
      * cbn [value_acc]. rewrite N_of_digit_char by (apply N.mod_lt; lia).
        pose proof (N.div_mod n 10 ltac:(lia)) as Hdm.
        generalize dependent (n / 10)%N. generalize dependent (n mod 10)%N.
        intros; lia.
      * apply N.Div0.div_lt_upper_bound.
        replace (N.of_nat (S f)) with (N.succ (N.of_nat f)) in Hn by lia.
        rewrite N.pow_succ_r' in Hn. lia.
Qed.

Lemma fuel_enough n : (n < 10 ^ N.of_nat (S (N.to_nat (N.log2 n))))%N.
Proof.
  replace (N.of_nat (S (N.to_nat (N.log2 n)))) with (N.succ (N.log2 n)) by lia.
  destruct (N.eq_dec n 0%N) as [->|Hn]; [done|].
  assert (n < 2 ^ N.succ (N.log2 n))%N by (apply N.log2_spec; lia).
  assert (2 ^ N.succ (N.log2 n) ≤ 10 ^ N.succ (N.log2 n))%N
    by (apply N.pow_le_mono_l; lia).
  lia.
Qed.

Lemma value_N_toString n : value (N_toString n) = n.
Proof. apply value_decimal, fuel_enough. Qed.

Lemma value_acc_zeros k a s :
  value_acc a (repeat_char k "0" +:+ s) = value_acc (10 ^ N.of_nat k * a) s.
Proof.
  revert a. induction k as [|k IH]; intros a.
  - simpl. f_equal. lia.
  - change (repeat_char (S k) "0" +:+ s)
      with (String "0" (repeat_char k "0" +:+ s)).
    cbn [value_acc]. rewrite IH. f_equal.
    replace (N.of_nat (S k)) with (N.succ (N.of_nat k)) by lia.
    rewrite N.pow_succ_r'. change (N_of_ascii "0") with 48%N. lia.
Qed.

Lemma value_padStart k s : value (padStart k "0" s) = value s.
Proof.
  unfold value, padStart. rewrite value_acc_zeros. f_equal. lia.
Qed.

Lemma length_repeat_char k c : String.length (repeat_char k c) = k.
Proof. induction k; simpl; congruence. Qed.

Lemma all_chars_repeat_char p k c :
  p c = true → all_chars p (repeat_char k c) = true.
Proof. intros Hc. induction k; simpl; [done|]. by rewrite Hc. Qed.

Lemma length_padStart k c s :
  (String.length s ≤ k)%nat → String.length (padStart k c s) = k.
Proof.
  intros Hs. unfold padStart. rewrite length_app, length_repeat_char. lia.
Qed.

Lemma all_digits_padStart k s :
  all_chars is_digit s = true → all_chars is_digit (padStart k "0" s) = true.
Proof.
  intros Hs. unfold padStart.
  by rewrite all_chars_app, all_chars_repeat_char, Hs.
Qed.

Lemma length_N_toString_le n k :
  (n < 10 ^ N.of_nat k)%N → (1 ≤ k)%nat → (String.length (N_toString n) ≤ k)%nat.
Proof. apply decimal_length_le. Qed.

Lemma toString_nonneg z : (0 ≤ z)%Z → toString z = N_toString (Z.to_N z).
Proof.
  intros Hz. unfold toString.
  destruct (z <? 0)%Z eqn:E; [apply Z.ltb_lt in E; lia | done].
Qed.

End JsFacts.

Section Identifiers.
Import Js JsFacts.

Lemma formatRaidId_digits z :
  (0 ≤ z ≤ 999999)%Z → rid_digits 6 (formatRaidId z) = true.
Proof.
  intros Hz.
  change (formatRaidId z)
    with (String "R" (String "I" (String "D" (padStart 6 "0" (toString z))))).
  unfold rid_digits. cbv beta iota.
  rewrite toString_nonneg by lia.
  rewrite length_padStart, all_digits_padStart; [done | | ].
  - apply decimal_all_digits.
  - apply length_N_toString_le; [|lia]. change (10 ^ N.of_nat 6)%N with 1000000%N. lia.
Qed.

Lemma formatRaidId_inj z1 z2 :
  (0 ≤ z1)%Z → (0 ≤ z2)%Z → formatRaidId z1 = formatRaidId z2 → z1 = z2.
Proof.
  intros H1 H2 Heq.
  change (formatRaidId z1)
    with (String "R" (String "I" (String "D" (padStart 6 "0" (toString z1))))) in Heq.
  change (formatRaidId z2)
    with (String "R" (String "I" (String "D" (padStart 6 "0" (toString z2))))) in Heq.
  injection Heq as Heq.
  apply (f_equal value) in Heq.
  rewrite !value_padStart, !toString_nonneg, !value_N_toString in Heq by done.
  lia.
Qed.
End Identifiers.

Section Fallback.
Import Js JsFacts.

Lemma length_substring n m s :
  (n + m ≤ String.length s)%nat → String.length (substring n m s) = m.
Proof.
  revert n m. induction s as [|c s IH]; intros n m Hnm.
  - simpl in Hnm. assert (n = 0%nat) as -> by lia.
    assert (m = 0%nat) as -> by lia. done.
  - destruct n as [|n]; cbn [substring].
    + destruct m as [|m]; [done|]. cbn [String.length].
      f_equal. apply IH. simpl in Hnm. lia.
    + apply IH. simpl in Hnm. lia.
Qed.

Lemma all_chars_substring p n m s :
  all_chars p s = true → all_chars p (substring n m s) = true.
Proof.
  revert n m. induction s as [|c s IH]; intros n m Hs.
  - by destruct n, m.
  - cbn [all_chars] in Hs. apply andb_true_iff in Hs as [Hc Hs].
    destruct n as [|n]; cbn [substring].
    + destruct m as [|m]; [done|]. cbn [all_chars].
      by rewrite Hc, IH.
    + by apply IH.
Qed.

Lemma decimal_length_gt fuel n k :
  (10 ^ N.of_nat k ≤ n)%N → (n < 10 ^ N.of_nat fuel)%N →
  (k < String.length (decimal fuel n))%nat.
Proof.
  revert n k. induction fuel as [|f IH]; intros n k Hk Hf.
  - pose proof (N.pow_nonzero 10 (N.of_nat k) ltac:(lia)) as Hpos.
    simpl in Hf. lia.
  - cbn [decimal]. destruct (n <? 10)%N eqn:H10.
    + apply N.ltb_lt in H10. destruct k as [|k]; [simpl; lia|].
      replace (N.of_nat (S k)) with (N.succ (N.of_nat k)) in Hk by lia.
      rewrite N.pow_succ_r' in Hk.
      pose proof (N.pow_nonzero 10 (N.of_nat k) ltac:(lia)) as Hpos. lia.
    + apply N.ltb_ge in H10. rewrite length_app. cbn [String.length].
      destruct k as [|k]; [lia|].
      assert (k < String.length (decimal f (n / 10)))%nat; [|lia].
      replace (N.of_nat (S k)) with (N.succ (N.of_nat k)) in Hk by lia.
      replace (N.of_nat (S f)) with (N.succ (N.of_nat f)) in Hf by lia.
      rewrite N.pow_succ_r' in Hk, Hf.
      apply IH.
      * apply N.div_le_lower_bound; lia.
      * apply N.Div0.div_lt_upper_bound. lia.
Qed.

(** The identifier of the [catch] branch is [RID] followed by nine
    digits: six of the clock and three of the random number. *)
Lemma fallbackId_digits e :
  (100000 ≤ gen_now e)%N → (gen_rand e < 1000)%N →
  rid_digits 9 (fallbackId e) = true.
Proof.
  intros Hnow Hrand.
  change (fallbackId e)
    with (String "R" (String "I" (String "D"
            (slice_last 6 (N_toString (gen_now e)) +:+
             padStart 3 "0" (N_toString (gen_rand e)))))).
  unfold rid_digits. cbv beta iota.
  assert (5 < String.length (N_toString (gen_now e)))%nat as Hlen.
  { apply decimal_length_gt; [exact Hnow | apply fuel_enough]. }
  rewrite length_app, all_chars_app.
  unfold slice_last. rewrite length_substring by lia.
  rewrite all_chars_substring by apply decimal_all_digits.
  rewrite length_padStart, all_digits_padStart; [done | | ].
  - apply decimal_all_digits.
  - by apply length_N_toString_le; [|lia].
Qed.
End Fallback.

Section Generator.
Import Js JsFacts.

Lemma generate_cases e seq :
  generateSequentialRaidId e seq =
    if durable e seq then
      if wraps seq then (formatRaidId 100000, Some 100000%Z)
      else (formatRaidId (default 0%Z seq + 1), Some (default 0%Z seq + 1)%Z)
    else
      (fallbackId e, if inc_ok e then Some (default 0%Z seq + 1)%Z else seq).
Proof.
  unfold generateSequentialRaidId, durable, wraps.
  destruct (inc_ok e); [|done].
  destruct (_ >? _)%Z; [|done]. by destruct (reset_ok e).
Qed.

Lemma gen_run_cons e es seq :
  gen_run (e :: es) seq =
    ((durable e seq, (generateSequentialRaidId e seq).1) ::
       (gen_run es (generateSequentialRaidId e seq).2).1,
     (gen_run es (generateSequentialRaidId e seq).2).2).
Proof.
  cbn [gen_run]. destruct (generateSequentialRaidId e seq) as [id seq'].
  cbn [fst snd]. by destruct (gen_run es seq').
Qed.

(** The counter never becomes negative. *)
Lemma generate_nonneg e seq :
  (0 ≤ default 0 seq)%Z →
  (0 ≤ default 0 (generateSequentialRaidId e seq).2)%Z.
Proof.
  intros Hseq. rewrite generate_cases.
  destruct (durable e seq), (wraps seq), (inc_ok e); cbn; lia.
Qed.

(** An identifier returned from the [try] block has six digits. *)
Lemma gen_run_durable_format es seq :
  (0 ≤ default 0 seq)%Z →
  Forall (λ x : bool * string, x.1 = true → rid_digits 6 x.2 = true)
    (gen_run es seq).1.
Proof.
  revert seq. induction es as [|e es IH]; intros seq Hseq; [constructor|].
  rewrite gen_run_cons. cbn [fst snd]. constructor.
  - cbn [fst snd]. intros Hd. rewrite generate_cases, Hd.
    unfold wraps. destruct (_ >? _)%Z eqn:Hw; cbn [fst].
    + by apply formatRaidId_digits.
    + rewrite Z.gtb_ltb in Hw. apply Z.ltb_ge in Hw.
      apply formatRaidId_digits. lia.
  - apply IH. by apply generate_nonneg.
Qed.

(** An identifier returned from the [catch] block has nine digits. *)
Lemma gen_run_fallback_format es seq :
  Forall gen_env_wf es →
  Forall (λ x : bool * string, x.1 = false → rid_digits 9 x.2 = true)
    (gen_run es seq).1.
Proof.
  intros Hwf. revert seq.
  induction Hwf as [|e es [Hnow Hrand] Hes IH]; intros seq; [constructor|].
  rewrite gen_run_cons. cbn [fst snd]. constructor; [|apply IH].
  cbn [fst snd]. intros Hd. rewrite generate_cases, Hd.
  by apply fallbackId_digits.
Qed.

(** In a run without a wrap the durable identifiers are the formatted
    values of a strictly increasing counter. *)
Lemma gen_run_no_wrap es seq :
  (0 ≤ default 0 seq)%Z → no_wrap es seq = true →
  NoDup (durable_ids (gen_run es seq).1) ∧
  ∀ id, id ∈ durable_ids (gen_run es seq).1 →
        ∃ v, id = formatRaidId v ∧ (default 0 seq < v ≤ 999999)%Z.
Proof.
  revert seq. induction es as [|e es IH]; intros seq Hseq Hnw.
  { split; [constructor | intros id Hid; by apply elem_of_nil in Hid]. }
  cbn [no_wrap] in Hnw. apply andb_true_iff in Hnw as [Hw Hnw].
  apply negb_true_iff in Hw.
  rewrite gen_run_cons. cbn [fst]. unfold durable_ids. cbn [List.filter fst].
  fold (durable_ids (gen_run es (generateSequentialRaidId e seq).2).1).
  rewrite generate_cases in *. rewrite Hw in *.
  unfold wraps in Hw. rewrite Z.gtb_ltb in Hw. apply Z.ltb_ge in Hw.
  destruct (durable e seq); cbn [fst snd map] in *.
  - destruct (IH (Some (default 0 seq + 1)%Z)) as [Hnd Hids]; [cbn; lia | done |].
    split.
    + apply NoDup_cons. split; [|done].
      intros Hin. destruct (Hids _ Hin) as (v & Hv & Hlt). cbn in Hlt.
      apply formatRaidId_inj in Hv; lia.
    + intros id [->|Hin]%elem_of_cons.
      * exists (default 0 seq + 1)%Z. split; [done | lia].
      * destruct (Hids _ Hin) as (v & Hv & Hlt). cbn in Hlt.
        exists v. split; [done | lia].
  - destruct (inc_ok e).
    + destruct (IH (Some (default 0 seq + 1)%Z)) as [Hnd Hids];
        [cbn; lia | done |].
      split; [done|]. intros id Hin.
      destruct (Hids _ Hin) as (v & Hv & Hlt). cbn in Hlt.
      exists v. split; [done | lia].
    + by apply IH.
Qed.

Lemma gen_run_epoch es seq :
  (0 ≤ default 0 seq)%Z → single_epoch es seq = true →
  NoDup (durable_ids (gen_run es seq).1).
Proof.
  intros Hseq Hep. destruct es as [|e es]; [constructor|].
  cbn [single_epoch] in Hep.
  rewrite gen_run_cons. cbn [fst]. unfold durable_ids. cbn [List.filter fst].
  fold (durable_ids (gen_run es (generateSequentialRaidId e seq).2).1).
  pose proof (generate_nonneg e seq Hseq) as Hnext.
  destruct (gen_run_no_wrap es _ Hnext Hep) as [Hnd Hids].
  destruct (durable e seq) eqn:Hd; cbn [map snd]; [|done].
  apply NoDup_cons. split; [|done].
  intros Hin. destruct (Hids _ Hin) as (v & Hv & Hlt).
  rewrite generate_cases, Hd in Hv, Hlt.
  unfold wraps in *. destruct (_ >? _)%Z eqn:Hw; cbn [fst snd] in *;
    cbn in Hlt.
  - apply formatRaidId_inj in Hv; lia.
  - rewrite Z.gtb_ltb in Hw. apply Z.ltb_ge in Hw.
    apply formatRaidId_inj in Hv; lia.
Qed.
End Generator.



(** ** Maps, presence and lifecycle *)

Module JsMapFacts.
Section Facts.
Context {V : Type}.
Implicit Types (m : list (string * V)) (k : string) (v : V).

Lemma get_set_eq k v m : JsMap.get k (JsMap.set k v m) = Some v.
Proof.
  induction m as [|[k' v'] m IH]; cbn [JsMap.set JsMap.get].
  - by rewrite String.eqb_refl.
  - destruct (String.eqb k' k) eqn:E; cbn [JsMap.get]; by rewrite E.
Qed.

Lemma get_set_ne k k' v m :
  k ≠ k' → JsMap.get k' (JsMap.set k v m) = JsMap.get k' m.
Proof.
  intros Hne. induction m as [|[k0 v0] m IH]; cbn [JsMap.set JsMap.get].
  - destruct (String.eqb k k') eqn:E; [|done].
    by apply String.eqb_eq in E.
  - destruct (String.eqb k0 k) eqn:E; cbn [JsMap.get]; [|by rewrite IH].
    apply String.eqb_eq in E. subst k0.
    destruct (String.eqb k k') eqn:E'; [|done].
    by apply String.eqb_eq in E'.
Qed.

(** [set] on a present key neither adds nor moves an entry. *)
Lemma keys_set_present k v m :
  JsMap.has k m = true → map fst (JsMap.set k v m) = map fst m.
Proof.
  unfold JsMap.has.
  induction m as [|[k0 v0] m IH]; cbn [JsMap.set JsMap.get]; [done|].
  destruct (String.eqb k0 k) eqn:E; [done|].
  intros H. cbn [map fst]. by rewrite IH.
Qed.
End Facts.
End JsMapFacts.

Section Presence.
Import JsMapFacts.

Lemma registerDriver_falsy_id sid data e w :
  Js.truthy_str (Registration.driverId data) = false →
  registerDriver sid data e w = (w, []).
Proof.
  unfold registerDriver. destruct (Registration.driverId data); [|done].
  by intros ->.
Qed.

Lemma truthy_num_zero v q :
  v = Some q → (q == 0)%Q → Js.truthy_num v = false.
Proof.
  intros -> Hq. unfold Js.truthy_num. unfold Qeq in Hq. simpl in Hq.
  apply negb_false_iff, Z.eqb_eq. lia.
Qed.

(** C10: a [registerDriver] request whose [driverId] is missing or whose
    latitude or longitude is [0] returns early: the whole state,
    presence registry included, is unchanged and nothing is sent, in
    particular no [driverRegistrationConfirmed]. *)
Theorem registerDriver_rejects_zero sid data e w :
  Js.truthy_str (Registration.driverId data) = false ∨
  (∃ q, Registration.latitude data = Some q ∧ (q == 0)%Q) ∨
  (∃ q, Registration.longitude data = Some q ∧ (q == 0)%Q) →
  registerDriver sid data e w = (w, []).
Proof.
  intros [Hid | [(q & Hq & H0) | (q & Hq & H0)]].
  - by apply registerDriver_falsy_id.
  - unfold registerDriver. destruct (Registration.driverId data); [|done].
    rewrite (truthy_num_zero _ q Hq H0). cbn [negb orb].
    by destruct (negb _).
  - unfold registerDriver. destruct (Registration.driverId data); [|done].
    rewrite (truthy_num_zero (Registration.longitude data) q Hq H0).
    cbn [negb]. rewrite orb_true_r. by destruct (negb _).
Qed.
End Presence.

Ltac simpl_world :=
  cbn [with_db with_presence with_rides with_processing with_sockets
       add_timer rides activeDriverSockets processingRides sockets db timers
       with_rideColl with_raidSeq add_location rideColl driverColl raidSeq
       locationColl fst snd] in *.

Section PresenceUpdates.
Import JsMapFacts.

(** C8 (as amended): [driverLocationUpdate] always broadcasts
    [driverLiveLocationUpdate] to every connection and, when the save
    resolves, appends a location document (named ["Unknown"] for a
    driver that is not registered).  The entry of a known driver is
    updated in place (location, timestamp, status) at its position,
    the other entries are untouched; for an unknown driver the
    registry is unchanged.  The [Ride] collection and the working set
    are never touched. *)
Theorem driverLocationUpdate_effects data e w :
  let driverId := LocationUpdate.driverId data in
  let latitude := LocationUpdate.latitude data in
  let longitude := LocationUpdate.longitude data in
  let status := Js.or_str (LocationUpdate.status data) "Live" in
  let w' := (driverLocationUpdate data e w).1 in
  let name :=
    Js.or_str (knownDriver driverId w ≫= Presence.driverName) "Unknown" in
  (driverLocationUpdate data e w).2 =
    [Emit ToAll
       (driverLiveLocationUpdate
          {| LiveLocation.driverId := driverId;
             LiveLocation.lat := latitude;
             LiveLocation.lng := longitude;
             LiveLocation.status := status;
             LiveLocation.vehicleType := "taxi";
             LiveLocation.timestamp := presence_now e |})] ∧
  locationColl (db w') =
    locationColl (db w) ++
    (if location_saved e then
       [{| DriverLocation.driverId := driverId;
           DriverLocation.driverName := Some name;
           DriverLocation.latitude := latitude;
           DriverLocation.longitude := longitude;
           DriverLocation.vehicleType := "taxi";
           DriverLocation.status := status;
           DriverLocation.timestamp := presence_now e |}]
     else []) ∧
  rideColl (db w') = rideColl (db w) ∧
  rides w' = rides w ∧
  match driverId, knownDriver driverId w with
  | Some k, Some d =>
      JsMap.get k (activeDriverSockets w') =
        Some (Presence.relocate
                {| latitude := latitude; longitude := longitude |}
                (presence_now e) status d) ∧
      map fst (activeDriverSockets w') = map fst (activeDriverSockets w) ∧
      ∀ k', k ≠ k' →
            JsMap.get k' (activeDriverSockets w') =
            JsMap.get k' (activeDriverSockets w)
  | _, _ => activeDriverSockets w' = activeDriverSockets w
  end.
Proof.
  unfold driverLocationUpdate.
  destruct data as [driverId latitude longitude status].
  cbn [LocationUpdate.driverId LocationUpdate.latitude
       LocationUpdate.longitude LocationUpdate.status].
  cbv zeta. cbn [fst snd].
  split; [done|].
  destruct driverId as [k|]; cbn [knownDriver].
  - destruct (JsMap.get k (activeDriverSockets w)) as [d|] eqn:Hget.
    + simpl_world. rewrite get_set_eq.
      unfold saveDriverLocationToDB.
      repeat split.
      * destruct (location_saved e); [done | by rewrite app_nil_r].
      * by destruct (location_saved e).
      * apply keys_set_present. unfold JsMap.has. by rewrite Hget.
      * intros k' Hne. by apply get_set_ne.
    + rewrite Hget. simpl_world. unfold saveDriverLocationToDB.
      repeat split.
      * destruct (location_saved e); [done | by rewrite app_nil_r].
      * by destruct (location_saved e).
  - simpl_world. unfold saveDriverLocationToDB.
    repeat split.
    + destruct (location_saved e); [done | by rewrite app_nil_r].
    + by destruct (location_saved e).
Qed.
End PresenceUpdates.

Section Lifecycle.
Import JsMapFacts.

(** C6 (as amended): [rejectRide] on a ride of the working set marks
    the working copy [rejected] and leaves the database alone; when
    the driver is in the presence registry its status becomes
    ["Live"] and the rejecting connection is sent [driverStatusUpdate];
    otherwise the registry is unchanged and nothing is sent. *)
Theorem rejectRide_effects sid data now w ride :
  rides w !! Rejection.rideId data = Some ride →
  let rideId := Rejection.rideId data in
  let driverId := Rejection.driverId data in
  let w' := (rejectRide sid data now w).1 in
  let sent := (rejectRide sid data now w).2 in
  workingStatus rideId w' = Some rejected ∧
  db w' = db w ∧
  match JsMap.get driverId (activeDriverSockets w) with
  | Some _ =>
      presenceStatus driverId w' = Some "Live" ∧
      sent = [Emit (ToSocket sid) (driverStatusUpdate driverId "Live")]
  | None => activeDriverSockets w' = activeDriverSockets w ∧ sent = []
  end.
Proof.
  intros Hride. cbv zeta. unfold rejectRide. rewrite Hride. simpl_world.
  unfold workingStatus, presenceStatus.
  destruct (JsMap.get _ (activeDriverSockets w)) as [d|]; simpl_world.
  - rewrite lookup_insert_eq, get_set_eq. done.
  - rewrite lookup_insert_eq. done.
Qed.

(** C7 (as amended): [completeRide] with a numeric distance on a ride
    of the working set marks the working copy [completed], sends
    [rideCompleted] with the ride identifier and the distance to the
    room of the rider who booked it, and registers a 5000 ms timer
    whose firing deletes the working copy; when the driver is in the
    presence registry its status becomes ["Live"], otherwise the
    registry is unchanged. *)
Theorem completeRide_effects sid data now w ride distance :
  rides w !! Completion.rideId data = Some ride →
  Completion.distance data = Some distance →
  let rideId := Completion.rideId data in
  let driverId := Completion.driverId data in
  let w' := (completeRide sid data now w).1 in
  let sent := (completeRide sid data now w).2 in
  workingStatus rideId w' = Some completed ∧
  Emit (ToRoom (roomOf (Working.userId ride))) (rideCompleted rideId distance)
    ∈ sent ∧
  timers w' = timers w ++ [{| delay := 5000; task := DeleteRide rideId |}] ∧
  rides (fireTimer (DeleteRide rideId) w').1 !! rideId = None ∧
  db w' = db w ∧
  match JsMap.get driverId (activeDriverSockets w) with
  | Some _ => presenceStatus driverId w' = Some "Live"
  | None => activeDriverSockets w' = activeDriverSockets w
  end.
Proof.
  intros Hride Hdist. cbv zeta. unfold completeRide. rewrite Hdist, Hride.
  simpl_world. unfold workingStatus, presenceStatus, fireTimer.
  destruct (JsMap.get _ (activeDriverSockets w)) as [d|]; simpl_world.
  - rewrite lookup_insert_eq, get_set_eq, lookup_delete_eq.
    repeat split; try done. apply elem_of_cons; by left.
  - rewrite lookup_insert_eq, lookup_delete_eq.
    repeat split; try done. apply elem_of_cons; by left.
Qed.
End Lifecycle.

Section Booking.

Lemma findOne_insert_None rideId r coll :
  Ride.findOne rideId coll = None →
  Ride.findOne rideId (Ride.insert r coll) =
    if String.eqb (Ride.RAID_ID r) rideId then Some r else None.
Proof.
  unfold Ride.insert. induction coll as [|r0 coll IH]; cbn [Ride.findOne app].
  - done.
  - destruct (String.eqb (Ride.RAID_ID r0) rideId); [done | exact IH].
Qed.

(** C5 (as amended): a [bookRide] request with a required field
    missing stores no ride, neither in the database nor in memory, and
    is answered with the fixed message ["Missing required fields"]
    (or ["Ride is already being processed"] when the generated
    identifier is in [processingRides]). *)
Theorem bookRide_missing_fields data callback e w :
  missingRequired data = true →
  let r := bookRide data callback e w in
  rideColl (db r.1) = rideColl (db w) ∧
  rides r.1 = rides w ∧
  r.2 = ack callback
          (AckFail (if decide (bookedId e w ∈ processingRides w)
                    then "Ride is already being processed"
                    else "Missing required fields")).
Proof.
  intros Hmiss. cbv zeta. unfold bookRide, bookedId, bookRide_try.
  destruct (generateSequentialRaidId _ _) as [rideId seq]. simpl_world.
  destruct (decide (rideId ∈ processingRides w)) as [Hin|Hin];
    [|rewrite Hmiss]; simpl_world; by rewrite app_nil_r.
Qed.

(** A booking whose identifier already names a stored ride returns
    that ride's confirmation and stores nothing. *)
Lemma bookRide_existing data callback e w existing :
  missingRequired data = false →
  bookedId e w ∉ processingRides w →
  ride_lookup e = Resolves →
  Ride.findOne (bookedId e w) (rideColl (db w)) = Some existing →
  let r := bookRide data callback e w in
  rideColl (db r.1) = rideColl (db w) ∧
  rides r.1 = rides w ∧
  r.2 = ack callback
          (BookOk (bookedId e w) (Ride._id existing) (Ride.otp existing)
             "Ride already exists").
Proof.
  intros Hreq Hfree Hlook Hfind. cbv zeta.
  unfold bookRide, bookedId, bookRide_try in *.
  destruct (generateSequentialRaidId _ _) as [rideId seq]. simpl_world.
  destruct (decide (rideId ∈ processingRides w)) as [Hin|_]; [done|].
  rewrite Hreq, Hlook. simpl_world. rewrite Hfind. simpl_world.
  by rewrite app_nil_r.
Qed.

(** The only path of [bookRide] that changes the [Ride] collection. *)
Lemma bookRide_created data callback e w :
  rideColl (db (bookRide data callback e w).1) ≠ rideColl (db w) →
  let rideId := bookedId e w in
  let otp := bookingOtp (Booking.customerId data) (book_random e) in
  missingRequired data = false ∧
  Ride.findOne rideId (rideColl (db w)) = None ∧
  rideColl (db (bookRide data callback e w).1) =
    rideColl (db w) ++ [rideData data rideId otp (new_id e)] ∧
  (bookRide data callback e w).2 =
    Emit ToAll (newRideRequest data rideId (new_id e)) ::
    ack callback (BookOk rideId (new_id e) (Some otp) "Ride booked successfully!") ∧
  processingRides (bookRide data callback e w).1 =
    ({[rideId]} ∪ processingRides w) ∖ {[rideId]}.
Proof.
  cbv zeta. unfold bookRide, bookedId, bookRide_try.
  destruct (generateSequentialRaidId _ _) as [rideId seq]. simpl_world.
  destruct (decide (rideId ∈ processingRides w)) as [Hin|_]; simpl_world; [done|].
  destruct (missingRequired data); simpl_world; [done|].
  destruct (ride_lookup e); simpl_world; [|done].
  destruct (Ride.findOne rideId (rideColl (db w))); simpl_world; [done|].
  destruct (validation e); simpl_world; [|done].
  destruct (ride_insert e); simpl_world; [|done].
  intros _. by rewrite app_nil_r.
Qed.

Lemma bookRun_S n data callback e t w :
  bookRun (S n) data callback e t w =
    let '(t', w', sent) := bookStep data callback e t w in
    let '(t'', w'', sent') := bookRun n data callback e t' w' in
    (t'', w'', sent ++ sent').
Proof. reflexivity. Qed.

Lemma bookRun_Booked n data callback e w :
  bookRun n data callback e Booked w = (Booked, w, []).
Proof. induction n as [|n IH]; cbn [bookRun bookStep]; [done|]. by rewrite IH. Qed.

(** [bookRide] is its five segments run back to back. *)
Lemma bookRide_segments data callback e w :
  bookRun 5 data callback e AwaitIdentifier w =
    (Booked, (bookRide data callback e w).1, (bookRide data callback e w).2).
Proof.
  unfold bookRide, bookRide_try. rewrite bookRun_S. cbn [bookStep].
  destruct (generateSequentialRaidId _ _) as [rideId seq].
  destruct (decide _); [rewrite bookRun_Booked; cbn [fst snd app]; by rewrite ?app_nil_r|].
  destruct (missingRequired data); [rewrite bookRun_Booked; cbn [fst snd app]; by rewrite ?app_nil_r|].
  rewrite bookRun_S. cbn [bookStep].
  destruct (ride_lookup e) as [|err].
  2: { destruct err as [m errs|m [|]|m]; cbn [bookRide_thrown];
         rewrite ?bookRun_S; cbn [bookStep]; rewrite !bookRun_Booked;
         cbn [fst snd app]; unfold bookRide_finally; by rewrite ?app_nil_r. }
  destruct (Ride.findOne _ _); [rewrite bookRun_Booked; cbn [fst snd app]; by rewrite ?app_nil_r|].
  rewrite bookRun_S. cbn [bookStep].
  destruct (validation e) as [|err].
  2: { destruct err as [m errs|m [|]|m]; cbn [bookRide_thrown];
         rewrite ?bookRun_S; cbn [bookStep]; rewrite !bookRun_Booked;
         cbn [fst snd app]; unfold bookRide_finally; by rewrite ?app_nil_r. }
  rewrite bookRun_S. cbn [bookStep].
  destruct (ride_insert e) as [|err].
  2: { destruct err as [m errs|m [|]|m]; cbn [bookRide_thrown];
         rewrite ?bookRun_S; cbn [bookStep]; rewrite !bookRun_Booked;
         cbn [fst snd app]; unfold bookRide_finally; by rewrite ?app_nil_r. }
  rewrite bookRun_Booked. cbn [fst snd app]. by rewrite ?app_nil_r.
Qed.

(** A call that generates an identifier the collection already holds
    writes nothing to the collection, whatever its payload and
    whatever MongoDB answers. *)
Lemma bookRide_keeps_stored data callback e w r :
  Ride.findOne (bookedId e w) (rideColl (db w)) = Some r →
  rideColl (db (bookRide data callback e w).1) = rideColl (db w).
Proof.
  unfold bookRide, bookedId, bookRide_try.
  destruct (generateSequentialRaidId _ _) as [rideId seq]. simpl_world.
  intros Hfind.
  destruct (decide _); simpl_world; [done|].
  destruct (missingRequired data); simpl_world; [done|].
  destruct (ride_lookup e); simpl_world; [|done].
  by rewrite Hfind.
Qed.

(** The duplicate-key branch: a handler whose [newRide.save()] is
    rejected with a duplicate-key error on [RAID_ID] while the
    collection holds a ride under its identifier answers with that
    ride and stores nothing. *)
Lemma bookRun_duplicate data callback e rideId otp m w r :
  ride_insert e = Rejects (DuplicateKey m true) →
  ride_relookup e = Resolves →
  Ride.findOne rideId (rideColl (db w)) = Some r →
  bookRun 2 data callback e (AwaitInsert rideId otp) w =
    (Booked, bookRide_finally rideId w,
     ack callback
       (BookOk rideId (Ride._id r) (Ride.otp r)
          "Ride already exists (duplicate handled)")).
Proof.
  intros Hins Hre Hfind. rewrite bookRun_S. cbn [bookStep]. rewrite Hins.
  cbn [bookRide_thrown]. rewrite bookRun_S. cbn [bookStep bookRun].
  unfold bookRide_catch. rewrite Hre, Hfind. cbn [app].
  by rewrite app_nil_r.
Qed.

(** C2: when a [bookRide] call has stored a ride, a later call that
    generates the same identifier never stores a second ride, in any
    later state that still holds a ride under the identifier,
    whatever its payload and whatever MongoDB answers.  With the
    required fields, the identifier not being processed and
    [Ride.findOne] resolving, the call answers success with the
    identifier, [_id] and OTP of the stored ride and leaves the
    working set alone (socket.js 449-463).  A call that was already
    past its lookup when the ride was stored, and whose
    [newRide.save()] MongoDB rejects with a duplicate-key error on
    [RAID_ID], answers success with the same identifier, [_id] and OTP
    from its [catch] block when the [Ride.findOne] there resolves,
    stores nothing and releases the identifier (socket.js 575-598). *)
Theorem bookRide_same_identifier data callback e1 w :
  let first := bookRide data callback e1 w in
  let rideId := bookedId e1 w in
  let otp := bookingOtp (Booking.customerId data) (book_random e1) in
  let stored := rideData data rideId otp (new_id e1) in
  rideColl (db first.1) ≠ rideColl (db w) →
  (rideColl (db first.1) = rideColl (db w) ++ [stored] ∧
   first.2 =
     Emit ToAll (newRideRequest data rideId (new_id e1)) ::
     ack callback (BookOk rideId (new_id e1) (Some otp) "Ride booked successfully!") ∧
   Ride.findOne rideId (rideColl (db first.1)) = Some stored ∧
   missingRequired data = false ∧
   rideId ∉ processingRides first.1) ∧
  ∀ w2 r,
    Ride.findOne rideId (rideColl (db w2)) = Some r →
    (∀ data2 callback2 e2,
       bookedId e2 w2 = rideId →
       rideColl (db (bookRide data2 callback2 e2 w2).1) = rideColl (db w2)) ∧
    (∀ data2 callback2 e2,
       bookedId e2 w2 = rideId →
       missingRequired data2 = false →
       rideId ∉ processingRides w2 →
       ride_lookup e2 = Resolves →
       let second := bookRide data2 callback2 e2 w2 in
       rides second.1 = rides w2 ∧
       second.2 =
         ack callback2
           (BookOk rideId (Ride._id r) (Ride.otp r) "Ride already exists")) ∧
    (∀ data2 callback2 e2 otp2 m,
       ride_insert e2 = Rejects (DuplicateKey m true) →
       ride_relookup e2 = Resolves →
       let '(t, w3, sent) :=
         bookRun 2 data2 callback2 e2 (AwaitInsert rideId otp2) w2 in
       t = Booked ∧
       rideColl (db w3) = rideColl (db w2) ∧
       rides w3 = rides w2 ∧
       processingRides w3 = processingRides w2 ∖ {[rideId]} ∧
       sent =
         ack callback2
           (BookOk rideId (Ride._id r) (Ride.otp r)
              "Ride already exists (duplicate handled)")).
Proof.
  cbv zeta. intros Hcreated.
  destruct (bookRide_created _ _ _ _ Hcreated)
    as (Hreq & Hnone & Hcoll & Hsent & Hproc).
  split.
  - split; [done|]. split; [done|]. split; [|split; [done|]].
    + rewrite Hcoll.
      fold (Ride.insert (rideData data (bookedId e1 w)
                   (bookingOtp (Booking.customerId data) (book_random e1))
                   (new_id e1)) (rideColl (db w))).
      rewrite findOne_insert_None by done.
      cbn [rideData Ride.RAID_ID]. by rewrite String.eqb_refl.
    + rewrite Hproc. intros [_ Hn]%elem_of_difference.
      apply Hn. by apply elem_of_singleton.
  - intros w2 r Hfind. split; [|split].
    + intros data2 callback2 e2 Hsame. rewrite <- Hsame in Hfind.
      by apply (bookRide_keeps_stored _ _ _ _ r).
    + intros data2 callback2 e2 Hsame Hreq2 Hfree Hlook.
      rewrite <- Hsame in Hfind, Hfree.
      destruct (bookRide_existing data2 callback2 e2 w2 r Hreq2 Hfree Hlook Hfind)
        as (_ & Hrides & Hsecond).
      cbv zeta. rewrite <- Hsame. by split.
    + intros data2 callback2 e2 otp2 m Hins Hre.
      rewrite (bookRun_duplicate _ _ _ _ _ m _ r) by done.
      by repeat split.
Qed.
End Booking.

Section Acceptance.
Import JsMapFacts.

Lemma acceptRun_settled n sid data callback e w :
  acceptRun n sid data callback e Settled w = (w, []).
Proof. induction n as [|n IH]; cbn [acceptRun acceptStep]; [done|]. by rewrite IH. Qed.

Lemma acceptRun_S n sid data callback e t w :
  acceptRun (S n) sid data callback e t w =
    let '(t', w', sent) := acceptStep sid data callback e t w in
    let '(w'', sent') := acceptRun n sid data callback e t' w' in
    (w'', sent ++ sent').
Proof. reflexivity. Qed.

(** First half of the acceptance guard: a ride that is already
    accepted is refused, the other connections are told, and nothing
    in the state changes. *)
Lemma acceptRide_already_accepted sid data callback e w ride :
  ride_read e = Resolves →
  Ride.findOne (Acceptance.rideId data) (rideColl (db w)) = Some ride →
  Ride.status ride = accepted →
  acceptRide sid data callback e w =
    (w,
     Emit (ToOthers sid)
       (rideAlreadyAccepted (Acceptance.rideId data) alreadyAcceptedMessage) ::
     ack callback (AckFail alreadyAcceptedMessage)).
Proof.
  intros Hread Hfind Hst. unfold acceptRide.
  rewrite acceptRun_S. cbn [acceptStep]. rewrite Hread, Hfind, Hst.
  rewrite acceptRun_settled. by rewrite app_nil_r.
Qed.

Lemma findOne_save rideId coll ride local :
  Ride.findOne rideId coll = Some ride →
  Ride._id local = Ride._id ride →
  Ride.findOne rideId (Ride.save local coll) = Some (Ride.write local ride).
Proof.
  intros Hfind Hid. unfold Ride.save.
  induction coll as [|r coll IH]; cbn [Ride.findOne map] in *; [done|].
  destruct (String.eqb (Ride.RAID_ID r) rideId) eqn:E.
  - injection Hfind as ->. rewrite Hid, String.eqb_refl.
    cbn [Ride.write Ride.RAID_ID]. by rewrite E.
  - destruct (String.eqb (Ride._id r) (Ride._id local));
      cbn [Ride.write Ride.RAID_ID]; rewrite E; by apply IH.
Qed.

Lemma withContact_id e driver ride :
  Ride._id (withContact e driver ride) = Ride._id ride.
Proof. unfold withContact. by destruct (Js.truthy_str _). Qed.

Lemma withContact_status e driver ride :
  Ride.status (withContact e driver ride) = Ride.status ride.
Proof. unfold withContact. by destruct (Js.truthy_str _). Qed.

Lemma withContact_driverId e driver ride :
  Ride.driverId (withContact e driver ride) = Ride.driverId ride.
Proof. unfold withContact. by destruct (Js.truthy_str _). Qed.

Lemma withContact_user e driver ride :
  Ride.user (withContact e driver ride) = Ride.user ride.
Proof. unfold withContact. by destruct (Js.truthy_str _). Qed.

(** The outcome of an [acceptRide] that finds the ride not yet
    accepted while MongoDB answers: the document is saved as accepted
    and bound to the caller, and the acceptance is sent on every
    channel. *)
Lemma acceptRide_accepts sid data callback e w ride :
  ride_read e = Resolves → driver_read e = Resolves →
  ride_save e = Resolves →
  Ride.findOne (Acceptance.rideId data) (rideColl (db w)) = Some ride →
  Ride.status ride ≠ accepted →
  let rideId := Acceptance.rideId data in
  let driverId := Acceptance.driverId data in
  let driver := Driver.findOne driverId (driverColl (db w)) in
  let saved := acceptedDocument data e w ride in
  let p := makeDriverData data saved driver (accept_now e) in
  let userRoom := Ride.user ride in
  let r := acceptRide sid data callback e w in
  db r.1 = with_rideColl (Ride.save saved) (db w) ∧
  r.2 =
    ack callback (AcceptOk p) ++
    [Emit (ToRoom userRoom) (rideAccepted p)] ++
    map (λ s, Emit (ToSocket (Socket.id s)) (rideAccepted p))
      (List.filter (Socket.inRoom userRoom) (sockets w)) ++
    [Emit ToAll (rideAcceptedGlobal p userRoom (accept_now e));
     match driverSocket driverId (sockets w) with
     | Some s =>
         Emit (ToSocket (Socket.id s))
           (userDataForDriver (makeUserData saved (accept_now e)))
     | None =>
         Emit (ToRoom ("driver_" +:+ driverId))
           (userDataForDriver (makeUserData saved (accept_now e)))
     end;
     Emit (ToOthers sid) (rideAlreadyAccepted rideId alreadyAcceptedMessage)].
Proof.
  intros Hread Hdriver Hsave Hfind Hst. cbv zeta. unfold acceptRide.
  rewrite acceptRun_S. cbn [acceptStep]. rewrite Hread, Hfind.
  assert (∀ A (x y : A),
            match Ride.status ride with accepted => x | _ => y end = y) as Hm.
  { intros A x y. by destruct (Ride.status ride). }
  rewrite Hm. clear Hm.
  rewrite acceptRun_S. cbn [acceptStep]. rewrite Hdriver.
  rewrite acceptRun_S. cbn [acceptStep]. rewrite Hsave.
  rewrite acceptRun_S. cbn [acceptStep]. cbn [acceptRun].
  fold (acceptedDocument data e w ride).
  assert (Ride.user (acceptedDocument data e w ride) = Ride.user ride) as ->.
  { unfold acceptedDocument. by rewrite withContact_user. }
  simpl_world.
  split.
  - destruct (JsMap.get (Acceptance.driverId data) (activeDriverSockets w));
      by simpl_world.
  - destruct (JsMap.get (Acceptance.driverId data) (activeDriverSockets w));
      cbn [fst snd]; rewrite !app_nil_r;
      by rewrite <- !app_assoc.
Qed.
End Acceptance.

Section AcceptanceOrder.

(** Two acceptances of one ride, the second starting after the first
    has finished: the first is acknowledged as accepted, the second is
    refused as already accepted and changes nothing, and the ride
    stays bound to the first driver. *)
Lemma acceptRide_sequential s1 s2 d1 d2 cb1 cb2 e1 e2 w ride :
  Acceptance.rideId d2 = Acceptance.rideId d1 →
  ride_read e1 = Resolves → driver_read e1 = Resolves →
  ride_save e1 = Resolves → ride_read e2 = Resolves →
  Ride.findOne (Acceptance.rideId d1) (rideColl (db w)) = Some ride →
  Ride.status ride ≠ accepted →
  let first := acceptRide s1 d1 cb1 e1 w in
  let second := acceptRide s2 d2 cb2 e2 first.1 in
  (cb1 = true → acceptedAck first.2 = true) ∧
  alreadyAcceptedAck first.2 = false ∧
  second =
    (first.1,
     Emit (ToOthers s2)
       (rideAlreadyAccepted (Acceptance.rideId d1) alreadyAcceptedMessage) ::
     ack cb2 (AckFail alreadyAcceptedMessage)) ∧
  Ride.driverId <$> Ride.findOne (Acceptance.rideId d1) (rideColl (db second.1))
    = Some (Some (Acceptance.driverId d1)).
Proof.
  intros Hid Hr1 Hd1 Hs1 Hr2 Hfind Hst. cbv zeta.
  destruct (acceptRide_accepts s1 d1 cb1 e1 w ride Hr1 Hd1 Hs1 Hfind Hst)
    as [Hdb Hsent].
  assert (Ride.findOne (Acceptance.rideId d1)
            (rideColl (db (acceptRide s1 d1 cb1 e1 w).1)) =
          Some (Ride.write (acceptedDocument d1 e1 w ride) ride)) as Hfind'.
  { rewrite Hdb. cbn [with_rideColl rideColl].
    apply findOne_save; [done|].
    unfold acceptedDocument. by rewrite withContact_id. }
  assert (acceptRide s2 d2 cb2 e2 (acceptRide s1 d1 cb1 e1 w).1 =
          ((acceptRide s1 d1 cb1 e1 w).1,
           Emit (ToOthers s2)
             (rideAlreadyAccepted (Acceptance.rideId d1) alreadyAcceptedMessage) ::
           ack cb2 (AckFail alreadyAcceptedMessage))) as Hsecond.
  { rewrite <- Hid.
    apply (acceptRide_already_accepted s2 d2 cb2 e2 _
             (Ride.write (acceptedDocument d1 e1 w ride) ride)); [done| |].
    - by rewrite Hid.
    - cbn [Ride.write Ride.status]. unfold acceptedDocument.
      by rewrite withContact_status. }
  rewrite Hsecond. cbn [fst]. rewrite Hfind'.
  split; [|split; [|split; [done|]]].
  - intros ->. rewrite Hsent. cbn [ack app acceptedAck existsb].
    cbn [makeDriverData DriverData.status]. unfold acceptedDocument.
    by rewrite withContact_status.
  - rewrite Hsent. unfold alreadyAcceptedAck.
    rewrite !existsb_app. rewrite !orb_false_iff. repeat split.
    + by destruct cb1.
    + clear. induction (List.filter _ _) as [|s l IH]; [reflexivity | exact IH].
    + cbn [existsb]. by destruct (driverSocket _ _).
  - cbn [fmap option_fmap option_map Ride.write Ride.driverId].
    unfold acceptedDocument. by rewrite withContact_driverId.
Qed.

Lemma acceptTwo_second n c1 c2 t1 t2 w :
  acceptTwo (repeat Second n) c1 c2 t1 t2 w =
    let '(w', sent) :=
      acceptRun n (call_socket c2) (call_data c2) (call_callback c2)
        (call_env c2) t2 w in
    (w', [], sent).
Proof.
  revert t2 w. induction n as [|n IH]; intros t2 w; [done|].
  cbn [repeat acceptTwo acceptRun].
  destruct (acceptStep _ _ _ _ t2 w) as [[t2' w'] sent].
  rewrite IH. by destruct (acceptRun n _ _ _ _ t2' w').
Qed.

(** Under the schedule that runs the first handler to its end before
    the second, the two handlers behave as two consecutive calls of
    [acceptRide]. *)
Lemma acceptTwo_sequential n m c1 c2 t1 t2 w :
  acceptTwo (repeat First n ++ repeat Second m) c1 c2 t1 t2 w =
    let '(w1, sent1) :=
      acceptRun n (call_socket c1) (call_data c1) (call_callback c1)
        (call_env c1) t1 w in
    let '(w2, sent2) :=
      acceptRun m (call_socket c2) (call_data c2) (call_callback c2)
        (call_env c2) t2 w1 in
    (w2, sent1, sent2).
Proof.
  revert t1 w. induction n as [|n IH]; intros t1 w.
  - cbn [repeat app acceptRun]. rewrite acceptTwo_second.
    by destruct (acceptRun m _ _ _ _ t2 w).
  - cbn [repeat app acceptTwo acceptRun].
    destruct (acceptStep _ _ _ _ t1 w) as [[t1' w'] sent].
    rewrite IH. destruct (acceptRun n _ _ _ _ t1' w') as [w1 sent1].
    by destruct (acceptRun m _ _ _ _ t2 w1).
Qed.
(** Two acceptances of one ride under the schedule that lets the first
    handler finish before the second starts: exactly one of them is
    acknowledged as accepted and the other as already accepted. *)
Corollary acceptTwo_one_after_the_other c1 c2 w ride :
  Acceptance.rideId (call_data c2) = Acceptance.rideId (call_data c1) →
  ride_read (call_env c1) = Resolves → driver_read (call_env c1) = Resolves →
  ride_save (call_env c1) = Resolves → ride_read (call_env c2) = Resolves →
  call_callback c1 = true → call_callback c2 = true →
  Ride.findOne (Acceptance.rideId (call_data c1)) (rideColl (db w)) = Some ride →
  Ride.status ride ≠ accepted →
  let '(w', sent1, sent2) :=
    acceptTwo (repeat First 4 ++ repeat Second 4) c1 c2 AwaitRide AwaitRide w in
  acceptedAck sent1 = true ∧ alreadyAcceptedAck sent1 = false ∧
  acceptedAck sent2 = false ∧ alreadyAcceptedAck sent2 = true ∧
  Ride.driverId <$>
    Ride.findOne (Acceptance.rideId (call_data c1)) (rideColl (db w')) =
    Some (Some (Acceptance.driverId (call_data c1))).
Proof.
  intros Hid Hr1 Hd1 Hs1 Hr2 Hcb1 Hcb2 Hfind Hst.
  rewrite acceptTwo_sequential.
  destruct (acceptRide_sequential (call_socket c1) (call_socket c2)
              (call_data c1) (call_data c2) (call_callback c1)
              (call_callback c2) (call_env c1) (call_env c2) w ride
              Hid Hr1 Hd1 Hs1 Hr2 Hfind Hst) as (Hacc & Hnot & Hsecond & Hbound).
  unfold acceptRide in *.
  destruct (acceptRun 4 (call_socket c1) _ _ _ AwaitRide w) as [w1 sent1].
  cbn [fst snd] in *.
  destruct (acceptRun 4 (call_socket c2) _ _ _ AwaitRide w1) as [w2 sent2].
  injection Hsecond as -> ->. rewrite Hcb2.
  repeat split; try done.
  by apply Hacc.
Qed.

(** Two acceptances of one ride whose handlers are resumed alternately:
    whenever the ride is found not yet accepted and MongoDB answers,
    both are acknowledged as accepted and neither as already accepted:
    each handler reads the ride before the other has saved it. *)
Lemma acceptTwo_alternating c1 c2 w ride :
  Acceptance.rideId (call_data c2) = Acceptance.rideId (call_data c1) →
  ride_read (call_env c1) = Resolves → driver_read (call_env c1) = Resolves →
  ride_save (call_env c1) = Resolves →
  ride_read (call_env c2) = Resolves → driver_read (call_env c2) = Resolves →
  ride_save (call_env c2) = Resolves →
  call_callback c1 = true → call_callback c2 = true →
  Ride.findOne (Acceptance.rideId (call_data c1)) (rideColl (db w)) = Some ride →
  Ride.status ride ≠ accepted →
  let '(w', sent1, sent2) :=
    acceptTwo [First; Second; First; Second; First; Second; First; Second]
      c1 c2 AwaitRide AwaitRide w in
  acceptedAck sent1 = true ∧ acceptedAck sent2 = true.
Proof.
  intros Hid Hr1 Hd1 Hs1 Hr2 Hd2 Hs2 Hcb1 Hcb2 Hfind Hst.
  assert (∀ A (x y : A),
            match Ride.status ride with accepted => x | _ => y end = y) as Hm.
  { intros A x y. by destruct (Ride.status ride). }
  do 8 (cbn [acceptTwo acceptStep];
        rewrite ?Hr1, ?Hr2, ?Hid, ?Hfind, ?Hm, ?Hd1, ?Hd2, ?Hs1, ?Hs2,
          ?Hcb1, ?Hcb2).
  cbn [acceptTwo acceptStep ack app acceptedAck existsb].
  cbn [makeDriverData DriverData.status].
  by rewrite !withContact_status.
Qed.
End AcceptanceOrder.

(** ** The identifier generator *)

Section GeneratorClaims.
Import Scenario.

(** C3: on a call whose incremented counter exceeds 999999, with MongoDB
    answering both updates, [generateSequentialRaidId] leaves the stored
    counter at 100000 and returns ["RID100000"]. *)
Theorem generator_wraparound e seq :
  inc_ok e = true ∧ reset_ok e = true →
  (default 0 seq + 1 > 999999)%Z →
  generateSequentialRaidId e seq = ("RID100000", Some 100000%Z).
Proof.
  intros [Hinc Hreset] Hgt. rewrite generate_cases.
  assert (wraps seq = true) as Hw.
  { unfold wraps. rewrite Z.gtb_ltb. apply Z.ltb_lt. lia. }
  unfold durable. rewrite Hinc, Hreset, Hw. reflexivity.
Qed.

Lemma generator_wraparound_witness :
  generateSequentialRaidId genOk (Some 999999%Z) = ("RID100000", Some 100000%Z).
Proof.
  apply (generator_wraparound genOk (Some 999999%Z)).
  - split; reflexivity.
  - cbn. lia.
Defined.

(** C4 (as amended): over every sequence of calls, from a non-negative
    counter, an identifier returned on the durable path is ["RID"]
    followed by exactly six digits, and within a single wraparound
    epoch the identifiers returned on the durable path are pairwise
    distinct; an identifier returned on the fallback path is ["RID"]
    followed by nine digits (for a clock of at least six digits and a
    random number below 1000). *)
Theorem generator_identifiers es seq :
  (0 ≤ default 0 seq)%Z →
  Forall (λ x : bool * string, x.1 = true → rid_digits 6 x.2 = true)
    (gen_run es seq).1 ∧
  (single_epoch es seq = true → NoDup (durable_ids (gen_run es seq).1)) ∧
  (Forall gen_env_wf es →
   Forall (λ x : bool * string, x.1 = false → rid_digits 9 x.2 = true)
     (gen_run es seq).1).
Proof.
  intros Hseq. split; [|split].
  - by apply gen_run_durable_format.
  - by apply gen_run_epoch.
  - apply gen_run_fallback_format.
Qed.

Lemma generator_identifiers_witness :
  let run := (gen_run [genOk; genDown; genOk; genOk] (Some 999999%Z)).1 in
  run = [(true, "RID100000"); (false, "RID000123007");
         (true, "RID100001"); (true, "RID100002")] ∧
  Forall (λ x : bool * string, x.1 = true → rid_digits 6 x.2 = true) run ∧
  NoDup (durable_ids run) ∧
  Forall (λ x : bool * string, x.1 = false → rid_digits 9 x.2 = true) run.
Proof.
  destruct (generator_identifiers [genOk; genDown; genOk; genOk]
              (Some 999999%Z)) as (Hdurable & Hdistinct & Hfallback).
  - cbn. lia.
  - split; [reflexivity|]. split; [exact Hdurable|].
    split; [apply Hdistinct; reflexivity|].
    apply Hfallback. repeat constructor; cbn; lia.
Defined.

(** C4 fails as stated on the fallback path: with the counter update
    rejected the identifier has nine digits, not six, and two calls in
    the same millisecond that draw the same random number return the
    same identifier. *)
Lemma generator_fallback_counterexample :
  gen_run [genDown; genDown] (Some 100000%Z) =
    ([(false, "RID000123007"); (false, "RID000123007")], Some 100000%Z) ∧
  rid_digits 6 "RID000123007" = false ∧
  rid_digits 9 "RID000123007" = true.
Proof. repeat split. Qed.
End GeneratorClaims.

(** ** Registration and location updates *)

Section PresenceClaims.
Import Scenario.

Lemma registerDriver_rejects_zero_witness :
  registerDriver "sock-d2"
    {| Registration.driverId := Some "D2";
       Registration.driverName := Some "Driver Two";
       Registration.latitude := Some (0 # 1)%Q;
       Registration.longitude := Some (775 # 10)%Q;
       Registration.vehicleType := None |} presenceEnv world = (world, []).
Proof.
  apply registerDriver_rejects_zero. right. left.
  exists (0 # 1)%Q. split; reflexivity.
Defined.

(** C8 fails as stated for an unknown driver: the registry is left
    alone, but the update is broadcast to every connection and a
    location document named ["Unknown"] is written. *)
Lemma driverLocationUpdate_unknown_counterexample :
  let data :=
    {| LocationUpdate.driverId := Some "D2";
       LocationUpdate.latitude := Some (128 # 10)%Q;
       LocationUpdate.longitude := Some (775 # 10)%Q;
       LocationUpdate.status := None |} in
  let r := driverLocationUpdate data presenceEnv world in
  knownDriver (Some "D2") world = None ∧
  activeDriverSockets r.1 = activeDriverSockets world ∧
  r.2 =
    [Emit ToAll
       (driverLiveLocationUpdate
          {| LiveLocation.driverId := Some "D2";
             LiveLocation.lat := Some (128 # 10)%Q;
             LiveLocation.lng := Some (775 # 10)%Q;
             LiveLocation.status := "Live";
             LiveLocation.vehicleType := "taxi";
             LiveLocation.timestamp := 4000 |})] ∧
  locationColl (db world) = [] ∧
  locationColl (db r.1) =
    [{| DriverLocation.driverId := Some "D2";
        DriverLocation.driverName := Some "Unknown";
        DriverLocation.latitude := Some (128 # 10)%Q;
        DriverLocation.longitude := Some (775 # 10)%Q;
        DriverLocation.vehicleType := "taxi";
        DriverLocation.status := "Live";
        DriverLocation.timestamp := 4000 |}].
Proof. repeat split. Qed.
End PresenceClaims.

(** ** Rejection and completion *)

Section LifecycleClaims.
Import Scenario.

Lemma rejectRide_effects_witness :
  let data := {| Rejection.rideId := "RID100001"; Rejection.driverId := "D1" |} in
  let r := rejectRide "sock-d1" data 5000 world in
  workingStatus "RID100001" r.1 = Some rejected ∧
  db r.1 = db world ∧
  presenceStatus "D1" r.1 = Some "Live" ∧
  r.2 = [Emit (ToSocket "sock-d1") (driverStatusUpdate "D1" "Live")].
Proof.
  cbv zeta.
  pose proof (rejectRide_effects "sock-d1"
                {| Rejection.rideId := "RID100001"; Rejection.driverId := "D1" |}
                5000 world (workingCopy booking "RID100001" "ride-1" 1000)
                eq_refl) as H.
  cbv zeta in H. destruct H as (Hst & Hdb & Hpres).
  split; [exact Hst|]. split; [exact Hdb|]. exact Hpres.
Defined.

(** C6 fails as stated for a driver that is not in the presence
    registry: the working copy is marked rejected, but no presence
    status becomes ["Live"] and the rejecting connection is sent
    nothing. *)
Lemma rejectRide_unregistered_counterexample :
  let data := {| Rejection.rideId := "RID100001"; Rejection.driverId := "D2" |} in
  let r := rejectRide "sock-d2" data 5000 world in
  is_Some (rides world !! "RID100001") ∧
  workingStatus "RID100001" r.1 = Some rejected ∧
  presenceStatus "D2" r.1 = None ∧
  r.2 = [].
Proof. repeat split. by eexists. Qed.

Lemma completeRide_effects_witness :
  let data :=
    {| Completion.rideId := "RID100001"; Completion.driverId := "D1";
       Completion.distance := Some (32 # 10)%Q |} in
  let r := completeRide "sock-d1" data 6000 world in
  workingStatus "RID100001" r.1 = Some completed ∧
  Emit (ToRoom "U1") (rideCompleted "RID100001" (32 # 10)%Q) ∈ r.2 ∧
  timers r.1 = [{| delay := 5000; task := DeleteRide "RID100001" |}] ∧
  rides (fireTimer (DeleteRide "RID100001") r.1).1 !! "RID100001" = None ∧
  db r.1 = db world ∧
  presenceStatus "D1" r.1 = Some "Live".
Proof.
  cbv zeta.
  exact (completeRide_effects "sock-d1"
           {| Completion.rideId := "RID100001"; Completion.driverId := "D1";
              Completion.distance := Some (32 # 10)%Q |}
           6000 world (workingCopy booking "RID100001" "ride-1" 1000)
           (32 # 10)%Q eq_refl eq_refl).
Defined.

(** C7 fails as stated for a driver that is not in the presence
    registry: the ride is completed and the rider notified, but no
    presence status becomes ["Live"]. *)
Lemma completeRide_unregistered_counterexample :
  let data :=
    {| Completion.rideId := "RID100001"; Completion.driverId := "D2";
       Completion.distance := Some (32 # 10)%Q |} in
  let r := completeRide "sock-d2" data 6000 world in
  is_Some (rides world !! "RID100001") ∧
  workingStatus "RID100001" r.1 = Some completed ∧
  presenceStatus "D2" r.1 = None ∧
  activeDriverSockets r.1 = activeDriverSockets world.
Proof. repeat split. by eexists. Qed.
End LifecycleClaims.

(** ** Booking *)

Section BookingClaims.
Import Scenario.

Lemma bookRide_missing_fields_witness :
  let r := bookRide bookingNoPickup true (bookEnv genOk "ride-2") fresh in
  rideColl (db r.1) = [] ∧
  rides r.1 = ∅ ∧
  r.2 = [Ack (AckFail "Missing required fields")].
Proof.
  cbv zeta.
  exact (bookRide_missing_fields bookingNoPickup true (bookEnv genOk "ride-2")
           fresh eq_refl).
Defined.

(** C5 fails as stated: a booking without [pickup] is refused with the
    fixed message ["Missing required fields"], which does not name the
    missing field. *)
Lemma bookRide_missing_pickup_counterexample :
  let r := bookRide bookingNoPickup true (bookEnv genOk "ride-2") fresh in
  missingRequired bookingNoPickup = true ∧
  r.2 = [Ack (AckFail "Missing required fields")] ∧
  Js.includes "Missing required fields" "pickup" = false.
Proof. repeat split. Qed.

Lemma bookRide_same_identifier_witness :
  (let first := bookRide booking true (bookEnv genDown "ride-2") fresh in
   let second := bookRide booking true (bookEnv genDown "ride-3") first.1 in
   first.2 =
     [Emit ToAll (newRideRequest booking "RID000123007" "ride-2");
      Ack (BookOk "RID000123007" "ride-2" (Some "4321") "Ride booked successfully!")] ∧
   rideColl (db second.1) = rideColl (db first.1) ∧
   second.2 =
     [Ack (BookOk "RID000123007" "ride-2" (Some "4321") "Ride already exists")]) ∧
  (let first := bookRide booking true (bookEnv genDown "ride-2") refusedBooking.1 in
   let resumed :=
     bookRun 2 booking true (bookEnvDuplicate genDown "ride-3")
       (AwaitInsert "RID000123007" "4321") first.1 in
   lateBooking.1.1 = AwaitInsert "RID000123007" "4321" ∧
   refusedBooking.2 = [Ack (AckFail "Ride is already being processed")] ∧
   first.2 =
     [Emit ToAll (newRideRequest booking "RID000123007" "ride-2");
      Ack (BookOk "RID000123007" "ride-2" (Some "4321") "Ride booked successfully!")] ∧
   resumed.2 =
     [Ack (BookOk "RID000123007" "ride-2" (Some "4321")
             "Ride already exists (duplicate handled)")] ∧
   rideColl (db resumed.1.2) = rideColl (db first.1) ∧
   length (rideColl (db resumed.1.2)) = 1%nat).
Proof.
  cbv zeta. split.
  - destruct (bookRide_same_identifier booking true (bookEnv genDown "ride-2")
                fresh) as ((_ & Hfirst & Hfind & Hreq & Hfree) & Hlater).
    { vm_compute. discriminate. }
    destruct (Hlater _ _ Hfind) as (Hkeeps & Hlookup & _).
    split; [exact Hfirst|]. split.
    + apply (Hkeeps booking true (bookEnv genDown "ride-3")). reflexivity.
    + apply (Hlookup booking true (bookEnv genDown "ride-3"));
        [reflexivity | exact Hreq | exact Hfree | reflexivity].
  - destruct (bookRide_same_identifier booking true (bookEnv genDown "ride-2")
                refusedBooking.1) as ((Hcoll & Hfirst & Hfind & _) & Hlater).
    { vm_compute. discriminate. }
    destruct (Hlater _ _ Hfind) as (_ & _ & Hduplicate).
    specialize (Hduplicate booking true (bookEnvDuplicate genDown "ride-3")
                  "4321" "E11000 duplicate key error" eq_refl eq_refl).
    change (bookedId (bookEnv genDown "ride-2") refusedBooking.1)
      with "RID000123007" in Hduplicate.
    destruct (bookRun 2 booking true (bookEnvDuplicate genDown "ride-3")
                (AwaitInsert "RID000123007" "4321")
                (bookRide booking true (bookEnv genDown "ride-2")
                   refusedBooking.1).1) as [[t w3] sent].
    destruct Hduplicate as (_ & Hsame & _ & _ & Hsent). cbn [fst snd].
    split; [reflexivity|]. split; [reflexivity|]. split; [exact Hfirst|].
    split; [exact Hsent|]. split; [exact Hsame|].
    rewrite Hsame, Hcoll. reflexivity.
Defined.
End BookingClaims.

(** ** Acceptance *)

Section AcceptanceClaims.
Import Scenario.

(** C9: an [acceptRide] that finds the ride not yet accepted, with
    MongoDB answering, emits the acceptance payload (OTP, driver's
    mobile number, pickup and drop) to every connection as
    [rideAcceptedGlobal], besides the rider's room and the callback of
    the accepting driver. *)
Theorem acceptRide_global_emit sid data callback e w ride :
  ride_read e = Resolves → driver_read e = Resolves →
  ride_save e = Resolves →
  Ride.findOne (Acceptance.rideId data) (rideColl (db w)) = Some ride →
  Ride.status ride ≠ accepted →
  let driver := Driver.findOne (Acceptance.driverId data) (driverColl (db w)) in
  let p :=
    makeDriverData data (acceptedDocument data e w ride) driver (accept_now e) in
  let sent := (acceptRide sid data callback e w).2 in
  Emit ToAll (rideAcceptedGlobal p (Ride.user ride) (accept_now e)) ∈ sent ∧
  Emit (ToRoom (Ride.user ride)) (rideAccepted p) ∈ sent ∧
  (callback = true → Ack (AcceptOk p) ∈ sent) ∧
  DriverData.otp p =
    (if Js.truthy_str (Ride.otp ride) then Ride.otp ride
     else Some (Js.N_toString (accept_random e))) ∧
  DriverData.driverMobile p =
    match driver with Some d => Driver.phone d | None => Some "N/A" end ∧
  DriverData.pickup p = Ride.pickup ride ∧
  DriverData.drop p = Ride.drop ride.
Proof.
  intros Hread Hdriver Hsave Hfind Hst. cbv zeta.
  destruct (acceptRide_accepts sid data callback e w ride Hread Hdriver Hsave
              Hfind Hst) as [_ Hsent].
  rewrite Hsent. repeat split.
  - rewrite !elem_of_app. right. right. right. apply elem_of_cons. by left.
  - rewrite !elem_of_app. right. left. apply elem_of_cons. by left.
  - intros ->. rewrite !elem_of_app. left. apply elem_of_cons. by left.
  - unfold acceptedDocument, withContact. cbn [makeDriverData DriverData.otp].
    cbn [Ride.set_driverMobile Ride.accept Ride.otp].
    by destruct (Js.truthy_str (Ride.otp ride)).
  - unfold acceptedDocument, withContact.
    cbn [makeDriverData DriverData.driverMobile].
    cbn [Ride.set_driverMobile Ride.accept Ride.otp].
    by destruct (Js.truthy_str (Ride.otp ride)).
  - unfold acceptedDocument, withContact.
    cbn [makeDriverData DriverData.pickup].
    cbn [Ride.set_driverMobile Ride.accept Ride.otp].
    by destruct (Js.truthy_str (Ride.otp ride)).
  - unfold acceptedDocument, withContact.
    cbn [makeDriverData DriverData.drop].
    cbn [Ride.set_driverMobile Ride.accept Ride.otp].
    by destruct (Js.truthy_str (Ride.otp ride)).
Qed.

Lemma acceptRide_global_emit_witness :
  let p :=
    {| DriverData.rideId := "RID100001"; DriverData.driverId := "D1";
       DriverData.driverName := Some "Driver One";
       DriverData.driverMobile := Some "9111111111";
       DriverData.driverLat := (129 # 10)%Q;
       DriverData.driverLng := (776 # 10)%Q;
       DriverData.otp := Some "4321";
       DriverData.pickup := Ride.pickup pendingRide;
       DriverData.drop := Ride.drop pendingRide;
       DriverData.status := accepted; DriverData.vehicleType := "taxi";
       DriverData.timestamp := 3000 |} in
  Emit ToAll (rideAcceptedGlobal p "U1" 3000)
    ∈ (acceptRide "sock-d1" (call_data accept1) true acceptEnv world).2.
Proof.
  cbv zeta.
  exact (proj1 (acceptRide_global_emit "sock-d1" (call_data accept1) true
                  acceptEnv world pendingRide eq_refl eq_refl eq_refl eq_refl
                  ltac:(discriminate))).
Defined.

(** C1, at the interleaving the acceptance guard does not cover: two
    drivers accept the same pending ride and the event loop resumes the
    two handlers alternately.  Both read the ride before either saves
    it, both are acknowledged with status [accepted], neither is told
    that the ride was already accepted, and the stored ride ends up
    bound to the second driver. *)
Theorem acceptRide_interleaved_double_accept :
  let '(w, sent1, sent2) :=
    acceptTwo alternating accept1 accept2 AwaitRide AwaitRide world in
  Ride.status <$> Ride.findOne "RID100001" (rideColl (db world)) = Some pending ∧
  acceptedAck sent1 = true ∧ acceptedAck sent2 = true ∧
  alreadyAcceptedAck sent1 = false ∧ alreadyAcceptedAck sent2 = false ∧
  Ride.driverId <$> Ride.findOne "RID100001" (rideColl (db w)) = Some (Some "D2").
Proof. vm_compute. repeat split. Qed.

(** The same two calls when the first handler finishes before the
    second starts: exactly one is acknowledged as accepted, the other is
    refused as already accepted, and the ride stays bound to the first
    driver. *)
Example acceptRide_one_after_the_other :
  let '(w, sent1, sent2) :=
    acceptTwo oneAfterTheOther accept1 accept2 AwaitRide AwaitRide world in
  acceptedAck sent1 = true ∧ acceptedAck sent2 = false ∧
  alreadyAcceptedAck sent1 = false ∧ alreadyAcceptedAck sent2 = true ∧
  Ride.driverId <$> Ride.findOne "RID100001" (rideColl (db w)) = Some (Some "D1").
Proof. vm_compute. repeat split. Qed.
End AcceptanceClaims.

(** * Further properties of the handlers

    Properties of the code that its specification does not state: the
    handlers and timers around the ride lifecycle, invariants of the
    state over runs of the server, and how the handlers compose. *)

(** ** Start-up and the one-time password *)

Section StartUp.
Import Js JsFacts.

Lemma length_N_toString_eq n k :
  (10 ^ N.of_nat k ≤ n)%N → (n < 10 ^ N.of_nat (S k))%N →
  String.length (N_toString n) = S k.
Proof.
  intros Hlo Hhi.
  assert (k < String.length (N_toString n))%nat
    by (apply decimal_length_gt; [done | apply fuel_enough]).
  assert (String.length (N_toString n) ≤ S k)%nat
    by (apply length_N_toString_le; [done | lia]).
  lia.
Qed.

(** From 100000 on the six digits are those of the counter itself: no
    padding is involved. *)
Lemma formatRaidId_unpadded v :
  (100000 ≤ v ≤ 999999)%Z → formatRaidId v = "RID" +:+ toString v.
Proof.
  intros Hv. unfold formatRaidId, padStart. rewrite toString_nonneg by lia.
  rewrite (length_N_toString_eq _ 5).
  - reflexivity.
  - change (10 ^ N.of_nat 5)%N with 100000%N. lia.
  - change (10 ^ N.of_nat 6)%N with 1000000%N. lia.
Qed.

Lemma gen_run_consecutive es c :
  Forall (λ e, inc_ok e = true) es →
  (c + Z.of_nat (length es) ≤ 999999)%Z →
  gen_run es (Some c) =
    (map (λ i, (true, formatRaidId (c + Z.of_nat i))) (seq 1 (length es)),
     Some (c + Z.of_nat (length es))%Z).
Proof.
  intros Hok. revert c. induction Hok as [|e es He Hes IH]; intros c Hc.
  - cbn [length gen_run seq map Z.of_nat]. by rewrite Z.add_0_r.
  - cbn [length] in Hc. rewrite Nat2Z.inj_succ in Hc.
    rewrite gen_run_cons, generate_cases.
    assert (wraps (Some c) = false) as Hw.
    { unfold wraps. rewrite Z.gtb_ltb. apply Z.ltb_ge. cbn. lia. }
    unfold durable. rewrite He, Hw. cbn [negb orb andb fst snd].
    change (default 0%Z (Some c)) with c.
    rewrite IH by lia. cbn [fst snd length seq map]. f_equal.
    + f_equal. rewrite <- (seq_shift (length es) 1), map_map.
      apply map_ext. intros i. do 2 f_equal. lia.
    + f_equal. lia.
Qed.
End StartUp.

Section StartUpRuns.
Import Js JsFacts.

(** X1: once [testRaidIdModel] has created the counter document of a
    database that had none, the calls of [generateSequentialRaidId]
    that follow return ["RID100001"], ["RID100002"], ... in order and
    leave the counter at the last number, as long as MongoDB answers
    the counter updates and there are at most 899999 of them. *)
Theorem startup_identifiers e d es :
  counter_read e = Resolves → counter_save e = Resolves → raidSeq d = None →
  Forall (λ g, inc_ok g = true) es → (Z.of_nat (length es) ≤ 899999)%Z →
  gen_run es (raidSeq (testRaidIdModel e d)) =
    (map (λ i, (true, "RID" +:+ toString (100000 + Z.of_nat i)))
       (seq 1 (length es)),
     Some (100000 + Z.of_nat (length es))%Z).
Proof.
  intros Hread Hsave Hnone Hok Hlen. unfold testRaidIdModel.
  rewrite Hread, Hnone, Hsave. cbn [with_raidSeq raidSeq].
  rewrite gen_run_consecutive by (done || lia). f_equal.
  apply map_ext_in. intros i Hi%in_seq. f_equal.
  apply formatRaidId_unpadded. lia.
Qed.

Lemma length_slice_last k s :
  (k ≤ String.length s)%nat → String.length (slice_last k s) = k.
Proof. intros Hk. unfold slice_last. apply length_substring. lia. Qed.

Lemma substring_all s : substring 0 (String.length s) s = s.
Proof. induction s as [|c s IH]; [done|]. cbn. by rewrite IH. Qed.

Lemma substring_suffix n s :
  (n ≤ String.length s)%nat →
  s = substring 0 n s +:+ substring n (String.length s - n) s.
Proof.
  revert n. induction s as [|c s IH]; intros n Hn.
  - by destruct n.
  - destruct n as [|n].
    + rewrite Nat.sub_0_r, substring_all. reflexivity.
    + change (String c s =
              String c (substring 0 n s +:+
                        substring n (String.length s - n) s)).
      f_equal. apply IH. simpl in Hn. lia.
Qed.

(** X2: with the random number between 1000 and 9999 that
    [Math.floor(1000 + Math.random() * 9000)] yields, the OTP of a
    booking has four characters: the last four of the customer id when
    it has at least four, four decimal digits otherwise. *)
Theorem bookingOtp_shape customerId random :
  (1000 ≤ random ≤ 9999)%N →
  String.length (bookingOtp customerId random) = 4%nat ∧
  match customerId with
  | Some c =>
      if Nat.leb 4 (String.length c)
      then ∃ front, c = front +:+ bookingOtp customerId random
      else all_chars is_digit (bookingOtp customerId random) = true
  | None => all_chars is_digit (bookingOtp customerId random) = true
  end.
Proof.
  intros Hr.
  assert (String.length (N_toString random) = 4%nat) as Hlen.
  { apply (length_N_toString_eq _ 3).
    - change (10 ^ N.of_nat 3)%N with 1000%N. lia.
    - change (10 ^ N.of_nat 4)%N with 10000%N. lia. }
  unfold bookingOtp. destruct customerId as [c|]; [|split; [done | apply decimal_all_digits]].
  destruct (Nat.leb 4 (String.length c)) eqn:Hc.
  - assert (Js.truthy_str (Some c) = true) as ->.
    { destruct c; [done|]. reflexivity. }
    cbn [andb]. apply Nat.leb_le in Hc. split.
    + by apply length_slice_last.
    + exists (substring 0 (String.length c - 4) c). unfold slice_last.
      rewrite (substring_suffix (String.length c - 4) c) at 1 by lia.
      do 2 f_equal. lia.
  - rewrite andb_false_r. split; [done | apply decimal_all_digits].
Qed.
End StartUpRuns.

(** ** The presence registry over time *)

Section RegistryFacts.
Import JsMapFacts.
Context {V : Type}.
Implicit Types (m : list (string * V)) (k : string) (v : V).

Lemma elem_of_map {A B} (f : A → B) (l : list A) (y : B) :
  y ∈ map f l ↔ ∃ x, y = f x ∧ x ∈ l.
Proof.
  rewrite list_elem_of_In, in_map_iff. split.
  - intros (x & <- & Hx). exists x. by rewrite list_elem_of_In.
  - intros (x & -> & Hx). exists x. by rewrite <- list_elem_of_In.
Qed.

Lemma get_None_keys k m : JsMap.get k m = None ↔ k ∉ map fst m.
Proof.
  induction m as [|[k' v'] m IH]; cbn [JsMap.get map fst].
  - split; [intros _; apply not_elem_of_nil | done].
  - destruct (String.eqb k' k) eqn:E.
    + apply String.eqb_eq in E. subst. split; [done|].
      intros H. exfalso. apply H. by left.
    + apply String.eqb_neq in E. rewrite IH, not_elem_of_cons.
      split; [intros H; split; [congruence | done] | by intros [_ H]].
Qed.

Lemma get_Some_elem k v m : JsMap.get k m = Some v → (k, v) ∈ m.
Proof.
  induction m as [|[k' v'] m IH]; cbn [JsMap.get]; [done|].
  destruct (String.eqb k' k) eqn:E.
  - apply String.eqb_eq in E. intros [= ->]. subst. by left.
  - intros H. right. by apply IH.
Qed.

Lemma elem_get k v m : NoDup (map fst m) → (k, v) ∈ m → JsMap.get k m = Some v.
Proof.
  induction m as [|[k' v'] m IH]; cbn [JsMap.get map fst].
  - intros _ H. by apply elem_of_nil in H.
  - intros [Hk Hnd]%NoDup_cons [[= -> ->]|Hin]%elem_of_cons.
    + by rewrite String.eqb_refl.
    + destruct (String.eqb k' k) eqn:E; [|by apply IH].
      apply String.eqb_eq in E. subst. exfalso. apply Hk.
      apply elem_of_map. by exists (k, v).
Qed.

Lemma keys_set k v m :
  map fst (JsMap.set k v m) =
    if JsMap.has k m then map fst m else map fst m ++ [k].
Proof.
  unfold JsMap.has.
  induction m as [|[k' v'] m IH]; cbn [JsMap.set JsMap.get map fst app]; [done|].
  destruct (String.eqb k' k) eqn:E; [done|].
  cbn [map fst]. rewrite IH. by destruct (JsMap.get k m).
Qed.

Lemma NoDup_keys_set k v m :
  NoDup (map fst m) → NoDup (map fst (JsMap.set k v m)).
Proof.
  intros Hnd. rewrite keys_set. unfold JsMap.has.
  destruct (JsMap.get k m) eqn:E; [done|].
  apply NoDup_app. split; [done|]. split; [|apply NoDup_singleton].
  intros x Hx ->%list_elem_of_singleton. by apply get_None_keys in E.
Qed.

Lemma Forall_set (P : string * V → Prop) k v m :
  Forall P m → P (k, v) → (∀ k' v', String.eqb k' k = true → P (k', v)) →
  Forall P (JsMap.set k v m).
Proof.
  intros Hm Hkv Hk. induction Hm as [|[k' v'] m Hx Hm IH]; cbn [JsMap.set].
  - by constructor.
  - destruct (String.eqb k' k) eqn:E; constructor; auto.
Qed.

Lemma get_filter (p : V → bool) k m :
  NoDup (map fst m) →
  JsMap.get k (List.filter (λ kv, p kv.2) m) =
    match JsMap.get k m with
    | Some v => if p v then Some v else None
    | None => None
    end.
Proof.
  induction m as [|[k' v'] m IH]; cbn [List.filter JsMap.get map fst snd]; [done|].
  intros [Hk Hnd]%NoDup_cons.
  destruct (String.eqb k' k) eqn:E.
  - apply String.eqb_eq in E. subst k'.
    destruct (p v'); cbn [JsMap.get]; [by rewrite String.eqb_refl|].
    rewrite IH by done. apply get_None_keys in Hk. by rewrite Hk.
  - destruct (p v'); cbn [JsMap.get]; [rewrite E|]; by apply IH.
Qed.

Lemma NoDup_keys_filter (p : string * V → bool) m :
  NoDup (map fst m) → NoDup (map fst (List.filter p m)).
Proof.
  induction m as [|kv m IH]; cbn [List.filter map]; [done|].
  intros [Hk Hnd]%NoDup_cons.
  destruct (p kv); cbn [map]; [|by apply IH].
  apply NoDup_cons. split; [|by apply IH].
  intros Hin. apply Hk. apply elem_of_map in Hin as (x & -> & Hx).
  apply elem_of_map. exists x. split; [done|].
  apply list_elem_of_In in Hx. apply filter_In in Hx as [Hx _].
  by apply list_elem_of_In.
Qed.

(** Deleting the keys of the entries selected by [p] one by one leaves
    the entries that [p] rejects, when no key occurs twice. *)
Lemma fold_delete_keys (p : V → bool) l m :
  fold_left (λ m kv, if p kv.2 then mapDelete kv.1 m else m) l m =
    List.filter
      (λ kv, negb (existsb (λ kv', p kv'.2 && String.eqb kv'.1 kv.1) l)) m.
Proof.
  revert m. induction l as [|kv l IH]; intros m; cbn [fold_left existsb].
  - induction m as [|x m IHm]; cbn [List.filter negb]; [done | by f_equal].
  - rewrite IH. destruct (p kv.2); cbn [andb orb].
    + unfold mapDelete.
      induction m as [|x m IHm]; cbn [List.filter]; [done|].
      destruct (String.eqb x.1 kv.1) eqn:E.
      * rewrite String.eqb_sym in E. rewrite E. cbn [negb orb]. exact IHm.
      * rewrite String.eqb_sym in E. rewrite E. cbn [negb orb List.filter].
        by rewrite IHm.
    + done.
Qed.

Lemma fold_delete_filter (p : V → bool) m :
  NoDup (map fst m) →
  fold_left (λ m kv, if p kv.2 then mapDelete kv.1 m else m) m m =
    List.filter (λ kv, negb (p kv.2)) m.
Proof.
  intros Hnd. rewrite fold_delete_keys.
  apply filter_ext_in. intros [k v] Hin. f_equal. cbn [fst snd].
  apply list_elem_of_In in Hin.
  destruct (p v) eqn:Hp.
  - apply existsb_exists. exists (k, v). split; [by apply list_elem_of_In|].
    cbn. by rewrite Hp, String.eqb_refl.
  - apply not_true_is_false. intros (x & Hx & Hpx)%existsb_exists.
    apply andb_true_iff in Hpx as [Hpx Hk]. apply String.eqb_eq in Hk.
    destruct x as [k' v']. cbn in *. subst k'.
    apply list_elem_of_In in Hx.
    pose proof (elem_get _ _ _ Hnd Hx) as H1.
    pose proof (elem_get _ _ _ Hnd Hin) as H2.
    congruence.
Qed.
End RegistryFacts.

Section RegistryInvariant.
Import JsMapFacts.

Lemma registry_wf_set k d m :
  registry_wf m → Presence.driverId d = k → registry_wf (JsMap.set k d m).
Proof.
  intros [Hnd Hall] Hd. split.
  - by apply NoDup_keys_set.
  - apply Forall_set; [done | done |].
    intros k' _ ->%String.eqb_eq. done.
Qed.

Lemma registry_wf_get k d m :
  registry_wf m → JsMap.get k m = Some d → Presence.driverId d = k.
Proof.
  intros [_ Hall] Hget. apply get_Some_elem in Hget.
  rewrite Forall_forall in Hall. exact (Hall _ Hget).
Qed.

Lemma registry_wf_update (f : Presence.t → Presence.t) k d m :
  (∀ x, Presence.driverId (f x) = Presence.driverId x) →
  registry_wf m → JsMap.get k m = Some d → registry_wf (JsMap.set k (f d) m).
Proof.
  intros Hf Hwf Hget. apply registry_wf_set; [done|].
  rewrite Hf. by eapply registry_wf_get.
Qed.

Lemma registry_wf_filter (p : string * Presence.t → bool) m :
  registry_wf m → registry_wf (List.filter p m).
Proof.
  intros [Hnd Hall]. split; [by apply NoDup_keys_filter|].
  rewrite Forall_forall in *. intros x Hx. apply Hall.
  apply list_elem_of_In in Hx. apply filter_In in Hx as [Hx _].
  by apply list_elem_of_In.
Qed.

(** What [acceptRide] does to the presence map: nothing, or the
    accepting driver's entry gets status ["onRide"]. *)
Lemma acceptRide_presence sid data callback e w :
  activeDriverSockets (acceptRide sid data callback e w).1 =
    activeDriverSockets w ∨
  ∃ d, JsMap.get (Acceptance.driverId data) (activeDriverSockets w) = Some d ∧
       activeDriverSockets (acceptRide sid data callback e w).1 =
         JsMap.set (Acceptance.driverId data)
           (Presence.set_status "onRide" d) (activeDriverSockets w).
Proof.
  unfold acceptRide. rewrite acceptRun_S. cbn [acceptStep].
  destruct (ride_read e); [|rewrite acceptRun_settled; by left].
  destruct (Ride.findOne _ _) as [ride|]; [|rewrite acceptRun_settled; by left].
  assert (∀ t0 : AcceptTask * World * list Effect,
            (let '(t', w', sent) := t0 in
             let '(w'', sent') := acceptRun 3 sid data callback e t' w' in
             (w'', sent ++ sent')).1 = (acceptRun 3 sid data callback e t0.1.1 t0.1.2).1)
    as Hlet.
  { intros [[t' w'] sent]. cbn [fst snd]. by destruct (acceptRun 3 _ _ _ _ t' w'). }
  rewrite Hlet. clear Hlet.
  destruct (Ride.status ride); cbn [fst snd];
    try (rewrite acceptRun_settled; by left).
  all: rewrite acceptRun_S; cbn [acceptStep];
    (destruct (driver_read e); [|rewrite acceptRun_settled; by left]);
    rewrite acceptRun_S; cbn [acceptStep];
    (destruct (ride_save e); [|rewrite acceptRun_settled; by left]);
    rewrite acceptRun_S; cbn [acceptStep acceptRun]; simpl_world;
    (destruct (JsMap.get (Acceptance.driverId data) (activeDriverSockets w))
       as [d|] eqn:Hget; simpl_world; [right; by exists d | by left]).
Qed.

Lemma bookRide_presence data callback e w :
  activeDriverSockets (bookRide data callback e w).1 = activeDriverSockets w.
Proof.
  unfold bookRide, bookRide_try.
  destruct (generateSequentialRaidId _ _) as [rideId seq]. simpl_world.
  destruct (decide _); simpl_world; [done|].
  destruct (missingRequired data); simpl_world; [done|].
  destruct (ride_lookup e); simpl_world; [|done].
  destruct (Ride.findOne _ _); simpl_world; [done|].
  destruct (validation e); simpl_world; [|done].
  by destruct (ride_insert e); simpl_world.
Qed.

Lemma handle_registry i w :
  registry_wf (activeDriverSockets w) →
  registry_wf (activeDriverSockets (handle i w).1).
Proof.
  intros Hwf. destruct i; cbn [handle].
  - (* registerDriver *)
    unfold registerDriver. destruct (Registration.driverId data) as [k|]; [|done].
    destruct (negb _); [done|]. destruct (_ || _); [done|].
    destruct (logDriverStatus _); simpl_world; by apply registry_wf_set.
  - unfold driverLocationUpdate. simpl_world.
    destruct (LocationUpdate.driverId data) as [k|]; [|done].
    cbn [knownDriver].
    destruct (JsMap.get k (activeDriverSockets w)) as [d|] eqn:Hget; [|done].
    simpl_world. by apply (registry_wf_update (Presence.relocate _ _ _)).
  - unfold onDriverLiveLocationUpdate.
    destruct (LiveUpdate.driverId data) as [k|]; [|done].
    cbn [knownDriver].
    destruct (JsMap.get k (activeDriverSockets w)) as [d|] eqn:Hget; [|done].
    simpl_world. by apply (registry_wf_update (movePresence _ _)).
  - unfold driverHeartbeat. destruct driverId as [k|]; [|done].
    cbn [knownDriver].
    destruct (JsMap.get k (activeDriverSockets w)) as [d|] eqn:Hget; [|done].
    simpl_world. by apply (registry_wf_update (touchPresence _)).
  - unfold registerUser. by destruct (Js.truthy_str _).
  - unfold joinRoom. by destruct (Js.truthy_str _).
  - by rewrite bookRide_presence.
  - destruct (acceptRide_presence sid data callback e w) as [-> | (d & Hget & ->)];
      [done|]. by apply (registry_wf_update (Presence.set_status _)).
  - unfold rejectRide. destruct (rides w !! _); [|done]. simpl_world.
    destruct (JsMap.get _ (activeDriverSockets w)) as [d|] eqn:Hget; [|done].
    simpl_world. by apply (registry_wf_update (Presence.set_status _)).
  - unfold completeRide. destruct (Completion.distance data); [|done].
    destruct (rides w !! _); [|done]. simpl_world.
    destruct (JsMap.get _ (activeDriverSockets w)) as [d|] eqn:Hget; [|done].
    simpl_world. by apply (registry_wf_update (Presence.set_status _)).
  - unfold disconnect. destruct (find _ _) as [s|]; [|done].
    destruct (Js.truthy_str _); [|done]. simpl_world.
    destruct (JsMap.get _ (activeDriverSockets w)) as [d|] eqn:Hget; [|done].
    simpl_world. by apply (registry_wf_update offlinePresence).
  - unfold cleanupOfflineDrivers.
    rewrite (fold_delete_filter (staleOffline now)) by apply Hwf.
    destruct (Nat.ltb _ _); simpl_world; by apply registry_wf_filter.
  - by destruct t.
Qed.
End RegistryInvariant.

Section RegistryRuns.
Import JsMapFacts.

Lemma run_cons i inputs w :
  run (i :: inputs) w =
    ((run inputs (handle i w).1).1, (handle i w).2 ++ (run inputs (handle i w).1).2).
Proof.
  cbn [run]. destruct (handle i w) as [w1 sent]. cbn [fst snd].
  by destruct (run inputs w1).
Qed.

Lemma run_registry inputs w :
  registry_wf (activeDriverSockets w) →
  registry_wf (activeDriverSockets (run inputs w).1).
Proof.
  revert w. induction inputs as [|i inputs IH]; intros w Hwf; [done|].
  rewrite run_cons. cbn [fst]. apply IH. by apply handle_registry.
Qed.

(** X3: whatever the server has handled since it started, the presence
    map holds every driver id at most once, under its own key. *)
Theorem registry_reachable inputs connections d :
  registry_wf (activeDriverSockets (run inputs (started connections d)).1).
Proof.
  apply run_registry. split; constructor.
Qed.

Lemma values_elem {V} (v : V) (m : list (string * V)) :
  v ∈ JsMap.values m ↔ ∃ k, (k, v) ∈ m.
Proof.
  unfold JsMap.values. rewrite elem_of_map. split.
  - intros ([k v'] & -> & H). by exists k.
  - intros [k H]. by exists (k, v).
Qed.

(** The snapshots of a well-formed registry: one per online entry. *)
Lemma online_snapshots m x :
  registry_wf m →
  x ∈ map snapshot (List.filter Presence.isOnline (JsMap.values m)) ↔
  ∃ d, JsMap.get (Snapshot.driverId x) m = Some d ∧
       Presence.isOnline d = true ∧ x = snapshot d.
Proof.
  intros Hwf. rewrite elem_of_map. split.
  - intros (d & -> & Hd). apply list_elem_of_In, filter_In in Hd as [Hd Hon].
    apply list_elem_of_In, values_elem in Hd as [k Hk].
    exists d. split; [|done]. cbn [snapshot Snapshot.driverId].
    destruct Hwf as [Hnd Hall]. rewrite Forall_forall in Hall.
    pose proof (Hall _ Hk) as Hd'. cbn in Hd'. rewrite Hd'. by apply elem_get.
  - intros (d & Hget & Hon & ->). exists d. split; [done|].
    apply list_elem_of_In, filter_In. split; [|done].
    apply list_elem_of_In, values_elem. eexists. by apply get_Some_elem.
Qed.

Lemma online_snapshots_NoDup m :
  registry_wf m →
  NoDup (map Snapshot.driverId
           (map snapshot (List.filter Presence.isOnline (JsMap.values m)))).
Proof.
  intros [Hnd Hall]. rewrite map_map. unfold JsMap.values.
  induction m as [|[k d] m IH]; cbn [map List.filter snd]; [constructor|].
  cbn [map fst] in Hnd. apply NoDup_cons in Hnd as [Hk Hnd].
  apply Forall_cons in Hall as [Hkd Hall]. cbn in Hkd.
  destruct (Presence.isOnline d); cbn [map]; [|by apply IH].
  apply NoDup_cons. split; [|by apply IH].
  cbn [snapshot Snapshot.driverId]. rewrite Hkd. intros Hin. apply Hk.
  apply elem_of_map in Hin as (d' & Hd' & Hin).
  apply list_elem_of_In, filter_In in Hin as [Hin _].
  apply list_elem_of_In, elem_of_map in Hin as ([k' d''] & -> & Hin).
  apply elem_of_map. exists (k', d''). split; [|done].
  rewrite Forall_forall in Hall. specialize (Hall _ Hin). cbn in *. congruence.
Qed.

(** X4: [requestNearbyDrivers] answers the requester alone, with every
    online driver exactly once and no offline driver, whatever position
    and radius it was asked for. *)
Theorem requestNearbyDrivers_lists_online sid data w :
  registry_wf (activeDriverSockets w) →
  ∃ drivers,
    requestNearbyDrivers sid data w =
      [(ToSocket sid, nearbyDriversResponse drivers)] ∧
    NoDup (map Snapshot.driverId drivers) ∧
    ∀ x, x ∈ drivers ↔
         ∃ d, JsMap.get (Snapshot.driverId x) (activeDriverSockets w) = Some d ∧
              Presence.isOnline d = true ∧ x = snapshot d.
Proof.
  intros Hwf. eexists. split; [reflexivity|]. split.
  - by apply online_snapshots_NoDup.
  - intros x. by apply online_snapshots.
Qed.
End RegistryRuns.


Section PresenceHandlers.
Import JsMapFacts.

(** The registry and the messages of a [registerDriver] that passes
    its checks. *)
Lemma registerDriver_accepted sid data e w k :
  Registration.driverId data = Some k → k ≠ "" →
  Js.truthy_num (Registration.latitude data) = true →
  Js.truthy_num (Registration.longitude data) = true →
  let r := registerDriver sid data e w in
  activeDriverSockets r.1 =
    JsMap.set k (registered sid data (presence_now e)) (activeDriverSockets w) ∧
  r.2 =
    broadcastDriverLocationsToAllUsers r.1 ++
    [Emit (ToSocket sid)
       (driverRegistrationConfirmed true "Driver registered successfully")] ++
    if logDriverStatus r.1 then []
    else [Emit (ToSocket sid)
            (driverRegistrationConfirmed false
               ("Registration failed: " +:+ toFixedTypeError))].
Proof.
  intros Hid Hk Hlat Hlng. cbv zeta. unfold registerDriver, registered.
  rewrite Hid, Hlat, Hlng. cbn [Js.truthy_str default from_option id].
  assert (String.eqb k "" = false) as -> by by apply String.eqb_neq.
  cbn [negb orb].
  match goal with |- context [logDriverStatus ?x] => set (w2 := x) end.
  destruct (logDriverStatus w2) eqn:Hlog; cbn [fst snd]; rewrite Hlog;
    (split; [by subst w2; simpl_world|]).
  - by rewrite app_nil_r.
  - by rewrite <- app_assoc.
Qed.

(** X5: a [registerDriver] request with a driver id and non-zero
    coordinates inserts or replaces the driver's entry (online, status
    ["Live"], bound to the calling connection) and leaves the other
    entries alone; it broadcasts a driver list that contains the driver
    and confirms to the caller.  A second, failing confirmation follows
    exactly when [logDriverStatus] throws. *)
Theorem registerDriver_registers sid data e w k :
  Registration.driverId data = Some k → k ≠ "" →
  Js.truthy_num (Registration.latitude data) = true →
  Js.truthy_num (Registration.longitude data) = true →
  let r := registerDriver sid data e w in
  let entry := registered sid data (presence_now e) in
  JsMap.get k (activeDriverSockets r.1) = Some entry ∧
  (∀ k', k ≠ k' →
         JsMap.get k' (activeDriverSockets r.1) =
         JsMap.get k' (activeDriverSockets w)) ∧
  (∃ drivers,
     snapshot entry ∈ drivers ∧
     r.2 =
       [Emit ToAll (driverLocationsUpdate drivers);
        Emit (ToSocket sid)
          (driverRegistrationConfirmed true "Driver registered successfully")] ++
       if logDriverStatus r.1 then []
       else [Emit (ToSocket sid)
               (driverRegistrationConfirmed false
                  ("Registration failed: " +:+ toFixedTypeError))]).
Proof.
  intros Hid Hk Hlat Hlng. cbv zeta.
  destruct (registerDriver_accepted sid data e w k Hid Hk Hlat Hlng)
    as [Hreg Hsent].
  cbv zeta in Hreg, Hsent. rewrite Hsent, Hreg. clear Hsent.
  split; [apply get_set_eq|]. split.
  { intros k' Hne. by apply get_set_ne. }
  unfold broadcastDriverLocationsToAllUsers. rewrite Hreg.
  eexists. split; [|reflexivity].
  apply elem_of_map. eexists. split; [reflexivity|].
  apply list_elem_of_In, filter_In. split; [|done].
  apply list_elem_of_In, values_elem. exists k.
  apply get_Some_elem, get_set_eq.
Qed.

(** X6: the inbound [driverLiveLocationUpdate] event does nothing at all
    for a driver that is not registered; for a registered driver it
    moves the entry, keeps its status, and broadcasts the stored status
    and vehicle type. *)
Theorem onDriverLiveLocationUpdate_effects data e w :
  let r := onDriverLiveLocationUpdate data e w in
  match LiveUpdate.driverId data, knownDriver (LiveUpdate.driverId data) w with
  | Some k, Some d =>
      JsMap.get k (activeDriverSockets r.1) =
        Some (movePresence
                {| latitude := LiveUpdate.lat data;
                   longitude := LiveUpdate.lng data |} (presence_now e) d) ∧
      presenceStatus k r.1 = presenceStatus k w ∧
      (∀ k', k ≠ k' →
             JsMap.get k' (activeDriverSockets r.1) =
             JsMap.get k' (activeDriverSockets w)) ∧
      r.2 =
        [Emit ToAll
           (driverLiveLocationUpdate
              {| LiveLocation.driverId := Some k;
                 LiveLocation.lat := LiveUpdate.lat data;
                 LiveLocation.lng := LiveUpdate.lng data;
                 LiveLocation.status := Presence.status d;
                 LiveLocation.vehicleType := Presence.vehicleType d;
                 LiveLocation.timestamp := presence_now e |})]
  | _, _ => r = (w, [])
  end.
Proof.
  cbv zeta. unfold onDriverLiveLocationUpdate.
  destruct (LiveUpdate.driverId data) as [k|]; [|done].
  destruct (knownDriver (Some k) w) as [d|] eqn:Hknown; [|done].
  cbn [knownDriver] in Hknown. simpl_world. unfold presenceStatus. simpl_world.
  rewrite get_set_eq, Hknown. repeat split.
  intros k' Hne. by apply get_set_ne.
Qed.
End PresenceHandlers.

Section Departure.
Import JsMapFacts.

(** The registry after the connection of a registered driver has
    closed. *)
Lemma disconnect_registry sid e w s k d :
  List.find (λ s, String.eqb (Socket.id s) sid) (sockets w) = Some s →
  Socket.driverId s = Some k → k ≠ "" →
  JsMap.get k (activeDriverSockets w) = Some d →
  activeDriverSockets (disconnect sid e w).1.1 =
    JsMap.set k (offlinePresence d) (activeDriverSockets w).
Proof.
  intros Hfind Hsock Hk Hget. unfold disconnect.
  rewrite Hfind, Hsock. cbn [Js.truthy_str default from_option id].
  assert (String.eqb k "" = false) as -> by by apply String.eqb_neq.
  cbn [negb]. simpl_world. rewrite Hget. by simpl_world.
Qed.

(** X7: when the connection of a registered driver closes, the driver's
    entry is kept, marked offline with status ["Offline"], the other
    entries are untouched, and the driver list broadcast to every
    connection no longer contains the driver.  Rides are not touched. *)
Theorem disconnect_marks_offline sid e w s k d :
  registry_wf (activeDriverSockets w) →
  List.find (λ s, String.eqb (Socket.id s) sid) (sockets w) = Some s →
  Socket.driverId s = Some k → k ≠ "" →
  JsMap.get k (activeDriverSockets w) = Some d →
  let w' := (disconnect sid e w).1.1 in
  let sent := (disconnect sid e w).1.2 in
  JsMap.get k (activeDriverSockets w') = Some (offlinePresence d) ∧
  (∀ k', k ≠ k' →
         JsMap.get k' (activeDriverSockets w') =
         JsMap.get k' (activeDriverSockets w)) ∧
  (∃ drivers,
     sent = [Emit ToAll (driverLocationsUpdate drivers)] ∧
     ∀ x, x ∈ drivers → Snapshot.driverId x ≠ k) ∧
  rides w' = rides w ∧ rideColl (db w') = rideColl (db w).
Proof.
  intros Hwf Hfind Hsock Hk Hget. cbv zeta. unfold disconnect.
  rewrite Hfind, Hsock. cbn [Js.truthy_str default from_option id].
  assert (String.eqb k "" = false) as -> by by apply String.eqb_neq.
  cbn [negb]. simpl_world. rewrite Hget. simpl_world.
  rewrite get_set_eq. split; [done|]. split.
  { intros k' Hne. by apply get_set_ne. }
  split.
  - eexists. split; [reflexivity|].
    intros x Hx Hxk.
    assert (registry_wf (JsMap.set k (offlinePresence d) (activeDriverSockets w)))
      as Hwf' by (by apply (registry_wf_update offlinePresence)).
    apply (online_snapshots _ _ Hwf') in Hx as (d' & Hd' & Hon & ->).
    rewrite Hxk, get_set_eq in Hd'. by injection Hd' as <-.
  - split; [done|]. unfold saveDriverLocationToDB.
    by destruct (location_saved e).
Qed.

(** X8: a heartbeat after the connection closed brings the driver back
    into the driver lists, still with status ["Offline"]: it refreshes
    the time stamp and the online flag only. *)
Theorem heartbeat_after_disconnect sid e w s k d now :
  registry_wf (activeDriverSockets w) →
  List.find (λ s, String.eqb (Socket.id s) sid) (sockets w) = Some s →
  Socket.driverId s = Some k → k ≠ "" →
  JsMap.get k (activeDriverSockets w) = Some d →
  let w' := driverHeartbeat (Some k) now (disconnect sid e w).1.1 in
  let revived := touchPresence now (offlinePresence d) in
  JsMap.get k (activeDriverSockets w') = Some revived ∧
  Presence.isOnline revived = true ∧
  Presence.status revived = "Offline" ∧
  Presence.location revived = Presence.location d ∧
  ∀ sid' data,
    ∃ drivers,
      requestNearbyDrivers sid' data w' =
        [(ToSocket sid', nearbyDriversResponse drivers)] ∧
      snapshot revived ∈ drivers.
Proof.
  intros Hwf Hfind Hsock Hk Hget. cbv zeta.
  pose proof (disconnect_registry sid e w s k d Hfind Hsock Hk Hget) as Hreg.
  assert (JsMap.get k (activeDriverSockets (disconnect sid e w).1.1) =
          Some (offlinePresence d)) as Hoff
    by (rewrite Hreg; apply get_set_eq).
  unfold driverHeartbeat. cbn [knownDriver]. rewrite Hoff. simpl_world.
  rewrite get_set_eq. repeat split.
  intros sid' data. eexists. split; [reflexivity|].
  apply elem_of_map. eexists. split; [reflexivity|].
  apply list_elem_of_In, filter_In. split; [|done].
  apply list_elem_of_In, values_elem. exists k. simpl_world.
  apply get_Some_elem, get_set_eq.
Qed.

Lemma staleOffline_false now d :
  staleOffline now d = false ↔
  Presence.isOnline d = true ∨ (now ≤ Presence.lastUpdate d + 300000)%N.
Proof.
  unfold staleOffline. rewrite andb_false_iff, negb_false_iff, Z.ltb_ge.
  split; (intros [H|H]; [by left | right; lia]).
Qed.

(** X9: the clean-up timer removes exactly the entries that are offline
    and were last updated more than five minutes ago: an online entry
    and an entry updated within the last five minutes survive
    unchanged.  It broadcasts the driver list only when it removed
    something, and never touches the rides. *)
Theorem cleanup_removes_stale now w :
  NoDup (map fst (activeDriverSockets w)) →
  let w' := (cleanupOfflineDrivers now w).1.1 in
  let sent := (cleanupOfflineDrivers now w).1.2 in
  (∀ k, JsMap.get k (activeDriverSockets w') =
        match JsMap.get k (activeDriverSockets w) with
        | Some d => if staleOffline now d then None else Some d
        | None => None
        end) ∧
  (∀ k d, JsMap.get k (activeDriverSockets w) = Some d →
          Presence.isOnline d = true ∨ (now ≤ Presence.lastUpdate d + 300000)%N →
          JsMap.get k (activeDriverSockets w') = Some d) ∧
  sent =
    (if existsb (staleOffline now) (JsMap.values (activeDriverSockets w))
     then broadcastDriverLocationsToAllUsers w' else []) ∧
  rides w' = rides w ∧ db w' = db w.
Proof.
  intros Hnd. cbv zeta. unfold cleanupOfflineDrivers.
  rewrite (fold_delete_filter (staleOffline now)) by done.
  assert (Nat.ltb 0
            (length (List.filter (λ kv : string * Presence.t, staleOffline now kv.2)
                       (activeDriverSockets w))) =
          existsb (staleOffline now) (JsMap.values (activeDriverSockets w)))
    as ->.
  { unfold JsMap.values.
    induction (activeDriverSockets w) as [|[k d] m IH]; [done|].
    cbn [List.filter map existsb snd].
    destruct (staleOffline now d); [done | exact (IH ltac:(by inversion Hnd))]. }
  assert (∀ k, JsMap.get k
                 (List.filter (λ kv : string * Presence.t, negb (staleOffline now kv.2))
                    (activeDriverSockets w)) =
               match JsMap.get k (activeDriverSockets w) with
               | Some d => if staleOffline now d then None else Some d
               | None => None
               end) as Hlook.
  { intros k. rewrite (get_filter (λ d, negb (staleOffline now d))) by done.
    destruct (JsMap.get k (activeDriverSockets w)) as [d|]; [|done].
    by destruct (staleOffline now d). }
  destruct (existsb _ _); simpl_world.
  all: split; [exact Hlook|]; split; [|done].
  all: intros k d Hget Hfresh; rewrite Hlook, Hget;
    apply staleOffline_false in Hfresh; by rewrite Hfresh.
Qed.
End Departure.

Section LogHazard.
Import JsMapFacts.

Lemma logDriverStatus_forallb w :
  logDriverStatus w = forallb hasCoordinates (JsMap.values (activeDriverSockets w)).
Proof. reflexivity. Qed.

Lemma forallb_values_set (p : Presence.t → bool) k v m :
  forallb p (JsMap.values m) = true → p v = true →
  forallb p (JsMap.values (JsMap.set k v m)) = true.
Proof.
  unfold JsMap.values. intros Hm Hv.
  induction m as [|[k' v'] m IH]; cbn [JsMap.set map forallb snd] in *.
  - by rewrite Hv.
  - apply andb_true_iff in Hm as [Hv' Hm].
    destruct (String.eqb k' k); cbn [map forallb snd].
    + by rewrite Hv, Hm.
    + by rewrite Hv', IH.
Qed.

Lemma forallb_values_filter (p : Presence.t → bool) (q : string * Presence.t → bool) m :
  forallb p (JsMap.values m) = true →
  forallb p (JsMap.values (List.filter q m)) = true.
Proof.
  unfold JsMap.values. intros Hm.
  induction m as [|kv m IH]; cbn [List.filter map forallb] in *; [done|].
  apply andb_true_iff in Hm as [Hv Hm].
  destruct (q kv); cbn [map forallb]; [rewrite Hv|]; by apply IH.
Qed.

Lemma forallb_values_get (p : Presence.t → bool) k d m :
  forallb p (JsMap.values m) = true → JsMap.get k m = Some d → p d = true.
Proof.
  intros Hm Hget. rewrite forallb_forall in Hm. apply Hm.
  apply list_elem_of_In, values_elem. exists k. by apply get_Some_elem.
Qed.

Lemma truthy_num_obj v : Js.truthy_num v = true → Js.truthy_obj v = true.
Proof. by destruct v. Qed.

(** X10: as long as every location update carries both coordinates, the
    status timer and the other callers of [logDriverStatus] never
    throw: every entry of the presence map keeps both coordinates. *)
Theorem coordinates_kept i w :
  carriesCoordinates i = true →
  statusCheck w = true → statusCheck (handle i w).1 = true.
Proof.
  unfold statusCheck. rewrite !logDriverStatus_forallb.
  intros Hi Hw. destruct i; cbn [handle carriesCoordinates] in *.
  - unfold registerDriver. destruct (Registration.driverId data) as [k|]; [|done].
    destruct (negb _); [done|].
    destruct (negb (Js.truthy_num (Registration.latitude data))) eqn:Hlat; [done|].
    destruct (negb (Js.truthy_num (Registration.longitude data))) eqn:Hlng; [done|].
    apply negb_false_iff in Hlat, Hlng. cbn [orb].
    destruct (logDriverStatus _); simpl_world;
      (apply forallb_values_set; [done|]); unfold hasCoordinates; cbn;
      by rewrite !truthy_num_obj.
  - apply andb_true_iff in Hi as [Hlat Hlng].
    unfold driverLocationUpdate. simpl_world.
    destruct (LocationUpdate.driverId data) as [k|]; [|done].
    cbn [knownDriver].
    destruct (JsMap.get k (activeDriverSockets w)) as [d|] eqn:Hget; [|done].
    simpl_world. apply forallb_values_set; [done|].
    unfold hasCoordinates. cbn. by rewrite Hlat, Hlng.
  - apply andb_true_iff in Hi as [Hlat Hlng].
    unfold onDriverLiveLocationUpdate.
    destruct (LiveUpdate.driverId data) as [k|]; [|done].
    cbn [knownDriver].
    destruct (JsMap.get k (activeDriverSockets w)) as [d|] eqn:Hget; [|done].
    simpl_world. apply forallb_values_set; [done|].
    unfold hasCoordinates. cbn. by rewrite Hlat, Hlng.
  - unfold driverHeartbeat. destruct driverId as [k|]; [|done].
    cbn [knownDriver].
    destruct (JsMap.get k (activeDriverSockets w)) as [d|] eqn:Hget; [|done].
    simpl_world. apply forallb_values_set; [done|].
    exact (forallb_values_get _ _ _ _ Hw Hget).
  - unfold registerUser. by destruct (Js.truthy_str _).
  - unfold joinRoom. by destruct (Js.truthy_str _).
  - by rewrite bookRide_presence.
  - destruct (acceptRide_presence sid data callback e w) as [-> | (d & Hget & ->)];
      [done|]. apply forallb_values_set; [done|].
    exact (forallb_values_get _ _ _ _ Hw Hget).
  - unfold rejectRide. destruct (rides w !! _); [|done]. simpl_world.
    destruct (JsMap.get _ (activeDriverSockets w)) as [d|] eqn:Hget; [|done].
    simpl_world. apply forallb_values_set; [done|].
    exact (forallb_values_get _ _ _ _ Hw Hget).
  - unfold completeRide. destruct (Completion.distance data); [|done].
    destruct (rides w !! _); [|done]. simpl_world.
    destruct (JsMap.get _ (activeDriverSockets w)) as [d|] eqn:Hget; [|done].
    simpl_world. apply forallb_values_set; [done|].
    exact (forallb_values_get _ _ _ _ Hw Hget).
  - unfold disconnect. destruct (find _ _) as [s|]; [|done].
    destruct (Js.truthy_str _); [|done]. simpl_world.
    destruct (JsMap.get _ (activeDriverSockets w)) as [d|] eqn:Hget; [|done].
    simpl_world. apply forallb_values_set; [done|].
    exact (forallb_values_get _ _ _ _ Hw Hget).
  - unfold cleanupOfflineDrivers. rewrite fold_delete_keys.
    destruct (Nat.ltb _ _); simpl_world; by apply forallb_values_filter.
  - by destruct t.
Qed.

(** X11: a [driverLocationUpdate] without a coordinate for a registered
    driver stores the gap in the presence map.  From then on the status
    timer throws, and a valid [registerDriver] of another driver still
    registers that driver but is confirmed and then reported failed. *)
Theorem location_update_without_coordinate data e w k d sid reg e' k' :
  LocationUpdate.driverId data = Some k →
  JsMap.get k (activeDriverSockets w) = Some d →
  LocationUpdate.latitude data = None ∨ LocationUpdate.longitude data = None →
  Registration.driverId reg = Some k' → k' ≠ "" → k' ≠ k →
  Js.truthy_num (Registration.latitude reg) = true →
  Js.truthy_num (Registration.longitude reg) = true →
  let w1 := (driverLocationUpdate data e w).1 in
  let r := registerDriver sid reg e' w1 in
  statusCheck w1 = false ∧
  presenceStatus k' r.1 = Some "Live" ∧
  Emit (ToSocket sid)
    (driverRegistrationConfirmed true "Driver registered successfully") ∈ r.2 ∧
  Emit (ToSocket sid)
    (driverRegistrationConfirmed false
       ("Registration failed: " +:+ toFixedTypeError)) ∈ r.2.
Proof.
  intros Hid Hget Hgap Hreg Hk' Hne Hlat Hlng. cbv zeta.
  set (w1 := (driverLocationUpdate data e w).1).
  assert (∃ bad, JsMap.get k (activeDriverSockets w1) = Some bad ∧
                 hasCoordinates bad = false) as (bad & Hbad & Hcoord).
  { subst w1. unfold driverLocationUpdate. rewrite Hid. cbn [knownDriver].
    rewrite Hget. simpl_world. rewrite get_set_eq. eexists. split; [done|].
    unfold hasCoordinates. cbn. destruct Hgap as [-> | ->]; [done|].
    by rewrite andb_false_r. }
  assert (∀ w', JsMap.get k (activeDriverSockets w') = Some bad →
                logDriverStatus w' = false) as Hthrows.
  { intros w' Hw'. rewrite logDriverStatus_forallb.
    apply not_true_is_false. intros Hall.
    rewrite (forallb_values_get _ _ _ _ Hall Hw') in Hcoord. done. }
  split; [by apply Hthrows|].
  destruct (registerDriver_accepted sid reg e' w1 k' Hreg Hk' Hlat Hlng)
    as [Hregistry Hsent].
  cbv zeta in Hregistry, Hsent.
  assert (logDriverStatus (registerDriver sid reg e' w1).1 = false) as Hlog.
  { apply Hthrows. rewrite Hregistry. by rewrite get_set_ne. }
  rewrite Hlog in Hsent. rewrite Hsent. unfold presenceStatus.
  rewrite Hregistry, get_set_eq. split; [done|].
  rewrite !elem_of_app. split; right.
  - left. apply elem_of_cons. by left.
  - right. apply elem_of_cons. by left.
Qed.
End LogHazard.

(** ** Booking: what is stored, offered and released *)

Section BookingPaths.

(** A booking that passes every check stores the ride and offers it. *)
Lemma bookRide_stores data callback e w :
  missingRequired data = false →
  bookedId e w ∉ processingRides w →
  ride_lookup e = Resolves → validation e = Resolves →
  ride_insert e = Resolves →
  Ride.findOne (bookedId e w) (rideColl (db w)) = None →
  let rideId := bookedId e w in
  let otp := bookingOtp (Booking.customerId data) (book_random e) in
  let stored := rideData data rideId otp (new_id e) in
  let r := bookRide data callback e w in
  rideColl (db r.1) = rideColl (db w) ++ [stored] ∧
  Ride.findOne rideId (rideColl (db r.1)) = Some stored ∧
  rides r.1 =
    <[rideId := workingCopy data rideId (new_id e) (book_now e)]> (rides w) ∧
  r.2 =
    Emit ToAll (newRideRequest data rideId (new_id e)) ::
    ack callback (BookOk rideId (new_id e) (Some otp) "Ride booked successfully!").
Proof.
  intros Hreq Hfree Hlook Hval Hins Hnone. cbv zeta.
  unfold bookRide, bookedId, bookRide_try in *.
  destruct (generateSequentialRaidId _ _) as [rideId seq]. simpl_world.
  destruct (decide (rideId ∈ processingRides w)) as [Hin|_]; [done|].
  rewrite Hreq, Hlook. simpl_world. rewrite Hnone, Hval, Hins. simpl_world.
  rewrite app_nil_r. repeat split.
  fold (Ride.insert (rideData data rideId
                       (bookingOtp (Booking.customerId data) (book_random e))
                       (new_id e)) (rideColl (db w))).
  rewrite findOne_insert_None by done.
  cbn [rideData Ride.RAID_ID]. by rewrite String.eqb_refl.
Qed.

(** The [finally] block: whatever path a booking takes, its identifier
    is not in [processingRides] afterwards and no other identifier is
    added or removed. *)
Lemma bookRide_processing data callback e w :
  processingRides (bookRide data callback e w).1 =
    processingRides w ∖ {[bookedId e w]}.
Proof.
  unfold bookRide, bookedId, bookRide_try.
  destruct (generateSequentialRaidId _ _) as [rideId seq]. simpl_world.
  assert (({[rideId]} ∪ processingRides w) ∖ {[rideId]} =
          processingRides w ∖ {[rideId]}) as H1.
  { apply set_eq. intros x.
    rewrite !elem_of_difference, elem_of_union, elem_of_singleton. tauto. }
  assert (∀ X : gset string, X ∖ {[rideId]} ∖ {[rideId]} = X ∖ {[rideId]}) as H2.
  { intros X. apply set_eq. intros x. rewrite !elem_of_difference. tauto. }
  destruct (decide _); simpl_world; [done|].
  destruct (missingRequired data); simpl_world; [by rewrite H2, H1|].
  destruct (ride_lookup e); simpl_world; [|done].
  destruct (Ride.findOne _ _); simpl_world; [by rewrite H2, H1|].
  destruct (validation e); simpl_world; [|done].
  by destruct (ride_insert e); simpl_world.
Qed.

(** What a booking can do to the [Ride] collection and to the working
    set: nothing, or append one pending ride under a new identifier
    together with its working copy. *)
Lemma bookRide_rides data callback e w :
  (rideColl (db (bookRide data callback e w).1) = rideColl (db w) ∧
   rides (bookRide data callback e w).1 = rides w ∧
   ∀ d i x, Emit ToAll (newRideRequest d i x) ∉ (bookRide data callback e w).2) ∨
  (Ride.findOne (bookedId e w) (rideColl (db w)) = None ∧
   missingRequired data = false ∧
   ∃ otp,
     rideColl (db (bookRide data callback e w).1) =
       rideColl (db w) ++ [rideData data (bookedId e w) otp (new_id e)] ∧
     rides (bookRide data callback e w).1 =
       <[bookedId e w := workingCopy data (bookedId e w) (new_id e) (book_now e)]>
         (rides w) ∧
     Emit ToAll (newRideRequest data (bookedId e w) (new_id e))
       ∈ (bookRide data callback e w).2).
Proof.
  assert (∀ a, ∀ d i x, Emit ToAll (newRideRequest d i x) ∉ ack callback a) as Hack.
  { intros a d i x. unfold ack. destruct callback.
    - intros [=]%list_elem_of_singleton.
    - apply not_elem_of_nil. }
  assert (∀ err w' id,
            ∀ d i x, Emit ToAll (newRideRequest d i x) ∉
                     bookRide_catch callback e id err w') as Hcatch.
  { intros err w' id d i x. unfold bookRide_catch.
    destruct err as [m errs|m [|]|m]; try apply Hack.
    destruct (ride_relookup e); [|apply Hack].
    destruct (Ride.findOne _ _); [apply Hack | apply not_elem_of_nil]. }
  unfold bookRide, bookedId, bookRide_try.
  destruct (generateSequentialRaidId _ _) as [rideId seq]. simpl_world.
  destruct (decide _); simpl_world.
  { left. repeat split. intros d i x. rewrite app_nil_r. apply Hack. }
  destruct (missingRequired data); simpl_world.
  { left. repeat split. intros d i x. rewrite app_nil_r. apply Hack. }
  destruct (ride_lookup e); simpl_world;
    [|left; repeat split; intros d i x; apply Hcatch].
  destruct (Ride.findOne _ _) eqn:Hfind; simpl_world.
  { left. repeat split. intros d i x. rewrite app_nil_r. apply Hack. }
  destruct (validation e); simpl_world;
    [|left; repeat split; intros d i x; apply Hcatch].
  destruct (ride_insert e); simpl_world;
    [|left; repeat split; intros d i x; apply Hcatch].
  right. split; [done|]. split; [done|]. eexists. repeat split.
  rewrite app_nil_r. by left.
Qed.

Lemma app_singleton_ne {A} (l : list A) (x : A) : l ++ [x] ≠ l.
Proof.
  intros H. apply (f_equal length) in H. rewrite length_app in H.
  cbn in H. lia.
Qed.

(** X12: whatever path it takes, [bookRide] leaves [processingRides]
    without its identifier and otherwise as it was.  A call that finds
    its identifier already there is refused as already being processed
    and stores nothing, and still removes the identifier: it releases
    the guard that another call holds. *)
Theorem bookRide_releases_guard data callback e w :
  let r := bookRide data callback e w in
  processingRides r.1 = processingRides w ∖ {[bookedId e w]} ∧
  (bookedId e w ∈ processingRides w →
   r.2 = ack callback (AckFail "Ride is already being processed") ∧
   (bookedId e w ∉ processingRides r.1) ∧
   rides r.1 = rides w ∧ rideColl (db r.1) = rideColl (db w)).
Proof.
  cbv zeta. split; [apply bookRide_processing|]. intros Hheld.
  pose proof (bookRide_processing data callback e w) as Hproc.
  revert Hheld Hproc. unfold bookRide, bookedId, bookRide_try.
  destruct (generateSequentialRaidId _ _) as [rideId seq]. simpl_world.
  intros Hheld Hproc.
  destruct (decide (rideId ∈ processingRides w)) as [_|Hout]; [|done].
  simpl_world. rewrite app_nil_r. split; [done|]. split; [|done].
  rewrite elem_of_difference, elem_of_singleton. tauto.
Qed.

(** X13: [bookRide] offers a ride exactly when it has stored it: some
    [newRideRequest] is sent if and only if the [Ride] collection has
    changed.  If it has not, the working set is as before.  If it has,
    the required fields were present, the collection did not hold the
    identifier, one pending document with that identifier and the new
    [_id] was appended, the working copy was filed under the
    identifier, and [newRideRequest] with the booking went to every
    connection. *)
Theorem bookRide_offers_what_it_stores data callback e w :
  let r := bookRide data callback e w in
  ((∃ d i x, Emit ToAll (newRideRequest d i x) ∈ r.2) ↔
   rideColl (db r.1) ≠ rideColl (db w)) ∧
  (rideColl (db r.1) = rideColl (db w) → rides r.1 = rides w) ∧
  (rideColl (db r.1) ≠ rideColl (db w) →
   Ride.findOne (bookedId e w) (rideColl (db w)) = None ∧
   missingRequired data = false ∧
   Emit ToAll (newRideRequest data (bookedId e w) (new_id e)) ∈ r.2 ∧
   rides r.1 =
     <[bookedId e w := workingCopy data (bookedId e w) (new_id e) (book_now e)]>
       (rides w) ∧
   ∃ stored,
     rideColl (db r.1) = rideColl (db w) ++ [stored] ∧
     Ride.RAID_ID stored = bookedId e w ∧ Ride.status stored = pending ∧
     Ride._id stored = new_id e).
Proof.
  cbv zeta.
  destruct (bookRide_rides data callback e w)
    as [(Hcoll & Hrides & Hno) | (Hnone & Hreq & otp & Hcoll & Hrides & Hsent)].
  - split; [|split; [done|by intros []]]. split; [|by intros []].
    intros (d & i & x & Hin). by apply Hno in Hin.
  - assert (rideColl (db (bookRide data callback e w).1) ≠ rideColl (db w))
      as Hne by (rewrite Hcoll; apply app_singleton_ne).
    split; [|split; [done|]].
    + split; [done|]. intros _. by eexists _, _, _.
    + intros _. repeat split; try done. by eexists.
Qed.
End BookingPaths.


Section RideStore.

Lemma findOne_None rideId coll :
  Ride.findOne rideId coll = None ↔ rideId ∉ map Ride.RAID_ID coll.
Proof.
  induction coll as [|r coll IH]; cbn [Ride.findOne map].
  - split; [intros _; apply not_elem_of_nil | done].
  - destruct (String.eqb (Ride.RAID_ID r) rideId) eqn:E.
    + apply String.eqb_eq in E. split; [done|]. intros H. exfalso. apply H.
      rewrite E. by left.
    + apply String.eqb_neq in E. rewrite IH, not_elem_of_cons.
      split; [intros H; split; [congruence | done] | by intros [_ H]].
Qed.

Lemma findOne_app_Some rideId coll r :
  is_Some (Ride.findOne rideId coll) →
  is_Some (Ride.findOne rideId (coll ++ [r])).
Proof.
  induction coll as [|r0 coll IH]; cbn [Ride.findOne app].
  - by intros [? ?].
  - by destruct (String.eqb (Ride.RAID_ID r0) rideId).
Qed.

Lemma findOne_save_Some rideId local coll :
  is_Some (Ride.findOne rideId coll) →
  is_Some (Ride.findOne rideId (Ride.save local coll)).
Proof.
  unfold Ride.save.
  induction coll as [|r coll IH]; cbn [Ride.findOne map]; [done|].
  destruct (String.eqb (Ride._id r) (Ride._id local));
    cbn [Ride.write Ride.RAID_ID];
    destruct (String.eqb (Ride.RAID_ID r) rideId); try done; by eexists.
Qed.

Lemma save_RAID_IDs local coll :
  map Ride.RAID_ID (Ride.save local coll) = map Ride.RAID_ID coll.
Proof.
  unfold Ride.save. rewrite map_map. apply map_ext. intros r.
  by destruct (String.eqb _ _).
Qed.

(** What [acceptRide] does to the rides: the working set is never
    touched, and the collection is left alone or saved with a document
    whose status is [accepted]. *)
Lemma acceptRide_rides sid data callback e w :
  rides (acceptRide sid data callback e w).1 = rides w ∧
  (rideColl (db (acceptRide sid data callback e w).1) = rideColl (db w) ∨
   ∃ ride,
     Ride.findOne (Acceptance.rideId data) (rideColl (db w)) = Some ride ∧
     Ride.status ride ≠ accepted ∧
     rideColl (db (acceptRide sid data callback e w).1) =
       Ride.save (acceptedDocument data e w ride) (rideColl (db w))).
Proof.
  unfold acceptRide. rewrite acceptRun_S. cbn [acceptStep].
  destruct (ride_read e); [|rewrite acceptRun_settled; by split; [|left]].
  destruct (Ride.findOne _ _) as [ride|] eqn:Hfind;
    [|rewrite acceptRun_settled; by split; [|left]].
  assert (∀ t0 : AcceptTask * World * list Effect,
            (let '(t', w', sent) := t0 in
             let '(w'', sent') := acceptRun 3 sid data callback e t' w' in
             (w'', sent ++ sent')).1 = (acceptRun 3 sid data callback e t0.1.1 t0.1.2).1)
    as Hlet.
  { intros [[t' w'] sent]. cbn [fst snd]. by destruct (acceptRun 3 _ _ _ _ t' w'). }
  rewrite Hlet. clear Hlet.
  destruct (Ride.status ride) eqn:Hst; cbn [fst snd];
    try (rewrite acceptRun_settled; by split; [|left]).
  all: rewrite acceptRun_S; cbn [acceptStep];
    (destruct (driver_read e); [|rewrite acceptRun_settled; by split; [|left]]);
    rewrite acceptRun_S; cbn [acceptStep];
    (destruct (ride_save e); [|rewrite acceptRun_settled; by split; [|left]]);
    rewrite acceptRun_S; cbn [acceptStep acceptRun]; simpl_world;
    fold (acceptedDocument data e w ride);
    (destruct (JsMap.get (Acceptance.driverId data) (activeDriverSockets w));
     simpl_world; (split; [done|]); right; exists ride;
     rewrite Hst; by repeat split).
Qed.

Lemma saveLocation_rideColl e a b c d f g x :
  rideColl (saveDriverLocationToDB e a b c d f g x) = rideColl x.
Proof. unfold saveDriverLocationToDB. by destruct (location_saved e). Qed.

(** Every input other than a booking, an acceptance, a rejection, a
    completion or a timer leaves the rides alone. *)
Lemma handle_presence_rides i w :
  match i with
  | InBookRide _ _ _ | InAcceptRide _ _ _ _ | InRejectRide _ _ _
  | InCompleteRide _ _ _ | InTimer _ => True
  | _ => rides (handle i w).1 = rides w ∧
         rideColl (db (handle i w).1) = rideColl (db w)
  end.
Proof.
  destruct i; cbn [handle]; try done.
  - unfold registerDriver. destruct (Registration.driverId data); [|done].
    destruct (negb _); [done|]. destruct (_ || _); [done|].
    destruct (logDriverStatus _); simpl_world; by rewrite saveLocation_rideColl.
  - unfold driverLocationUpdate. simpl_world. rewrite saveLocation_rideColl.
    destruct (LocationUpdate.driverId data); [|done].
    by destruct (knownDriver _ _).
  - unfold onDriverLiveLocationUpdate.
    destruct (LiveUpdate.driverId data); [|done].
    destruct (knownDriver _ _); [|done]. simpl_world.
    by rewrite saveLocation_rideColl.
  - unfold driverHeartbeat. destruct driverId; [|done].
    by destruct (knownDriver _ _).
  - unfold registerUser. by destruct (Js.truthy_str _).
  - unfold joinRoom. by destruct (Js.truthy_str _).
  - unfold disconnect. destruct (find _ _); [|done].
    destruct (Js.truthy_str _); [|done]. simpl_world.
    destruct (JsMap.get _ _); [|done]. simpl_world.
    by rewrite saveLocation_rideColl.
  - unfold cleanupOfflineDrivers. by destruct (Nat.ltb _ _).
Qed.

Lemma handle_rideColl_wf i w :
  rideColl_wf (rideColl (db w)) → rideColl_wf (rideColl (db (handle i w).1)).
Proof.
  intros [Hnd Hst].
  pose proof (handle_presence_rides i w) as Hframe.
  destruct i;
    try (lazymatch type of Hframe with
         | _ ∧ _ => destruct Hframe as [_ ->]; by split
         end);
    cbn [handle].
  - destruct (bookRide_rides data callback e w)
      as [(-> & _) | (Hnone & _ & otp & -> & _)]; [by split|].
    split.
    + rewrite map_app. apply NoDup_app. split; [done|].
      split; [|apply NoDup_singleton].
      intros x Hx ->%list_elem_of_singleton. by apply findOne_None in Hnone.
    + apply Forall_app. split; [done|]. constructor; [by left | constructor].
  - destruct (acceptRide_rides sid data callback e w)
      as [_ [-> | (ride & _ & _ & ->)]]; [by split|].
    split; [by rewrite save_RAID_IDs|].
    unfold Ride.save. rewrite Forall_forall in *. intros x Hx.
    apply list_elem_of_In, in_map_iff in Hx as (r & <- & Hr).
    destruct (String.eqb _ _).
    + right. cbn [Ride.write Ride.status]. unfold acceptedDocument.
      by rewrite withContact_status.
    + apply Hst. by apply list_elem_of_In.
  - unfold rejectRide. destruct (rides w !! _); [|by split]. simpl_world.
    by destruct (JsMap.get _ _).
  - unfold completeRide. destruct (Completion.distance data); [|by split].
    destruct (rides w !! _); [|by split]. simpl_world.
    by destruct (JsMap.get _ _).
  - by destruct t.
Qed.

Lemma handle_working_wf i w : working_wf w → working_wf (handle i w).1.
Proof.
  intros Hwf.
  pose proof (handle_presence_rides i w) as Hframe.
  destruct i;
    try (lazymatch type of Hframe with
         | _ ∧ _ => destruct Hframe as [Hr Hc]; unfold working_wf; by rewrite Hr, Hc
         end);
    cbn [handle].
  - destruct (bookRide_rides data callback e w)
      as [(Hc & Hr & _) | (Hnone & Hreq & otp & Hc & Hr & _)];
      unfold working_wf; rewrite Hc, Hr; [done|].
    intros id r. destruct (decide (bookedId e w = id)) as [<-|Hne].
    + rewrite lookup_insert_eq. intros [= <-]. split; [done|]. split.
      * unfold Working.userId, workingCopy. cbn.
        unfold missingRequired in Hreq. rewrite !orb_false_iff in Hreq.
        destruct Hreq as [[[[H _] _] _] _]. by apply negb_false_iff in H.
      * fold (Ride.insert (rideData data (bookedId e w) otp (new_id e))
                (rideColl (db w))).
        rewrite findOne_insert_None by done. cbn [rideData Ride.RAID_ID].
        rewrite String.eqb_refl. by eexists.
    + rewrite lookup_insert_ne by done. intros Hid.
      destruct (Hwf _ _ Hid) as (? & ? & ?). repeat split; try done.
      by apply findOne_app_Some.
  - destruct (acceptRide_rides sid data callback e w)
      as [Hr [Hc | (ride & _ & _ & Hc)]];
      unfold working_wf; rewrite Hr, Hc; [done|].
    intros id r Hid. destruct (Hwf _ _ Hid) as (? & ? & ?).
    repeat split; try done. by apply findOne_save_Some.
  - unfold rejectRide.
    destruct (rides w !! Rejection.rideId data) as [ride|] eqn:Hride; [|done].
    assert (working_wf
              (with_rides (insert (Rejection.rideId data) (Working.reject now ride)) w))
      as Hwf'.
    { intros id r. simpl_world.
      destruct (decide (Rejection.rideId data = id)) as [<-|Hne].
      - rewrite lookup_insert_eq. intros [= <-]. apply (Hwf _ _ Hride).
      - rewrite lookup_insert_ne by done. apply Hwf. }
    simpl_world. by destruct (JsMap.get _ _).
  - unfold completeRide. destruct (Completion.distance data) as [dist|]; [|done].
    destruct (rides w !! Completion.rideId data) as [ride|] eqn:Hride; [|done].
    assert (working_wf
              (with_rides
                 (insert (Completion.rideId data) (Working.complete now dist ride)) w))
      as Hwf'.
    { intros id r. simpl_world.
      destruct (decide (Completion.rideId data = id)) as [<-|Hne].
      - rewrite lookup_insert_eq. intros [= <-]. apply (Hwf _ _ Hride).
      - rewrite lookup_insert_ne by done. apply Hwf. }
    simpl_world. by destruct (JsMap.get _ _).
  - destruct t as [rideId|room p]; [|done]. cbn [fireTimer fst].
    intros id r. simpl_world. intros Hid.
    apply lookup_delete_Some in Hid as [_ Hid]. by apply Hwf.
Qed.
End RideStore.

(** ** The ride store over time, and the outcome of an acceptance *)

Section RunInvariants.

Lemma run_invariant (P : World → Prop) :
  (∀ i w, P w → P (handle i w).1) →
  ∀ inputs w, P w → P (run inputs w).1.
Proof.
  intros Hstep inputs. induction inputs as [|i rest IH]; intros w Hw; [done|].
  cbn [run]. specialize (Hstep i w Hw). destruct (handle i w) as [w1 sent].
  specialize (IH w1 Hstep). by destruct (run rest w1).
Qed.

Lemma acceptStep_frame sid data callback e t w :
  let w' := (acceptStep sid data callback e t w).1.2 in
  rides w' = rides w ∧ processingRides w' = processingRides w ∧
  sockets w' = sockets w ∧ driverColl (db w') = driverColl (db w).
Proof.
  cbv zeta. destruct t; cbn [acceptStep].
  - destruct (ride_read e); [|done]. destruct (Ride.findOne _ _); [|done].
    by destruct (Ride.status _).
  - by destruct (driver_read e).
  - by destruct (ride_save e).
  - by destruct (JsMap.get _ _).
  - done.
Qed.

Lemma acceptRun_frame n sid data callback e t w :
  let w' := (acceptRun n sid data callback e t w).1 in
  rides w' = rides w ∧ processingRides w' = processingRides w ∧
  sockets w' = sockets w ∧ driverColl (db w') = driverColl (db w).
Proof.
  cbv zeta. revert t w. induction n as [|n IH]; intros t w; [done|].
  cbn [acceptRun].
  pose proof (acceptStep_frame sid data callback e t w) as Hs. cbv zeta in Hs.
  destruct (acceptStep sid data callback e t w) as [[t' w'] sent].
  cbn [fst snd] in Hs. specialize (IH t' w').
  destruct (acceptRun n sid data callback e t' w') as [w'' sent'].
  cbn [fst] in *. destruct Hs as (H1 & H2 & H3 & H4).
  rewrite <- H1, <- H2, <- H3, <- H4. exact IH.
Qed.

Lemma handle_processing i w :
  processingRides w = ∅ → processingRides (handle i w).1 = ∅.
Proof.
  intros Hw. destruct i; cbn [handle].
  - unfold registerDriver. destruct (Registration.driverId data); [|done].
    destruct (negb _); [done|]. destruct (_ || _); [done|].
    destruct (logDriverStatus _); by simpl_world.
  - unfold driverLocationUpdate. simpl_world.
    destruct (LocationUpdate.driverId data); [|done].
    destruct (knownDriver _ _); by simpl_world.
  - unfold onDriverLiveLocationUpdate.
    destruct (LiveUpdate.driverId data); [|done].
    destruct (knownDriver _ _); by simpl_world.
  - unfold driverHeartbeat. destruct driverId; [|done].
    destruct (knownDriver _ _); by simpl_world.
  - unfold registerUser. destruct (Js.truthy_str _); by simpl_world.
  - unfold joinRoom. destruct (Js.truthy_str _); by simpl_world.
  - rewrite bookRide_processing, Hw. apply set_eq. intros x.
    rewrite elem_of_difference. split; [by intros [? _] | intros H].
    by apply not_elem_of_empty in H.
  - unfold acceptRide.
    destruct (acceptRun_frame 4 sid data callback e AwaitRide w) as (_ & H & _).
    by rewrite H.
  - unfold rejectRide. destruct (rides w !! _); [|done]. simpl_world.
    destruct (JsMap.get _ _); by simpl_world.
  - unfold completeRide. destruct (Completion.distance data); [|done].
    destruct (rides w !! _); [|done]. simpl_world.
    destruct (JsMap.get _ _); by simpl_world.
  - unfold disconnect. destruct (find _ _); [|done].
    destruct (Js.truthy_str _); [|by simpl_world]. simpl_world.
    destruct (JsMap.get _ _); by simpl_world.
  - unfold cleanupOfflineDrivers. destruct (Nat.ltb _ _); by simpl_world.
  - destruct t; by simpl_world.
Qed.

(** X14: whatever the server has handled since it started, each input
    handled to its end before the next, every ride of the working set
    is filed under its own identifier, belongs to a user with a
    non-empty id and has a document in the [Ride] collection, and
    [processingRides] is empty. *)
Theorem working_reachable inputs connections d :
  let w := (run inputs (started connections d)).1 in
  working_wf w ∧ processingRides w = ∅.
Proof.
  cbv zeta.
  apply (run_invariant (λ w, working_wf w ∧ processingRides w = ∅)).
  - intros i w [H1 H2]. split; [by apply handle_working_wf | by apply handle_processing].
  - split; [|done]. intros id r. unfold started. simpl_world.
    by rewrite lookup_empty.
Qed.

(** X15: started on a [Ride] collection that holds each identifier
    once and only pending or accepted rides, the server keeps it so
    whatever it handles, each input handled to its end before the
    next: no handler writes a rejection or a completion to the
    collection, and none stores an identifier twice. *)
Theorem stored_rides_stay_open inputs connections d :
  rideColl_wf (rideColl d) →
  rideColl_wf (rideColl (db (run inputs (started connections d)).1)).
Proof.
  intros Hd.
  apply (run_invariant (λ w, rideColl_wf (rideColl (db w)))); [|done].
  intros i w. apply handle_rideColl_wf.
Qed.
End RunInvariants.


Section AcceptanceOutcome.

(** The ways an [acceptRide] can end. *)
Lemma acceptRide_cases sid data callback e w :
  (∃ sent, acceptRide sid data callback e w = (w, sent) ∧
           announcesAcceptance sent = false) ∨
  (∃ ride,
     ride_read e = Resolves ∧ driver_read e = Resolves ∧
     ride_save e = Resolves ∧
     Ride.findOne (Acceptance.rideId data) (rideColl (db w)) = Some ride ∧
     Ride.status ride ≠ accepted).
Proof.
  assert (∀ m, ∃ sent,
            (w, (ack callback (AckFail m) ++ [])%list) = (w, sent) ∧
            announcesAcceptance sent = false)
    as Hfail.
  { intros m. eexists. split; [done|]. by destruct callback. }
  unfold acceptRide. rewrite acceptRun_S. cbn [acceptStep].
  destruct (ride_read e) as [|err] eqn:Hread;
    [|left; rewrite acceptRun_settled; apply Hfail].
  destruct (Ride.findOne _ _) as [ride|] eqn:Hfind;
    [|left; rewrite acceptRun_settled; apply Hfail].
  assert (Ride.status ride = accepted ∨ Ride.status ride ≠ accepted)
    as [Hst|Hst] by (destruct (Ride.status ride); first [by left | by right]).
  - left. rewrite Hst, acceptRun_settled. eexists. split; [done|].
    by destruct callback.
  - assert (∀ A (x y : A),
              match Ride.status ride with accepted => x | _ => y end = y) as Hm.
    { intros A x y. by destruct (Ride.status ride). }
    rewrite Hm. clear Hm.
    rewrite acceptRun_S. cbn [acceptStep].
    destruct (driver_read e) as [|err] eqn:Hdriver;
      [|left; rewrite acceptRun_settled; apply Hfail].
    rewrite acceptRun_S. cbn [acceptStep].
    destruct (ride_save e) as [|err] eqn:Hsave;
      [|left; rewrite acceptRun_settled; apply Hfail].
    right. by exists ride.
Qed.

Lemma acceptedAck_announces sent :
  acceptedAck sent = true → announcesAcceptance sent = true.
Proof.
  unfold acceptedAck, announcesAcceptance. rewrite !existsb_exists.
  intros (x & Hx & H). exists x. split; [done|].
  destruct x as [t ev|[| |]]; try done.
Qed.

(** X16: [acceptRide] either changes nothing and announces no
    acceptance (no acknowledgement of success, no [rideAccepted], no
    [rideAcceptedGlobal]), or leaves the ride stored as accepted and
    bound to the calling driver, whom it acknowledges when there is a
    callback. *)
Theorem acceptRide_all_or_nothing sid data callback e w :
  let rideId := Acceptance.rideId data in
  let w' := (acceptRide sid data callback e w).1 in
  let sent := (acceptRide sid data callback e w).2 in
  (w' = w ∧ announcesAcceptance sent = false) ∨
  (∃ stored,
     Ride.findOne rideId (rideColl (db w')) = Some stored ∧
     Ride.status stored = accepted ∧
     Ride.driverId stored = Some (Acceptance.driverId data) ∧
     (callback = true → acceptedAck sent = true)).
Proof.
  cbv zeta.
  destruct (acceptRide_cases sid data callback e w)
    as [(sent & -> & Hno) | (ride & Hr & Hd & Hs & Hfind & Hst)];
    [by left | right].
  destruct (acceptRide_accepts sid data callback e w ride Hr Hd Hs Hfind Hst)
    as [Hdb Hsent].
  exists (Ride.write (acceptedDocument data e w ride) ride).
  rewrite Hdb. cbn [with_rideColl rideColl]. split.
  { apply findOne_save; [done|]. unfold acceptedDocument.
    by rewrite withContact_id. }
  cbn [Ride.write Ride.status Ride.driverId]. unfold acceptedDocument.
  rewrite withContact_status, withContact_driverId.
  split; [done|]. split; [done|].
  intros ->. rewrite Hsent. cbn [ack app acceptedAck existsb].
  cbn [makeDriverData DriverData.status]. unfold acceptedDocument.
  by rewrite withContact_status.
Qed.

End AcceptanceOutcome.


Section RaceWindow.
Variables c1 c2 : AcceptCall.

Lemma acceptedAck_app l1 l2 :
  acceptedAck (l1 ++ l2) = acceptedAck l1 || acceptedAck l2.
Proof. apply existsb_app. Qed.

Lemma announces_app l1 l2 :
  announcesAcceptance (l1 ++ l2) =
  announcesAcceptance l1 || announcesAcceptance l2.
Proof. apply existsb_app. Qed.

Lemma turns_cons who t rest :
  turns who (t :: rest) =
  ((match who, t with
    | First, First | Second, Second => 1
    | _, _ => 0
    end) + turns who rest)%nat.
Proof. unfold turns. cbn [List.filter]. by destruct who, t. Qed.

Lemma turns_app who l1 l2 :
  turns who (l1 ++ l2) = (turns who l1 + turns who l2)%nat.
Proof. unfold turns. by rewrite List.filter_app, length_app. Qed.

(** Once the first handler has read the ride as open, it acknowledges
    the acceptance whatever the other handler does in between. *)
Lemma acceptTwo_committed_first rest t1 t2 w :
  driver_read (call_env c1) = Resolves → ride_save (call_env c1) = Resolves →
  call_callback c1 = true →
  committed t1 → (stepsToAck t1 ≤ turns First rest)%nat →
  acceptedAck (acceptTwo rest c1 c2 t1 t2 w).1.2 = true.
Proof.
  intros Hd Hs Hcb. revert t1 t2 w.
  induction rest as [|t rest IH]; intros t1 t2 w Hc Hn.
  { destruct t1; cbn in Hc, Hn; try done; lia. }
  rewrite turns_cons in Hn. destruct t; cbn [acceptTwo].
  - destruct t1 as [|r|r d| |]; try done; cbn [acceptStep].
    + rewrite Hd. specialize (IH (AwaitSave (withContact (call_env c1)
                 (Driver.findOne (Acceptance.driverId (call_data c1))
                    (driverColl (db w))) r)
                 (Driver.findOne (Acceptance.driverId (call_data c1))
                    (driverColl (db w)))) t2 w).
      destruct (acceptTwo rest _ _ _ _ _) as [[w'' s1] s2]. cbn [fst snd app] in *.
      apply IH; [cbn [committed]; by rewrite withContact_status | cbn in *; lia].
    + rewrite Hs, Hcb.
      destruct (acceptTwo rest _ _ _ _ _) as [[w'' s1] s2]. cbn [fst snd].
      cbn [ack app acceptedAck existsb makeDriverData DriverData.status].
      cbn in Hc. by rewrite Hc.
  - destruct (acceptStep _ _ _ _ t2 w) as [[t2' w'] sent].
    specialize (IH t1 t2' w' Hc).
    destruct (acceptTwo rest _ _ _ _ _) as [[w'' s1] s2]. cbn [fst snd] in *.
    apply IH. lia.
Qed.

Lemma acceptTwo_committed_second rest t1 t2 w :
  driver_read (call_env c2) = Resolves → ride_save (call_env c2) = Resolves →
  call_callback c2 = true →
  committed t2 → (stepsToAck t2 ≤ turns Second rest)%nat →
  acceptedAck (acceptTwo rest c1 c2 t1 t2 w).2 = true.
Proof.
  intros Hd Hs Hcb. revert t1 t2 w.
  induction rest as [|t rest IH]; intros t1 t2 w Hc Hn.
  { destruct t2; cbn in Hc, Hn; try done; lia. }
  rewrite turns_cons in Hn. destruct t; cbn [acceptTwo].
  - destruct (acceptStep _ _ _ _ t1 w) as [[t1' w'] sent].
    specialize (IH t1' t2 w' Hc).
    destruct (acceptTwo rest _ _ _ _ _) as [[w'' s1] s2]. cbn [fst snd] in *.
    apply IH. lia.
  - destruct t2 as [|r|r d| |]; try done; cbn [acceptStep].
    + rewrite Hd. specialize (IH t1 (AwaitSave (withContact (call_env c2)
                 (Driver.findOne (Acceptance.driverId (call_data c2))
                    (driverColl (db w))) r)
                 (Driver.findOne (Acceptance.driverId (call_data c2))
                    (driverColl (db w)))) w).
      destruct (acceptTwo rest _ _ _ _ _) as [[w'' s1] s2]. cbn [fst snd app] in *.
      apply IH; [cbn [committed]; by rewrite withContact_status | cbn in *; lia].
    + rewrite Hs, Hcb.
      destruct (acceptTwo rest _ _ _ _ _) as [[w'' s1] s2]. cbn [fst snd].
      cbn [ack app acceptedAck existsb makeDriverData DriverData.status].
      cbn in Hc. by rewrite Hc.
Qed.

(** While neither handler has had its third turn, nothing is written:
    a handler that has had a turn has read the ride as open. *)
Lemma acceptTwo_before_save pre rest t1 t2 w ride :
  Acceptance.rideId (call_data c2) = Acceptance.rideId (call_data c1) →
  ride_read (call_env c1) = Resolves → driver_read (call_env c1) = Resolves →
  ride_read (call_env c2) = Resolves → driver_read (call_env c2) = Resolves →
  Ride.findOne (Acceptance.rideId (call_data c1)) (rideColl (db w)) = Some ride →
  Ride.status ride ≠ accepted →
  (t1 = AwaitRide ∨ committed t1) → (t2 = AwaitRide ∨ committed t2) →
  (turns First pre + (3 - stepsToAck t1) ≤ 2)%nat →
  (turns Second pre + (3 - stepsToAck t2) ≤ 2)%nat →
  ∃ t1' t2',
    acceptTwo (pre ++ rest) c1 c2 t1 t2 w =
      acceptTwo rest c1 c2 t1' t2' w ∧
    (t1' = AwaitRide ∨ committed t1') ∧ (t2' = AwaitRide ∨ committed t2') ∧
    (stepsToAck t1' + turns First pre = stepsToAck t1)%nat ∧
    (stepsToAck t2' + turns Second pre = stepsToAck t2)%nat.
Proof.
  intros Hid Hr1 Hd1 Hr2 Hd2 Hfind Hst.
  assert (∀ A (x y : A),
            match Ride.status ride with accepted => x | _ => y end = y) as Hm.
  { intros A x y. by destruct (Ride.status ride). }
  revert t1 t2. induction pre as [|t pre IH]; intros t1 t2 Ht1 Ht2 Hn1 Hn2.
  { exists t1, t2. cbn [app]. unfold turns. cbn. repeat split; try done; lia. }
  rewrite turns_cons in Hn1, Hn2. cbn [app]. destruct t.
  - destruct Ht1 as [->|Hc].
    + edestruct (IH (AwaitDriver (Ride.accept (Some (Acceptance.driverId (call_data c1)))
                    (Acceptance.driverName (call_data c1)) ride)) t2)
        as (t1' & t2' & Heq & H1 & H2 & H3 & H4);
        [by right | done | cbn in *; lia | cbn in *; lia |].
      exists t1', t2'. cbn [acceptTwo acceptStep]. rewrite Hr1, Hfind, Hm.
      rewrite Heq. destruct (acceptTwo rest _ _ _ _ _) as [[w'' s1] s2].
      rewrite !turns_cons. cbn in *. repeat split; try done; lia.
    + destruct t1 as [|r|r d| |]; try done; [|cbn in Hn1; lia].
      edestruct (IH (AwaitSave (withContact (call_env c1)
                 (Driver.findOne (Acceptance.driverId (call_data c1))
                    (driverColl (db w))) r)
                 (Driver.findOne (Acceptance.driverId (call_data c1))
                    (driverColl (db w)))) t2)
        as (t1' & t2' & Heq & H1 & H2 & H3 & H4);
        [right; cbn [committed]; by rewrite withContact_status | done
        | cbn in *; lia | cbn in *; lia |].
      exists t1', t2'. cbn [acceptTwo acceptStep]. rewrite Hd1.
      rewrite Heq. destruct (acceptTwo rest _ _ _ _ _) as [[w'' s1] s2].
      rewrite !turns_cons. cbn in *. repeat split; try done; lia.
  - destruct Ht2 as [->|Hc].
    + edestruct (IH t1 (AwaitDriver (Ride.accept (Some (Acceptance.driverId (call_data c2)))
                    (Acceptance.driverName (call_data c2)) ride)))
        as (t1' & t2' & Heq & H1 & H2 & H3 & H4);
        [done | by right | cbn in *; lia | cbn in *; lia |].
      exists t1', t2'. cbn [acceptTwo acceptStep]. rewrite Hr2, Hid, Hfind, Hm.
      rewrite Heq. destruct (acceptTwo rest _ _ _ _ _) as [[w'' s1] s2].
      rewrite !turns_cons. cbn in *. repeat split; try done; lia.
    + destruct t2 as [|r|r d| |]; try done; [|cbn in Hn2; lia].
      edestruct (IH t1 (AwaitSave (withContact (call_env c2)
                 (Driver.findOne (Acceptance.driverId (call_data c2))
                    (driverColl (db w))) r)
                 (Driver.findOne (Acceptance.driverId (call_data c2))
                    (driverColl (db w)))))
        as (t1' & t2' & Heq & H1 & H2 & H3 & H4);
        [done | right; cbn [committed]; by rewrite withContact_status
        | cbn in *; lia | cbn in *; lia |].
      exists t1', t2'. cbn [acceptTwo acceptStep]. rewrite Hd2.
      rewrite Heq. destruct (acceptTwo rest _ _ _ _ _) as [[w'' s1] s2].
      rewrite !turns_cons. cbn in *. repeat split; try done; lia.
Qed.

(** X17: two acceptances of one open ride, with MongoDB answering.
    When each handler has had its first turn before the other has had
    its third, that is, when both have read the ride before either
    saves it, and each gets at least three turns, both are
    acknowledged as accepted. *)
Theorem acceptTwo_overlapping_lookups pre rest w ride :
  Acceptance.rideId (call_data c2) = Acceptance.rideId (call_data c1) →
  ride_read (call_env c1) = Resolves → driver_read (call_env c1) = Resolves →
  ride_save (call_env c1) = Resolves →
  ride_read (call_env c2) = Resolves → driver_read (call_env c2) = Resolves →
  ride_save (call_env c2) = Resolves →
  call_callback c1 = true → call_callback c2 = true →
  Ride.findOne (Acceptance.rideId (call_data c1)) (rideColl (db w)) = Some ride →
  Ride.status ride ≠ accepted →
  (1 ≤ turns First pre ≤ 2)%nat → (1 ≤ turns Second pre ≤ 2)%nat →
  (3 ≤ turns First (pre ++ rest))%nat → (3 ≤ turns Second (pre ++ rest))%nat →
  let '(w', sent1, sent2) :=
    acceptTwo (pre ++ rest) c1 c2 AwaitRide AwaitRide w in
  acceptedAck sent1 = true ∧ acceptedAck sent2 = true.
Proof.
  intros Hid Hr1 Hd1 Hs1 Hr2 Hd2 Hs2 Hcb1 Hcb2 Hfind Hst Hp1 Hp2 Hn1 Hn2.
  destruct (acceptTwo_before_save pre rest AwaitRide AwaitRide w ride)
    as (t1 & t2 & Heq & H1 & H2 & H3 & H4); try done;
    [by left | by left | cbn; lia | cbn; lia |].
  rewrite Heq. rewrite turns_app in Hn1, Hn2. cbn in H3, H4.
  destruct H1 as [->|Hc1]; [cbn in H3; lia|].
  destruct H2 as [->|Hc2]; [cbn in H4; lia|].
  pose proof (acceptTwo_committed_first rest t1 t2 w Hd1 Hs1 Hcb1 Hc1
                ltac:(lia)) as Ha.
  pose proof (acceptTwo_committed_second rest t1 t2 w Hd2 Hs2 Hcb2 Hc2
                ltac:(lia)) as Hb.
  by destruct (acceptTwo rest c1 c2 t1 t2 w) as [[w' s1] s2].
Qed.

(** After the first handler has saved the ride, nothing the second
    handler can still do announces an acceptance, and the stored ride
    is not written again. *)
Lemma acceptTwo_after_save rest t1 t2 w stored :
  Acceptance.rideId (call_data c2) = Acceptance.rideId (call_data c1) →
  Ride.findOne (Acceptance.rideId (call_data c1)) (rideColl (db w)) = Some stored →
  Ride.status stored = accepted →
  match t1 with AwaitSockets _ _ | Settled => True | _ => False end →
  match t2 with AwaitRide | Settled => True | _ => False end →
  let '(w', sent1, sent2) := acceptTwo rest c1 c2 t1 t2 w in
  rideColl (db w') = rideColl (db w) ∧ announcesAcceptance sent2 = false.
Proof.
  intros Hid. revert t1 t2 w.
  induction rest as [|t rest IH]; intros t1 t2 w Hfind Hst Ht1 Ht2; [done|].
  destruct t; cbn [acceptTwo].
  - destruct t1 as [| | |r dd|]; try done; cbn [acceptStep].
    + match goal with
      | |- context [acceptTwo rest c1 c2 Settled t2 ?w1] =>
          specialize (IH Settled t2 w1)
      end.
      destruct (acceptTwo rest _ _ _ _ _) as [[w'' s1] s2].
      assert (∀ x : World,
                rideColl (db match JsMap.get (Acceptance.driverId (call_data c1))
                                     (activeDriverSockets x) with
                             | Some driverInfo =>
                                 with_presence
                                   (JsMap.set (Acceptance.driverId (call_data c1))
                                      (Presence.set_status "onRide" driverInfo)) x
                             | None => x
                             end) = rideColl (db x)) as Hx.
      { intros x. destruct (JsMap.get _ (activeDriverSockets x)); by simpl_world. }
      rewrite Hx in IH. simpl_world. by apply IH.
    + specialize (IH Settled t2 w Hfind Hst I Ht2).
      by destruct (acceptTwo rest _ _ _ _ _) as [[w'' s1] s2].
  - destruct t2 as [| | | |]; try done; cbn [acceptStep].
    + destruct (ride_read (call_env c2)).
      * rewrite Hid, Hfind, Hst.
        specialize (IH t1 Settled w Hfind Hst Ht1 I).
        destruct (acceptTwo rest _ _ _ _ _) as [[w'' s1] s2].
        split; [apply IH|]. rewrite announces_app.
        destruct IH as [_ ->]. by destruct (call_callback c2).
      * specialize (IH t1 Settled w Hfind Hst Ht1 I).
        destruct (acceptTwo rest _ _ _ _ _) as [[w'' s1] s2].
        split; [apply IH|]. rewrite announces_app.
        destruct IH as [_ ->]. unfold acceptRide_catch.
        by destruct (call_callback c2).
    + specialize (IH t1 Settled w Hfind Hst Ht1 I).
      by destruct (acceptTwo rest _ _ _ _ _) as [[w'' s1] s2].
Qed.

(** X18: two acceptances of one open ride.  When the first handler
    has had three turns, so that it has saved the ride, before the
    second gets its first, the second announces no acceptance, whatever
    the rest of the schedule and whatever MongoDB answers it, and the
    ride stays bound to the first driver. *)
Theorem acceptTwo_late_lookup rest w ride :
  Acceptance.rideId (call_data c2) = Acceptance.rideId (call_data c1) →
  ride_read (call_env c1) = Resolves → driver_read (call_env c1) = Resolves →
  ride_save (call_env c1) = Resolves →
  Ride.findOne (Acceptance.rideId (call_data c1)) (rideColl (db w)) = Some ride →
  Ride.status ride ≠ accepted →
  let '(w', sent1, sent2) :=
    acceptTwo (First :: First :: First :: rest) c1 c2 AwaitRide AwaitRide w in
  (call_callback c1 = true → acceptedAck sent1 = true) ∧
  announcesAcceptance sent2 = false ∧
  Ride.driverId <$>
    Ride.findOne (Acceptance.rideId (call_data c1)) (rideColl (db w')) =
    Some (Some (Acceptance.driverId (call_data c1))).
Proof.
  intros Hid Hr1 Hd1 Hs1 Hfind Hst.
  assert (∀ A (x y : A),
            match Ride.status ride with accepted => x | _ => y end = y) as Hm.
  { intros A x y. by destruct (Ride.status ride). }
  do 3 (cbn [acceptTwo acceptStep]; rewrite ?Hr1, ?Hfind, ?Hm, ?Hd1, ?Hs1).
  fold (acceptedDocument (call_data c1) (call_env c1) w ride).
  set (saved := acceptedDocument (call_data c1) (call_env c1) w ride).
  assert (Ride.findOne (Acceptance.rideId (call_data c1))
            (rideColl (db (with_db (with_rideColl (Ride.save saved)) w))) =
          Some (Ride.write saved ride)) as Hfind'.
  { simpl_world. apply findOne_save; [done|]. unfold saved, acceptedDocument.
    by rewrite withContact_id. }
  match goal with
  | |- context [acceptTwo rest c1 c2 ?t1 AwaitRide ?w1] =>
      pose proof (acceptTwo_after_save rest t1 AwaitRide w1
                    (Ride.write saved ride) Hid Hfind') as Hrest
  end.
  destruct (acceptTwo rest _ _ _ _ _) as [[w' s1] s2].
  destruct Hrest as [Hcoll Hno]; [|done|done|].
  { cbn [Ride.write Ride.status]. unfold saved, acceptedDocument.
    by rewrite withContact_status. }
  split; [|split; [done|]].
  - intros ->. cbn [ack app acceptedAck existsb makeDriverData DriverData.status].
    unfold saved, acceptedDocument. by rewrite withContact_status.
  - rewrite Hcoll, Hfind'. cbn [fmap option_fmap option_map Ride.write Ride.driverId].
    unfold saved, acceptedDocument. by rewrite withContact_driverId.
Qed.
End RaceWindow.

(** ** From booking to acceptance *)

Section Journey.
Import Js JsFacts.

Lemma truthy_str_length s :
  (0 < String.length s)%nat → Js.truthy_str (Some s) = true.
Proof. by destruct s; [cbn; lia|]. Qed.

Lemma truthy_bookingOtp customerId random :
  (1000 ≤ random ≤ 9999)%N →
  Js.truthy_str (Some (bookingOtp customerId random)) = true.
Proof.
  intros Hr. apply truthy_str_length.
  assert (String.length (N_toString random) = 4%nat) as Hlen.
  { apply (length_N_toString_eq _ 3).
    - change (10 ^ N.of_nat 3)%N with 1000%N. lia.
    - change (10 ^ N.of_nat 4)%N with 10000%N. lia. }
  unfold bookingOtp. destruct customerId as [c|]; [|lia].
  destruct (_ && _) eqn:Hc; [|lia].
  apply andb_true_iff in Hc as [_ Hc%Nat.leb_le].
  rewrite length_slice_last; lia.
Qed.

(** X19: a booking that is stored and then accepted.  The rider is
    acknowledged with an OTP, the accepting driver is acknowledged with
    the same OTP under the same ride identifier, the acceptance goes to
    the room of the rider who booked, and the working copy of the ride
    still says pending. *)
Theorem book_then_accept data cb e w sid acc cb' ea :
  missingRequired data = false →
  bookedId e w ∉ processingRides w →
  ride_lookup e = Resolves → validation e = Resolves →
  ride_insert e = Resolves →
  Ride.findOne (bookedId e w) (rideColl (db w)) = None →
  (1000 ≤ book_random e ≤ 9999)%N →
  Acceptance.rideId acc = bookedId e w →
  ride_read ea = Resolves → driver_read ea = Resolves →
  ride_save ea = Resolves →
  let otp := bookingOtp (Booking.customerId data) (book_random e) in
  let booked := bookRide data cb e w in
  let taken := acceptRide sid acc cb' ea booked.1 in
  (cb = true →
   Ack (BookOk (bookedId e w) (new_id e) (Some otp) "Ride booked successfully!")
     ∈ booked.2) ∧
  ∃ p,
    (cb' = true → Ack (AcceptOk p) ∈ taken.2) ∧
    Emit (ToRoom (default "" (Booking.userId data))) (rideAccepted p) ∈ taken.2 ∧
    DriverData.rideId p = bookedId e w ∧
    DriverData.otp p = Some otp ∧
    DriverData.driverId p = Acceptance.driverId acc ∧
    DriverData.status p = accepted ∧
    workingStatus (bookedId e w) taken.1 = Some pending.
Proof.
  intros Hreq Hfree Hlook Hval Hins Hnone Hrand Hid Hr Hd Hs. cbv zeta.
  destruct (bookRide_stores data cb e w Hreq Hfree Hlook Hval Hins Hnone)
    as (_ & Hfind & Hrides & Hsent).
  cbv zeta in Hfind, Hrides, Hsent. split.
  { intros ->. rewrite Hsent. cbn [ack]. apply elem_of_cons. right.
    apply elem_of_cons. by left. }
  assert (Ride.findOne (Acceptance.rideId acc)
            (rideColl (db (bookRide data cb e w).1)) =
          Some (rideData data (bookedId e w)
                  (bookingOtp (Booking.customerId data) (book_random e))
                  (new_id e))) as Hfind' by (by rewrite Hid).
  destruct (acceptRide_accepts sid acc cb' ea (bookRide data cb e w).1 _
              Hr Hd Hs Hfind' ltac:(done)) as [_ Hacc].
  cbv zeta in Hacc. eexists. rewrite Hacc. split; [|split].
  { intros ->. cbn [ack app]. apply elem_of_cons. by left. }
  { rewrite !elem_of_app. right. left. cbn [rideData Ride.user].
    apply elem_of_cons. by left. }
  cbn [makeDriverData DriverData.rideId DriverData.otp DriverData.driverId
         DriverData.status].
  unfold acceptedDocument.
  rewrite withContact_status. unfold withContact.
  cbn [Ride.set_driverMobile Ride.accept Ride.otp rideData Ride.RAID_ID
         Ride.status].
  rewrite truthy_bookingOtp by done.
  cbn [Ride.otp Ride.RAID_ID]. repeat split.
  unfold workingStatus, acceptRide.
  destruct (acceptRun_frame 4 sid acc cb' ea AwaitRide (bookRide data cb e w).1)
    as (Hsame & _).
  rewrite Hsame, Hrides, lookup_insert_eq. done.
Qed.

Lemma driverSocket_eq driverId l1 l2 :
  l1 = l2 → driverSocket driverId l1 = driverSocket driverId l2.
Proof. by intros ->. Qed.

(** X20: [userLocationUpdate] relays nothing for a ride no driver is
    bound to.  Once [acceptRide] has bound a driver, it relays the
    rider's position once: to that driver's connection when there is
    one, to the room ["driver_<id>"] otherwise. *)
Theorem userLocationUpdate_relay loc now sid acc cb e w ride :
  UserLocation.rideId loc = Acceptance.rideId acc →
  ride_read e = Resolves → driver_read e = Resolves →
  ride_save e = Resolves →
  Ride.findOne (Acceptance.rideId acc) (rideColl (db w)) = Some ride →
  Ride.status ride ≠ accepted →
  Js.truthy_str (Ride.driverId ride) = false →
  Acceptance.driverId acc ≠ "" →
  let driverId := Acceptance.driverId acc in
  let position :=
    userLiveLocationUpdate
      {| RiderPosition.userId := UserLocation.userId loc;
         RiderPosition.rideId := UserLocation.rideId loc;
         RiderPosition.lat := UserLocation.latitude loc;
         RiderPosition.lng := UserLocation.longitude loc;
         RiderPosition.timestamp := now |} in
  userLocationUpdate loc Resolves now w = [] ∧
  userLocationUpdate loc Resolves now (acceptRide sid acc cb e w).1 =
    [(match driverSocket driverId (sockets w) with
      | Some s => ToSocket (Socket.id s)
      | None => ToRoom ("driver_" +:+ driverId)
      end, position)].
Proof.
  intros Hid Hr Hd Hs Hfind Hst Hnone Hdrv. cbv zeta.
  unfold userLocationUpdate. rewrite Hid, Hfind, Hnone. split; [done|].
  destruct (acceptRide_accepts sid acc cb e w ride Hr Hd Hs Hfind Hst)
    as [Hdb _].
  cbv zeta in Hdb. rewrite Hdb. cbn [with_rideColl rideColl].
  rewrite (findOne_save _ _ ride) by
    (done || (unfold acceptedDocument; by rewrite withContact_id)).
  cbn [Ride.write Ride.driverId]. unfold acceptedDocument.
  rewrite withContact_driverId. cbn [Ride.accept Ride.driverId Js.truthy_str].
  apply String.eqb_neq in Hdrv. rewrite Hdrv. cbn [negb default].
  unfold acceptRide.
  destruct (acceptRun_frame 4 sid acc cb e AwaitRide w) as (_ & _ & -> & _).
  by destruct (driverSocket _ _).
Qed.

Lemma inRoom_join room s : Socket.inRoom room (joinSocket room s) = true.
Proof.
  unfold Socket.inRoom, joinSocket. cbn [Socket.rooms].
  rewrite existsb_app. cbn [existsb]. rewrite String.eqb_refl.
  by rewrite orb_true_r.
Qed.

Lemma joined_in_room sid room l s :
  s ∈ l → Socket.id s = sid →
  joinSocket room s ∈
    List.filter (Socket.inRoom room) (updateSocket sid (joinSocket room) l).
Proof.
  intros Hs Hid. apply list_elem_of_In, filter_In. split; [|apply inRoom_join].
  unfold updateSocket. apply in_map_iff. exists s.
  rewrite Hid, String.eqb_refl. split; [done|]. by apply list_elem_of_In.
Qed.

(** X21: a connection that has sent [registerUser] or [joinRoom] with
    the rider's id is sent [rideAccepted] directly when a ride of that
    rider is accepted. *)
Theorem joined_rider_is_told sid sid' userId acc cb e w ride s :
  s ∈ sockets w → Socket.id s = sid →
  userId ≠ "" → Ride.user ride = userId →
  ride_read e = Resolves → driver_read e = Resolves →
  ride_save e = Resolves →
  Ride.findOne (Acceptance.rideId acc) (rideColl (db w)) = Some ride →
  Ride.status ride ≠ accepted →
  let p :=
    makeDriverData acc (acceptedDocument acc e w ride)
      (Driver.findOne (Acceptance.driverId acc) (driverColl (db w)))
      (accept_now e) in
  Emit (ToSocket sid) (rideAccepted p)
    ∈ (acceptRide sid' acc cb e (registerUser sid (Some userId) w)).2 ∧
  Emit (ToSocket sid) (rideAccepted p)
    ∈ (acceptRide sid' acc cb e (joinRoom sid (Some userId) w)).2.
Proof.
  intros Hs Hsid Hu Huser Hr Hd Hsv Hfind Hst. cbv zeta.
  assert (registerUser sid (Some userId) w =
          with_sockets (updateSocket sid (joinSocket userId)) w) as ->.
  { unfold registerUser. cbn [Js.truthy_str].
    apply String.eqb_neq in Hu. by rewrite Hu. }
  assert (joinRoom sid (Some userId) w =
          with_sockets (updateSocket sid (joinSocket userId)) w) as ->.
  { unfold joinRoom. cbn [Js.truthy_str].
    apply String.eqb_neq in Hu. by rewrite Hu. }
  assert (Emit (ToSocket sid)
            (rideAccepted (makeDriverData acc (acceptedDocument acc e w ride)
               (Driver.findOne (Acceptance.driverId acc) (driverColl (db w)))
               (accept_now e)))
          ∈ (acceptRide sid' acc cb e
               (with_sockets (updateSocket sid (joinSocket userId)) w)).2);
    [|done].
  destruct (acceptRide_accepts sid' acc cb e
              (with_sockets (updateSocket sid (joinSocket userId)) w) ride
              Hr Hd Hsv Hfind Hst) as [_ Hsent].
  cbv zeta in Hsent. rewrite Hsent. simpl_world.
  rewrite !elem_of_app. right. right. left.
  apply list_elem_of_In, in_map_iff. exists (joinSocket userId s).
  split; [by rewrite <- Hsid|]. apply list_elem_of_In. rewrite Huser.
  by apply joined_in_room.
Qed.
End Journey.

(** ** Acknowledgements, and what an acceptance depends on *)

Section Answers.

Lemma acks_app l1 l2 : acks (l1 ++ l2) = (acks l1 ++ acks l2)%list.
Proof. apply flat_map_app. Qed.

(** X22: called with a callback, [bookRide] acknowledges exactly once,
    except on one path: a duplicate-key error on [RAID_ID] followed by
    a lookup that finds no ride, where it does not answer at all. *)
Theorem bookRide_answers data e w :
  let sent := (bookRide data true e w).2 in
  (∃ p, acks sent = [p]) ∨
  (acks sent = [] ∧
   ride_relookup e = Resolves ∧
   Ride.findOne (bookedId e w) (rideColl (db w)) = None ∧
   ∃ m, Rejects (DuplicateKey m true)
          ∈ [ride_lookup e; validation e; ride_insert e]).
Proof.
  cbv zeta. unfold bookRide, bookedId, bookRide_try.
  destruct (generateSequentialRaidId _ _) as [rideId seq]. simpl_world.
  assert (∀ r err,
            r = Rejects err → r ∈ [ride_lookup e; validation e; ride_insert e] →
            Ride.findOne rideId (rideColl (db w)) = None →
            (∃ p, acks ([] ++ bookRide_catch true e rideId err
                            (with_processing (λ s, {[rideId]} ∪ s)
                               (with_db (with_raidSeq seq) w))) = [p]) ∨
            (acks ([] ++ bookRide_catch true e rideId err
                      (with_processing (λ s, {[rideId]} ∪ s)
                         (with_db (with_raidSeq seq) w))) = [] ∧
             ride_relookup e = Resolves ∧
             Ride.findOne rideId (rideColl (db w)) = None ∧
             ∃ m, Rejects (DuplicateKey m true)
                    ∈ [ride_lookup e; validation e; ride_insert e])) as Hcatch.
  { intros r err -> Hin Hnone. cbn [app]. unfold bookRide_catch.
    destruct err as [m errs|m [|]|m]; try (left; by eexists).
    destruct (ride_relookup e) eqn:Hre; [|left; by eexists].
    simpl_world. rewrite Hnone. right. repeat split; try done. by exists m. }
  destruct (decide _); simpl_world; [left; by eexists|].
  destruct (missingRequired data); simpl_world; [left; by eexists|].
  destruct (ride_lookup e) as [|err] eqn:Hlook; simpl_world.
  - destruct (Ride.findOne _ _) eqn:Hfind; simpl_world; [left; by eexists|].
    destruct (validation e) as [|err] eqn:Hval; simpl_world.
    + destruct (ride_insert e) as [|err] eqn:Hins; simpl_world;
        [left; by eexists|].
      apply (Hcatch _ err eq_refl); [|done].
      do 2 (apply elem_of_cons; right). apply elem_of_cons. by left.
    + apply (Hcatch _ err eq_refl); [|done].
      apply elem_of_cons; right. apply elem_of_cons. by left.
  - destruct (Ride.findOne rideId (rideColl (db w))) eqn:Hfind.
    + left. unfold bookRide_catch. cbn [app].
      destruct err as [m errs|m [|]|m]; try by eexists.
      destruct (ride_relookup e); [|by eexists]. simpl_world. rewrite Hfind.
      by eexists.
    + apply (Hcatch _ err eq_refl); [|done]. apply elem_of_cons. by left.
Qed.
End Answers.

Section AcceptanceFrame.

Lemma acceptStep_same sid data callback e t w1 w2 :
  sameStore w1 w2 →
  (acceptStep sid data callback e t w1).1.1 =
    (acceptStep sid data callback e t w2).1.1 ∧
  sameStore (acceptStep sid data callback e t w1).1.2
            (acceptStep sid data callback e t w2).1.2 ∧
  (acceptStep sid data callback e t w1).2 =
    (acceptStep sid data callback e t w2).2.
Proof.
  intros [Hdb Hso]. unfold sameStore. destruct t; cbn [acceptStep].
  - destruct (ride_read e); [|done]. rewrite Hdb.
    destruct (Ride.findOne _ _); [|done]. by destruct (Ride.status _).
  - destruct (driver_read e); [|done]. by rewrite Hdb.
  - destruct (ride_save e); [|done]. simpl_world. by rewrite Hdb.
  - simpl_world. rewrite Hso.
    destruct (JsMap.get _ (activeDriverSockets w1)),
             (JsMap.get _ (activeDriverSockets w2)); by simpl_world.
  - done.
Qed.

Lemma acceptRun_same n sid data callback e t w1 w2 :
  sameStore w1 w2 →
  sameStore (acceptRun n sid data callback e t w1).1
            (acceptRun n sid data callback e t w2).1 ∧
  (acceptRun n sid data callback e t w1).2 =
    (acceptRun n sid data callback e t w2).2.
Proof.
  revert t w1 w2. induction n as [|n IH]; intros t w1 w2 Hs; [done|].
  cbn [acceptRun].
  destruct (acceptStep_same sid data callback e t w1 w2 Hs) as (Ht & Hw & He).
  destruct (acceptStep sid data callback e t w1) as [[t1 w1'] s1].
  destruct (acceptStep sid data callback e t w2) as [[t2 w2'] s2].
  cbn [fst snd] in *. subst t2 s2.
  specialize (IH t1 w1' w2' Hw).
  destruct (acceptRun n sid data callback e t1 w1') as [w1'' s1'].
  destruct (acceptRun n sid data callback e t1 w2') as [w2'' s2'].
  cbn [fst snd] in *. destruct IH as [IH ->]. done.
Qed.

(** X23: [acceptRide] consults neither the presence registry nor the
    working set: with any other registry and working set it sends the
    same messages and leaves the same database, and it returns the
    working set as it got it.  So it accepts for a driver who is not
    registered, offline or already on a ride, and a ride whose working
    copy is rejected or completed. *)
Theorem acceptRide_ignores_memory sid data callback e w presence working :
  let w' := with_presence (λ _, presence) (with_rides (λ _, working) w) in
  (acceptRide sid data callback e w').2 = (acceptRide sid data callback e w).2 ∧
  db (acceptRide sid data callback e w').1 =
    db (acceptRide sid data callback e w).1 ∧
  rides (acceptRide sid data callback e w').1 = working.
Proof.
  cbv zeta. unfold acceptRide.
  destruct (acceptRun_same 4 sid data callback e AwaitRide
              (with_presence (λ _, presence) (with_rides (λ _, working) w)) w)
    as [[Hdb _] Hsent]; [done|].
  split; [done|]. split; [done|].
  by destruct (acceptRun_frame 4 sid data callback e AwaitRide
                 (with_presence (λ _, presence) (with_rides (λ _, working) w)))
    as (-> & _).
Qed.

(** X24: an [acceptRide] that finds the ride not yet accepted, with
    MongoDB answering, registers a 1000 ms timer whose firing sends
    [rideAccepted] to the rider's room once more, leaves the working
    set alone, and sets the presence status of the driver to
    ["onRide"] when the driver is registered; it adds no entry for a
    driver who is not. *)
Theorem acceptRide_side_effects sid data callback e w ride :
  ride_read e = Resolves → driver_read e = Resolves →
  ride_save e = Resolves →
  Ride.findOne (Acceptance.rideId data) (rideColl (db w)) = Some ride →
  Ride.status ride ≠ accepted →
  let driverId := Acceptance.driverId data in
  let p :=
    makeDriverData data (acceptedDocument data e w ride)
      (Driver.findOne driverId (driverColl (db w))) (accept_now e) in
  let again := {| delay := 1000; task := ReEmitAccepted (Ride.user ride) p |} in
  let w' := (acceptRide sid data callback e w).1 in
  timers w' = (timers w ++ [again])%list ∧
  (fireTimer (task again) w').2 = [Emit (ToRoom (Ride.user ride)) (rideAccepted p)] ∧
  rides w' = rides w ∧
  match JsMap.get driverId (activeDriverSockets w) with
  | Some d =>
      activeDriverSockets w' =
        JsMap.set driverId (Presence.set_status "onRide" d) (activeDriverSockets w)
  | None => activeDriverSockets w' = activeDriverSockets w
  end.
Proof.
  intros Hread Hdriver Hsave Hfind Hst. cbv zeta. unfold acceptRide.
  rewrite acceptRun_S. cbn [acceptStep]. rewrite Hread, Hfind.
  assert (∀ A (x y : A),
            match Ride.status ride with accepted => x | _ => y end = y) as Hm.
  { intros A x y. by destruct (Ride.status ride). }
  rewrite Hm. clear Hm.
  rewrite acceptRun_S. cbn [acceptStep]. rewrite Hdriver.
  rewrite acceptRun_S. cbn [acceptStep]. rewrite Hsave.
  rewrite acceptRun_S. cbn [acceptStep]. cbn [acceptRun].
  fold (acceptedDocument data e w ride).
  assert (Ride.user (acceptedDocument data e w ride) = Ride.user ride) as ->.
  { unfold acceptedDocument. by rewrite withContact_user. }
  simpl_world.
  destruct (JsMap.get (Acceptance.driverId data) (activeDriverSockets w));
    by simpl_world.
Qed.
End AcceptanceFrame.

(** ** The further properties on the dispatch scenario *)

Section ScenarioChecks.
Import Scenario Shift.

Lemma startup_identifiers_witness :
  gen_run [genOk; genOk; genOk]
    (raidSeq
       (testRaidIdModel {| counter_read := Resolves; counter_save := Resolves |}
          (with_raidSeq None (db fresh)))) =
  ([(true, "RID100001"); (true, "RID100002"); (true, "RID100003")],
   Some 100003%Z).
Proof.
  apply (startup_identifiers
           {| counter_read := Resolves; counter_save := Resolves |}
           (with_raidSeq None (db fresh)) [genOk; genOk; genOk]);
    try reflexivity.
  - repeat constructor.
  - cbn. lia.
Defined.

Lemma bookingOtp_shape_witness :
  String.length (bookingOtp (Some "CUST4321") 5555) = 4%nat ∧
  ∃ front, "CUST4321" = front +:+ bookingOtp (Some "CUST4321") 5555.
Proof. apply (bookingOtp_shape (Some "CUST4321") 5555). lia. Defined.

Lemma bookRide_releases_guard_witness :
  let r := bookRide booking true (bookEnv genOk "ride-2") held in
  "RID100001" ∈ processingRides held ∧
  r.2 = [Ack (AckFail "Ride is already being processed")] ∧
  "RID100001" ∉ processingRides r.1.
Proof.
  cbv zeta.
  assert ("RID100001" ∈ processingRides held) as Hheld
    by (unfold held; cbn [processingRides with_processing];
        apply elem_of_singleton; reflexivity).
  split; [exact Hheld|].
  destruct (bookRide_releases_guard booking true (bookEnv genOk "ride-2") held)
    as [_ Hrefused].
  destruct (Hrefused Hheld) as (Hsent & Hfree & _). by split.
Defined.

Lemma book_then_accept_witness :
  let booked := bookRide booking true (bookEnv genOk "ride-2") fresh in
  let taken :=
    acceptRide "sock-d1" (call_data accept1) true acceptEnv booked.1 in
  Ack (BookOk "RID100001" "ride-2" (Some "4321") "Ride booked successfully!")
    ∈ booked.2 ∧
  ∃ p, Ack (AcceptOk p) ∈ taken.2 ∧
       Emit (ToRoom "U1") (rideAccepted p) ∈ taken.2 ∧
       DriverData.otp p = Some "4321" ∧
       workingStatus "RID100001" taken.1 = Some pending.
Proof.
  cbv zeta.
  destruct (book_then_accept booking true (bookEnv genOk "ride-2") fresh
              "sock-d1" (call_data accept1) true acceptEnv)
    as (Hbook & p & Hack & Hroom & _ & Hotp & _ & _ & Hwork);
    try reflexivity.
  - apply not_elem_of_empty.
  - cbn. lia.
  - split; [by apply Hbook|]. exists p.
    split; [by apply Hack|]. split; [exact Hroom|]. split; [exact Hotp|].
    exact Hwork.
Defined.

Lemma acceptRide_side_effects_witness :
  let w' := (acceptRide "sock-d1" (call_data accept1) true acceptEnv world).1 in
  length (timers w') = 1%nat ∧
  rides w' = rides world ∧
  presenceStatus "D1" w' = Some "onRide".
Proof.
  cbv zeta.
  destruct (acceptRide_side_effects "sock-d1" (call_data accept1) true
              acceptEnv world pendingRide)
    as (Htimers & _ & Hrides & Hpresence); try reflexivity.
  - discriminate.
  - split; [by rewrite Htimers|]. split; [exact Hrides|].
    unfold presenceStatus.
    change (activeDriverSockets
              (acceptRide "sock-d1" (call_data accept1) true acceptEnv world).1 =
            JsMap.set "D1" (Presence.set_status "onRide" presence1)
              (activeDriverSockets world)) in Hpresence.
    by rewrite Hpresence.
Defined.

Lemma acceptTwo_late_lookup_witness :
  let '(w', sent1, sent2) :=
    acceptTwo [First; First; First; Second; First; Second; Second; Second]
      accept1 accept2 AwaitRide AwaitRide world in
  acceptedAck sent1 = true ∧ announcesAcceptance sent2 = false ∧
  Ride.driverId <$> Ride.findOne "RID100001" (rideColl (db w')) =
    Some (Some "D1").
Proof.
  pose proof (acceptTwo_late_lookup accept1 accept2
                [Second; First; Second; Second; Second] world pendingRide
                eq_refl eq_refl eq_refl eq_refl eq_refl ltac:(discriminate))
    as H.
  destruct (acceptTwo _ accept1 accept2 AwaitRide AwaitRide world)
    as [[w' sent1] sent2].
  destruct H as (H1 & H2 & H3). split; [by apply H1|]. by split.
Defined.

Lemma acceptTwo_overlapping_lookups_witness :
  let '(w', sent1, sent2) :=
    acceptTwo ([First; First; Second] ++ [Second; Second; First; First; Second])
      accept1 accept2 AwaitRide AwaitRide world in
  acceptedAck sent1 = true ∧ acceptedAck sent2 = true.
Proof.
  apply (acceptTwo_overlapping_lookups accept1 accept2 [First; First; Second]
           [Second; Second; First; First; Second] world pendingRide);
    try reflexivity; try discriminate; cbn; lia.
Defined.

Lemma userLocationUpdate_relay_witness :
  let loc :=
    {| UserLocation.userId := Some "U1";
       UserLocation.latitude := Some (129 # 10)%Q;
       UserLocation.longitude := Some (776 # 10)%Q;
       UserLocation.rideId := "RID100001" |} in
  userLocationUpdate loc Resolves 5000 world = [] ∧
  fst <$> userLocationUpdate loc Resolves 5000
            (acceptRide "sock-d1" (call_data accept1) true acceptEnv world).1 =
    [ToSocket "sock-d1"].
Proof.
  cbv zeta.
  destruct (userLocationUpdate_relay
              {| UserLocation.userId := Some "U1";
                 UserLocation.latitude := Some (129 # 10)%Q;
                 UserLocation.longitude := Some (776 # 10)%Q;
                 UserLocation.rideId := "RID100001" |}
              5000 "sock-d1" (call_data accept1) true acceptEnv world
              pendingRide) as [Hbefore Hafter];
    try reflexivity; try discriminate.
  split; [exact Hbefore|]. by rewrite Hafter.
Defined.

Lemma joined_rider_is_told_witness :
  ∃ p,
    Emit (ToSocket "sock-d2") (rideAccepted p)
      ∈ (acceptRide "sock-d1" (call_data accept1) true acceptEnv
           (registerUser "sock-d2" (Some "U1") world)).2 ∧
    DriverData.driverId p = "D1".
Proof.
  eexists. split.
  - apply (joined_rider_is_told "sock-d2" "sock-d1" "U1" (call_data accept1)
             true acceptEnv world pendingRide
             {| Socket.id := "sock-d2"; Socket.driverId := None;
                Socket.driverName := None; Socket.rooms := [] |});
      try reflexivity; try discriminate.
    apply elem_of_cons. right. apply elem_of_cons. by left.
  - reflexivity.
Defined.

Lemma registerDriver_registers_witness :
  let r := registerDriver "sock-d2" registration2 presenceEnv world in
  JsMap.get "D2" (activeDriverSockets r.1) =
    Some (registered "sock-d2" registration2 4000) ∧
  JsMap.get "D1" (activeDriverSockets r.1) = Some presence1.
Proof.
  cbv zeta.
  destruct (registerDriver_registers "sock-d2" registration2 presenceEnv world
              "D2") as (Hentry & Hothers & _);
    try reflexivity; try discriminate.
  split; [exact Hentry|]. rewrite Hothers; [reflexivity | discriminate].
Defined.

Lemma scenario_registry_wf : registry_wf (activeDriverSockets world).
Proof.
  split.
  - apply NoDup_cons. split; [apply not_elem_of_nil | apply NoDup_nil_2].
  - by repeat constructor.
Defined.

Lemma requestNearbyDrivers_lists_online_witness :
  ∃ drivers,
    requestNearbyDrivers "sock-u1"
      {| Nearby.latitude := Some (129 # 10)%Q;
         Nearby.longitude := Some (776 # 10)%Q; Nearby.radius := None |} world =
      [(ToSocket "sock-u1", nearbyDriversResponse drivers)] ∧
    NoDup (map Snapshot.driverId drivers).
Proof.
  destruct (requestNearbyDrivers_lists_online "sock-u1"
              {| Nearby.latitude := Some (129 # 10)%Q;
                 Nearby.longitude := Some (776 # 10)%Q; Nearby.radius := None |}
              world scenario_registry_wf) as (drivers & Heq & Hnd & _).
  by exists drivers.
Defined.

Lemma disconnect_marks_offline_witness :
  let w' := (disconnect "sock-d1" presenceEnv world).1.1 in
  JsMap.get "D1" (activeDriverSockets w') = Some (offlinePresence presence1) ∧
  rides w' = rides world.
Proof.
  cbv zeta.
  destruct (disconnect_marks_offline "sock-d1" presenceEnv world
              {| Socket.id := "sock-d1"; Socket.driverId := Some "D1";
                 Socket.driverName := Some "Driver One";
                 Socket.rooms := ["allDrivers"; "driver_D1"] |}
              "D1" presence1 scenario_registry_wf)
    as (Hentry & _ & _ & Hrides & _); try reflexivity; try discriminate.
  by split.
Defined.

Lemma heartbeat_after_disconnect_witness :
  let w' :=
    driverHeartbeat (Some "D1") 6000
      (disconnect "sock-d1" presenceEnv world).1.1 in
  Presence.isOnline <$> JsMap.get "D1" (activeDriverSockets w') = Some true ∧
  presenceStatus "D1" w' = Some "Offline".
Proof.
  cbv zeta.
  destruct (heartbeat_after_disconnect "sock-d1" presenceEnv world
              {| Socket.id := "sock-d1"; Socket.driverId := Some "D1";
                 Socket.driverName := Some "Driver One";
                 Socket.rooms := ["allDrivers"; "driver_D1"] |}
              "D1" presence1 6000 scenario_registry_wf)
    as (Hentry & _); try reflexivity; try discriminate.
  unfold presenceStatus. by rewrite Hentry.
Defined.

Lemma cleanup_removes_stale_witness :
  let gone :=
    (disconnect "sock-d1" presenceEnv world).1.1 in
  JsMap.get "D1" (activeDriverSockets (cleanupOfflineDrivers 301000 gone).1.1)
    = None ∧
  JsMap.get "D1" (activeDriverSockets (cleanupOfflineDrivers 300000 gone).1.1)
    = Some (offlinePresence presence1).
Proof.
  cbv zeta. split.
  - destruct (cleanup_removes_stale 301000
                (disconnect "sock-d1" presenceEnv world).1.1) as (H & _).
    + apply NoDup_cons. split; [apply not_elem_of_nil | apply NoDup_nil_2].
    + by rewrite H.
  - destruct (cleanup_removes_stale 300000
                (disconnect "sock-d1" presenceEnv world).1.1) as (H & _).
    + apply NoDup_cons. split; [apply not_elem_of_nil | apply NoDup_nil_2].
    + by rewrite H.
Defined.

Lemma coordinates_kept_witness :
  statusCheck
    (handle
       (InLocationUpdate
          {| LocationUpdate.driverId := Some "D1";
             LocationUpdate.latitude := Some (130 # 10)%Q;
             LocationUpdate.longitude := Some (777 # 10)%Q;
             LocationUpdate.status := None |} presenceEnv) world).1 = true.
Proof. apply coordinates_kept; reflexivity. Defined.

Lemma location_update_without_coordinate_witness :
  let w1 :=
    (driverLocationUpdate
       {| LocationUpdate.driverId := Some "D1";
          LocationUpdate.latitude := None;
          LocationUpdate.longitude := Some (777 # 10)%Q;
          LocationUpdate.status := None |} presenceEnv world).1 in
  statusCheck world = true ∧ statusCheck w1 = false ∧
  Emit (ToSocket "sock-d2")
    (driverRegistrationConfirmed false
       ("Registration failed: " +:+ toFixedTypeError))
    ∈ (registerDriver "sock-d2" registration2 presenceEnv w1).2.
Proof.
  cbv zeta.
  destruct (location_update_without_coordinate
              {| LocationUpdate.driverId := Some "D1";
                 LocationUpdate.latitude := None;
                 LocationUpdate.longitude := Some (777 # 10)%Q;
                 LocationUpdate.status := None |} presenceEnv world "D1"
              presence1 "sock-d2" registration2 presenceEnv "D2")
    as (Hlog & _ & _ & Hfail); try reflexivity; try discriminate.
  - by left.
  - split; [reflexivity|]. by split.
Defined.

Lemma stored_rides_stay_open_witness :
  rideColl_wf
    (rideColl
       (db (run [InBookRide booking true (bookEnv genOk "ride-2");
                 InAcceptRide "sock-d1" (call_data accept1) true acceptEnv;
                 InCompleteRide "sock-d1"
                   {| Completion.rideId := "RID100001";
                      Completion.driverId := "D1";
                      Completion.distance := Some (5 # 1)%Q |} 7000]
              (started connections (db fresh))).1)).
Proof.
  apply stored_rides_stay_open. split; [apply NoDup_nil_2 | constructor].
Defined.
End ScenarioChecks.
